(** * BitCoin_Price_Tracker: the fetch / validate / cache / retry / derive core

    A shallow embedding of [output.py] (class [BitcoinPriceTracker]) and the
    properties of its data-acquisition and derivation layer.

    - Python numbers are modelled as they are at run time: an [int] is an
      unbounded integer, a [float] is an IEEE-754 binary64 value (the
      axiom-free [SpecFloat] model of the Standard Library, precision 53,
      [emax] 1024).
    - A decoded JSON document is a [value]; a JSON object is a finite map
      from strings to values.
    - The Streamlit calls ([st.error], [st.info]), [time.sleep], the HTTP
      request and the [st.cache_data] store are effects on an explicit
      [world], threaded through a small state-and-exception monad.
    - The presentation helpers ([format_price], [format_change], the
      branches of the change line and of the trend block) work on the same
      numbers; a text is a [string] of bytes (UTF-8). The countdown of
      [setup_auto_refresh] runs on a [page] of its own. *)

From Stdlib Require Import ZArith QArith Qabs Lqa Lia Bool List String.
From Stdlib Require Import Floats.SpecFloat.
From stdpp Require Import gmap strings.
From Stdlib Require Import Ascii.
From stdpp Require Import pretty.
Import ListNotations.

Set Warnings "-register-all".
Local Open Scope string_scope.
Local Open Scope list_scope.
Local Open Scope Z_scope.

(* ===================================================================== *)
(** ** Python exceptions *)
(* ===================================================================== *)

(** The exceptions that can reach the handlers of [fetch_bitcoin_data].
    [HTTPError] carries the status code of its response ([None] when the
    exception has no response). [JSONDecodeError] is the one raised by
    [response.json()]: a subclass of [RequestException] and of
    [ValueError]. Those from [TypeError] on have no clause of their own and
    are caught by [except Exception]; [OtherException] stands for every
    other subclass of [Exception] ([RecursionError] among them). The
    [string] an exception carries is its message, [str(e)]; the messages
    of the interpreter are those of CPython 3.11. *)
Inductive exn :=
  | Timeout
  | ConnectionError
  | HTTPError (response : option Z)
  | RequestException (msg : string)
  | JSONDecodeError (msg : string)
  | ValueError (msg : string)
  | TypeError (msg : string)
  | AttributeError (msg : string)
  | KeyError (key : string)
  | OverflowError (msg : string)
  | ZeroDivisionError (msg : string)
  | OtherException (msg : string).

Inductive result (A : Type) :=
  | Ok (a : A)
  | Raise (e : exn).
Arguments Ok {A} a.
Arguments Raise {A} e.

#[global] Instance result_ret : MRet result := @Ok.
#[global] Instance result_bind : MBind result := fun A B k r =>
  match r with
  | Ok a => k a
  | Raise e => Raise e
  end.

(** [str(e)] *)
Definition exn_str (e : exn) : string :=
  match e with
  | Timeout => "Timeout"
  | ConnectionError => "ConnectionError"
  | HTTPError _ => "HTTPError"
  | KeyError key => "'" +:+ key +:+ "'"
  | RequestException m | JSONDecodeError m | ValueError m | TypeError m
  | AttributeError m | OverflowError m | ZeroDivisionError m
  | OtherException m => m
  end.

(* ===================================================================== *)
(** ** Python numbers *)
(* ===================================================================== *)

Module PyNum.

(** binary64 *)
Definition prec : Z := 53.
Definition emax : Z := 1024.

Abbreviation float := spec_float.

(** A Python number as the JSON decoder produces it: [int] or [float]. *)
Inductive number :=
  | NInt (z : Z)
  | NFloat (f : float).

(** The mathematical value of a number: a rational, an infinity, or NaN. *)
Inductive xreal :=
  | XNaN
  | XNegInf
  | XFin (q : Q)
  | XPosInf.

(** The rational [(-1)^s * m * 2^e] of a finite float. *)
Definition float_Q (s : bool) (m : positive) (e : Z) : Q :=
  let sm := cond_Zopp s (Zpos m) in
  match e with
  | Z0 => inject_Z sm
  | Zpos p => inject_Z (sm * Zpos (2 ^ p))
  | Zneg p => Qmake sm (2 ^ p)
  end.

Definition float_value (f : float) : xreal :=
  match f with
  | S754_zero _ => XFin 0
  | S754_infinity s => if s then XNegInf else XPosInf
  | S754_nan => XNaN
  | S754_finite s m e => XFin (float_Q s m e)
  end.

Definition num_value (n : number) : xreal :=
  match n with
  | NInt z => XFin (inject_Z z)
  | NFloat f => float_value f
  end.

(** Python compares an [int] with a [float] (and two floats, two ints) by
    their exact mathematical values; every comparison with NaN is false. *)
Definition xcompare (a b : xreal) : option comparison :=
  match a, b with
  | XNaN, _ | _, XNaN => None
  | XNegInf, XNegInf => Some Eq
  | XNegInf, _ => Some Lt
  | _, XNegInf => Some Gt
  | XPosInf, XPosInf => Some Eq
  | XPosInf, _ => Some Gt
  | _, XPosInf => Some Lt
  | XFin p, XFin q => Some (Qcompare p q)
  end.

Definition py_compare (a b : number) : option comparison :=
  xcompare (num_value a) (num_value b).

(** [a > b], [a < b], [a <= b], [a == b] *)
Definition py_gt (a b : number) : bool :=
  match py_compare a b with Some Gt => true | _ => false end.

Definition py_lt (a b : number) : bool :=
  match py_compare a b with Some Lt => true | _ => false end.

Definition py_le (a b : number) : bool :=
  match py_compare a b with Some (Lt | Eq) => true | _ => false end.

Definition py_eq (a b : number) : bool :=
  match py_compare a b with Some Eq => true | _ => false end.

(** [float(z)]: the nearest binary64 (ties to even); [None] stands for the
    [OverflowError] that Python raises when [z] is too large. *)
Definition float_of_int (z : Z) : option float :=
  match binary_normalize prec emax z 0 false with
  | S754_infinity _ => None
  | f => Some f
  end.

Definition to_float (n : number) : result float :=
  match n with
  | NFloat f => Ok f
  | NInt z =>
      match float_of_int z with
      | Some f => Ok f
      | None => Raise (OverflowError "int too large to convert to float")
      end
  end.

(** [x / y] on two ints: the binary64 nearest to the exact quotient
    (CPython rounds the true quotient once, whatever the size of the
    operands). The sign of a zero result is the sign of the quotient's
    operands, as in [0 / -5 == -0.0]. *)
Definition int_truediv (x y : Z) : float :=
  let '(q, e, l) := SFdiv_core_binary prec emax (Z.abs x) 0 (Z.abs y) 0 in
  binary_round_aux prec emax (xorb (x <? 0) (y <? 0)) q e l.

(** The float a decimal literal [n / d] of a JSON text is read as: the
    binary64 nearest to the quotient of the two integers. *)
Definition float_lit (n : Z) (d : positive) : float := int_truediv n (Zpos d).

(** [a * b]: exact on two ints, binary64 otherwise (an overflowing float
    product is an infinity, not an exception). *)
Definition py_mul (a b : number) : result number :=
  match a, b with
  | NInt x, NInt y => Ok (NInt (x * y))
  | _, _ => x ← to_float a; y ← to_float b; Ok (NFloat (SFmul prec emax x y))
  end.

(** [a / b]: true division. *)
Definition py_truediv (a b : number) : result number :=
  if py_eq b (NInt 0) then
    Raise (ZeroDivisionError
             match a, b with
             | NInt _, NInt _ => "division by zero"
             | _, _ => "float division by zero"
             end)
  else
    match a, b with
    | NInt x, NInt y =>
        match int_truediv x y with
        | S754_infinity _ =>
            Raise (OverflowError "integer division result too large for a float")
        | f => Ok (NFloat f)
        end
    | _, _ => x ← to_float a; y ← to_float b; Ok (NFloat (SFdiv prec emax x y))
    end.

(** [a - b] and [a + b] *)
Definition py_sub (a b : number) : result number :=
  match a, b with
  | NInt x, NInt y => Ok (NInt (x - y))
  | _, _ => x ← to_float a; y ← to_float b; Ok (NFloat (SFsub prec emax x y))
  end.

Definition py_add (a b : number) : result number :=
  match a, b with
  | NInt x, NInt y => Ok (NInt (x + y))
  | _, _ => x ← to_float a; y ← to_float b; Ok (NFloat (SFadd prec emax x y))
  end.

End PyNum.

Import PyNum.

(** The arithmetic operators are duck-typed: the same method bodies run on
    the ints and floats that the JSON decoder produces and on exact
    rationals ([fractions.Fraction]). [Arith] is the interface the
    derivations use. *)
Class Arith (A : Type) := {
  of_int : Z -> A;
  mul : A -> A -> result A;
  truediv : A -> A -> result A;
  sub : A -> A -> result A;
  add : A -> A -> result A;
  eqb : A -> A -> bool
}.

(** [int] and [float] *)
#[global] Instance number_arith : Arith number := {
  of_int := NInt;
  mul := py_mul;
  truediv := py_truediv;
  sub := py_sub;
  add := py_add;
  eqb := py_eq
}.

(** [fractions.Fraction]: exact rational arithmetic *)
#[global] Instance fraction_arith : Arith Q := {
  of_int := inject_Z;
  mul := fun a b => Ok (a * b)%Q;
  truediv := fun a b =>
    if Qeq_bool b 0 then Raise (ZeroDivisionError "Fraction(_, 0)")
    else Ok (a / b)%Q;
  sub := fun a b => Ok (a - b)%Q;
  add := fun a b => Ok (a + b)%Q;
  eqb := Qeq_bool
}.

(* ===================================================================== *)
(** ** The derivations: previous price and change amount *)
(* ===================================================================== *)

Section Derivation.

Context {A : Type} `{Arith A}.

(** [calculate_previous_price] (lines 118-121) *)
Definition calculate_previous_price (current_price change_percent : A) : result A :=
  product ← mul current_price change_percent;
  change_amount ← truediv product (of_int 100);
  sub current_price change_amount.

(** [change_amount] of [display_price_info] (line 127) *)
Definition display_change_amount (current_price change_percent : A) : result A :=
  product ← mul current_price change_percent;
  truediv product (of_int 100).

(** [previous_price + change_amount], with the two operands computed as
    [display_price_info] computes them. *)
Definition previous_plus_change (current_price change_percent : A) : result A :=
  change_amount ← display_change_amount current_price change_percent;
  previous_price ← calculate_previous_price current_price change_percent;
  add previous_price change_amount.

(** [previous_price + change_amount == current_price] *)
Definition previous_plus_change_is_current (current_price change_percent : A)
  : result bool :=
  total ← previous_plus_change current_price change_percent;
  Ok (eqb total current_price).

(** [current_price * (1 - change_percent / 100)] *)
Definition one_minus_percent_form (current_price change_percent : A) : result A :=
  fraction ← truediv change_percent (of_int 100);
  factor ← sub (of_int 1) fraction;
  mul current_price factor.

End Derivation.

(* ===================================================================== *)
(** ** The trend analysis of [display_price_info] *)
(* ===================================================================== *)

(** The seven branches of the trend block (lines 181-194). Each branch
    issues one Streamlit call; the constructor names the bucket it stands
    for:
    - [StrongUp]      st.success, "强势上涨"
    - [ModerateUp]    st.success, "稳步上涨"
    - [SlightUp]      st.info,    "小幅上涨"
    - [StrongDown]    st.error,   "大幅下跌"
    - [ModerateDown]  st.error,   "明显下跌"
    - [SlightDown]    st.warning, "小幅下跌"
    - [Flat]          st.info,    "价格平稳" *)
Inductive trend :=
  | StrongUp | ModerateUp | SlightUp | Flat | SlightDown | ModerateDown | StrongDown.

Definition trend_analysis (change_percent : number) : trend :=
  if py_gt change_percent (NInt 5) then StrongUp
  else if py_gt change_percent (NInt 2) then ModerateUp
  else if py_gt change_percent (NInt 0) then SlightUp
  else if py_lt change_percent (NInt (-5)) then StrongDown
  else if py_lt change_percent (NInt (-2)) then ModerateDown
  else if py_lt change_percent (NInt 0) then SlightDown
  else Flat.

(** The classification as the specification words it, on the real value
    [p] of the 24-hour change. *)
Inductive spec_bucket (p : Q) : trend -> Prop :=
  | bucket_strong_up : (5 < p)%Q -> spec_bucket p StrongUp
  | bucket_moderate_up : (2 < p)%Q -> (p <= 5)%Q -> spec_bucket p ModerateUp
  | bucket_slight_up : (0 < p)%Q -> (p <= 2)%Q -> spec_bucket p SlightUp
  | bucket_flat : (p == 0)%Q -> spec_bucket p Flat
  | bucket_slight_down : (-2 <= p)%Q -> (p < 0)%Q -> spec_bucket p SlightDown
  | bucket_moderate_down : (-5 <= p)%Q -> (p < -2)%Q -> spec_bucket p ModerateDown
  | bucket_strong_down : (p < -5)%Q -> spec_bucket p StrongDown.

(* ===================================================================== *)
(** ** Decoded JSON values and the Python operations applied to them *)
(* ===================================================================== *)

(** What [response.json()] returns. [bool] is kept apart from [int] as in
    Python, and counts as the integer 0 or 1 in comparisons. *)
Inductive value :=
  | VNone
  | VBool (b : bool)
  | VNum (n : number)
  | VStr (s : string)
  | VList (l : list value)
  | VDict (d : gmap string value).

(** Truth value of an object, as [if x:] and [not x] test it. NaN is true:
    a number is false only when it equals zero. *)
Definition truthy (v : value) : bool :=
  match v with
  | VNone => false
  | VBool b => b
  | VNum n => negb (py_eq n (NInt 0))
  | VStr s => negb (String.eqb s "")
  | VList l => match l with [] => false | _ => true end
  | VDict d => negb (bool_decide (size d = 0%nat))
  end.

(** [type(v).__name__] *)
Definition type_name (v : value) : string :=
  match v with
  | VNone => "NoneType"
  | VBool _ => "bool"
  | VNum (NInt _) => "int"
  | VNum (NFloat _) => "float"
  | VStr _ => "str"
  | VList _ => "list"
  | VDict _ => "dict"
  end.

(** [needle in haystack] for two strings *)
Fixpoint str_contains (needle haystack : string) : bool :=
  String.prefix needle haystack ||
  match haystack with
  | EmptyString => false
  | String _ rest => str_contains needle rest
  end.

(** [field in data] with [field] a string *)
Definition py_contains (field : string) (data : value) : result bool :=
  match data with
  | VDict d => Ok (bool_decide (is_Some (d !! field)))
  | VStr s => Ok (str_contains field s)
  | VList l =>
      Ok (existsb (fun v => match v with VStr s => String.eqb s field | _ => false end) l)
  | VNone | VBool _ | VNum _ =>
      Raise (TypeError ("argument of type '" +:+ type_name data +:+ "' is not iterable"))
  end.

(** [data[key]] with [key] a string *)
Definition py_getitem (data : value) (key : string) : result value :=
  match data with
  | VDict d =>
      match d !! key with
      | Some v => Ok v
      | None => Raise (KeyError key)
      end
  | VStr _ => Raise (TypeError "string indices must be integers, not 'str'")
  | VList _ => Raise (TypeError "list indices must be integers or slices, not str")
  | VNone | VBool _ | VNum _ =>
      Raise (TypeError ("'" +:+ type_name data +:+ "' object is not subscriptable"))
  end.

(** [data.get(key, default)] *)
Definition py_get (data : value) (key : string) (default : value) : result value :=
  match data with
  | VDict d =>
      match d !! key with
      | Some v => Ok v
      | None => Ok default
      end
  | _ => Raise (AttributeError ("'" +:+ type_name data +:+ "' object has no attribute 'get'"))
  end.

(** The number a value stands for in arithmetic and comparisons. *)
Definition as_number (v : value) : option number :=
  match v with
  | VNum n => Some n
  | VBool b => Some (NInt (Z.b2z b))
  | _ => None
  end.

(** [v <= 0] *)
Definition py_le_zero (v : value) : result bool :=
  match as_number v with
  | Some n => Ok (py_le n (NInt 0))
  | None =>
      Raise (TypeError ("'<=' not supported between instances of '" +:+ type_name v +:+
                        "' and 'int'"))
  end.

(* ===================================================================== *)
(** ** Effects: the world the tracker runs in *)
(* ===================================================================== *)

(** The argument of each [st.error] call of the class:
    - [MissingFieldMsg f]   "数据验证失败: 缺少必要字段 'f'"
    - [ImplausiblePriceMsg] "数据验证失败: 价格数据异常"
    - [TimeoutMsg]          "⏰ 请求超时，请检查网络连接"
    - [ConnectionMsg]       "🌐 网络连接错误，请检查网络设置"
    - [HttpMsg c]           "🔍 HTTP错误: c" ([None]: '未知')
    - [RequestMsg s]        "📡 网络请求错误: s"
    - [ParseMsg s]          "📊 数据解析错误: s"
    - [UnknownMsg s]        "❓ 未知错误: s" *)
Inductive error_message :=
  | MissingFieldMsg (field : string)
  | ImplausiblePriceMsg
  | TimeoutMsg
  | ConnectionMsg
  | HttpMsg (code : option Z)
  | RequestMsg (s : string)
  | ParseMsg (s : string)
  | UnknownMsg (s : string).

(** What the tracker does to the outside, in the order it does it. *)
Inductive event :=
  | StError (m : error_message)           (* st.error(...) *)
  | StInfoAttempt (attempt max_retries : Z) (* st.info(f"尝试获取数据 ({attempt}/{max_retries})...") *)
  | HttpGet                                (* requests.get(api_url, params, timeout) *)
  | Sleep (seconds : Z).                   (* time.sleep(seconds) *)

(** A [requests.Response]: its status code, and what [response.json()]
    does on its body: it returns the decoded value, or it raises. The
    decoder is not code of the tracker, so what it does is part of the
    response: [requests.exceptions.JSONDecodeError] with the decoder's
    message for a body that is not a JSON text, a plain [ValueError] for an
    integer literal beyond the interpreter's digit limit, [RecursionError]
    for a text nested too deep. *)
Record response := {
  status_code : Z;
  body : result value
}.

(** One round trip of [requests.get]: either the call raises (a timeout,
    a connection error, another [RequestException]), or a response comes
    back. [elapsed] is the time the round trip took. *)
Inductive http_outcome :=
  | NetRaise (e : exn)
  | NetResponse (r : response).

Record http_exchange := {
  elapsed : Z;
  outcome : http_outcome
}.

(** The upstream API: what the i-th request of the run (counted from 0)
    meets. *)
Definition network := nat -> http_exchange.

(** An entry of the [st.cache_data] store of [fetch_bitcoin_data_cached]:
    the value the function returned, when, and the [st.error] calls it made
    (Streamlit replays them on a hit). *)
Record cache_entry := {
  stored_at : Z;
  stored_value : option value;
  stored_msgs : list error_message
}.

Record world := {
  clock : Z;                 (* time.time(), in seconds *)
  requests : nat;            (* how many requests.get calls were issued *)
  ui : list event;           (* the events so far, NEWEST FIRST *)
  cache : option cache_entry (* the single entry of the st.cache_data store *)
}.

(** A computation: runs in a world, returns or raises, leaves a world. *)
Definition M (A : Type) : Type := world -> result A * world.

Definition ret {A} (a : A) : M A := fun w => (Ok a, w).

Definition raise {A} (e : exn) : M A := fun w => (Raise e, w).

Definition bind {A B} (c : M A) (k : A -> M B) : M B :=
  fun w =>
    match c w with
    | (Ok a, w') => k a w'
    | (Raise e, w') => (Raise e, w')
    end.

(** [try: c  except Exception as e: h e] *)
Definition try_except {A} (c : M A) (h : exn -> M A) : M A :=
  fun w =>
    match c w with
    | (Ok a, w') => (Ok a, w')
    | (Raise e, w') => h e w'
    end.

Definition lift {A} (r : result A) : M A := fun w => (r, w).

#[global] Instance M_ret : MRet M := @ret.
#[global] Instance M_bind : MBind M := fun A B k c => bind c k.

(** The world once [e] has happened in it. *)
Definition record (e : event) (w : world) : world :=
  {| clock := clock w; requests := requests w; ui := e :: ui w; cache := cache w |}.

Definition emit (e : event) : M unit := fun w => (Ok tt, record e w).

Definition st_error (m : error_message) : M unit := emit (StError m).

(** The world after [time.sleep(seconds)]. The call returns after
    [seconds] at the earliest; the clock moves by that least duration, and
    the Streamlit calls move it by nothing. After a sleep the clock is
    therefore the earliest time it can be: it bounds the time that has
    passed from below, not from above. *)
Definition after_sleep (seconds : Z) (w : world) : world :=
  {| clock := clock w + seconds; requests := requests w;
     ui := Sleep seconds :: ui w; cache := cache w |}.

Definition time_sleep (seconds : Z) : M unit :=
  fun w => (Ok tt, after_sleep seconds w).

(** Time passing between two calls of the tracker (a Streamlit rerun). *)
Definition elapse (d : Z) (w : world) : world :=
  {| clock := clock w + d; requests := requests w; ui := ui w; cache := cache w |}.

(* ===================================================================== *)
(** ** class BitcoinPriceTracker *)
(* ===================================================================== *)

Section Tracker.

Variable net : network.

(** [requests.get(self.api_url, params=self.params, timeout=self.timeout)] *)
Definition requests_get : M response :=
  fun w =>
    let x := net (requests w) in
    let w' := {| clock := clock w + elapsed x; requests := S (requests w);
                 ui := HttpGet :: ui w; cache := cache w |} in
    match outcome x with
    | NetRaise e => (Raise e, w')
    | NetResponse r => (Ok r, w')
    end.

(** [response.ok]: no 4xx or 5xx status *)
Definition response_ok (status : Z) : bool :=
  negb ((400 <=? status) && (status <? 600)).

(** [response.raise_for_status()] *)
Definition raise_for_status (r : response) : M unit :=
  if response_ok (status_code r) then ret tt
  else raise (HTTPError (Some (status_code r))).

(** [response.json()]: the decoded value, or the exception the decoder
    raises on this body *)
Definition response_json (r : response) : M value := lift (body r).

Definition required_fields : list string := ["usd"; "usd_24h_change"].

(** The [for field in required_fields] loop of [validate_bitcoin_data]:
    [false] as soon as a field is missing. *)
Fixpoint check_required (fields : list string) (data : value) : M bool :=
  match fields with
  | [] => ret true
  | field :: rest =>
      present ← lift (py_contains field data);
      if negb (present : bool) then
        st_error (MissingFieldMsg field) ;; ret false
      else check_required rest data
  end.

Definition validate_bitcoin_data (data : value) : M bool :=
  complete ← check_required required_fields data;
  if negb (complete : bool) then ret false
  else
    usd ← lift (py_getitem data "usd");
    implausible ← lift (py_le_zero usd);
    if (implausible : bool) then
      st_error ImplausiblePriceMsg ;; ret false
    else ret true.

(** [bool(e.response)] is [e.response.ok], and false when the exception
    carries no response. *)
Definition response_truthy (response : option Z) : bool :=
  match response with
  | Some status => response_ok status
  | None => false
  end.

(** The [except] clauses of [fetch_bitcoin_data], first match first. *)
Definition handler (e : exn) : error_message :=
  match e with
  | Timeout => TimeoutMsg
  | ConnectionError => ConnectionMsg
  | HTTPError response =>
      HttpMsg (if response_truthy response then response else None)
  | RequestException m | JSONDecodeError m => RequestMsg m
  | ValueError m => ParseMsg m
  | e => UnknownMsg (exn_str e)
  end.

Definition fetch_bitcoin_data : M (option value) :=
  try_except
    (response ← requests_get;
     raise_for_status response ;;
     data ← response_json response;
     bitcoin_data ← lift (py_get data "bitcoin" (VDict ∅));
     if negb (truthy bitcoin_data) then raise (ValueError "未找到比特币数据")
     else
       valid ← validate_bitcoin_data bitcoin_data;
       if negb (valid : bool) then ret None
       else ret (Some bitcoin_data))
    (fun e => st_error (handler e) ;; ret None).

(** [@st.cache_data(ttl=...)] around a function without hashed arguments
    ([_self] is skipped): one entry. A hit, while [now - stored_at < ttl],
    returns the stored value and replays the stored [st.error] calls
    without running the function. Otherwise the function runs and what it
    returned is stored: whatever it is, [None] included. *)
Definition st_errors_since (before after : list event) : list error_message :=
  let fresh := firstn (length after - length before) after in
  omap (fun e => match e with StError m => Some m | _ => None end) fresh.

Definition replay (msgs : list error_message) : M unit :=
  fun w => (Ok tt, {| clock := clock w; requests := requests w;
                      ui := map StError msgs ++ ui w; cache := cache w |}).

Definition cache_data (ttl : Z) (f : M (option value)) : M (option value) :=
  fun w =>
    let miss :=
      match f w with
      | (Ok r, w') =>
          (Ok r, {| clock := clock w'; requests := requests w'; ui := ui w';
                    cache := Some {| stored_at := clock w'; stored_value := r;
                                     stored_msgs := st_errors_since (ui w) (ui w') |} |})
      | (Raise e, w') => (Raise e, w')
      end in
    match cache w with
    | Some entry =>
        if clock w - stored_at entry <? ttl then
          (replay (stored_msgs entry) ;; ret (stored_value entry)) w
        else miss
    | None => miss
    end.

Definition fetch_bitcoin_data_cached : M (option value) :=
  cache_data 30 fetch_bitcoin_data.

(** [if data:] on an [Optional[Dict]] *)
Definition truthy_opt (data : option value) : bool :=
  match data with
  | Some v => truthy v
  | None => false
  end.

(** The body of [for attempt in range(max_retries)], from [attempt] on,
    for the [remaining] values of the range. *)
Fixpoint retry_loop (remaining : nat) (attempt max_retries : Z) : M (option value) :=
  match remaining with
  | O => ret None
  | S remaining' =>
      emit (StInfoAttempt (attempt + 1) max_retries) ;;
      data ← fetch_bitcoin_data;
      if truthy_opt data then ret data
      else
        (if attempt <? max_retries - 1 then time_sleep 2 else ret tt) ;;
        retry_loop remaining' (attempt + 1) max_retries
  end.

Definition fetch_bitcoin_data_with_retry (max_retries : Z) : M (option value) :=
  retry_loop (Z.to_nat max_retries) 0 max_retries.

End Tracker.

(** The world before anything happened. *)
Definition blank : world :=
  {| clock := 0; requests := 0; ui := []; cache := None |}.

(** What one round trip [x] makes of a call of [fetch_bitcoin_data]: the
    value returned and the events of the call (newest first), read off a
    run from the blank world. *)
Definition attempt (x : http_exchange) : option value * list event :=
  match fetch_bitcoin_data (fun _ => x) blank with
  | (Ok r, w) => (r, ui w)
  | (Raise _, w) => (None, ui w)
  end.

(** The exchange [x] brings the payload [v]: a response whose status is
    no error and whose body decodes to a JSON object holding, under
    ["bitcoin"], the JSON object [v] with both required fields, the one
    under ["usd"] a number that is not [<= 0]. *)
Definition delivers (x : http_exchange) (v : value) : Prop :=
  exists status top d usd change n,
    outcome x = NetResponse {| status_code := status; body := Ok (VDict top) |} /\
    response_ok status = true /\
    top !! "bitcoin" = Some v /\
    v = VDict d /\
    d !! "usd" = Some usd /\
    d !! "usd_24h_change" = Some change /\
    as_number usd = Some n /\
    py_le n (NInt 0) = false.

(** The kinds of failure of one fetch, each with the message
    [fetch_bitcoin_data] shows for it:
    - a timeout, a connection error, another error of the transport;
    - an HTTP error status (the message never shows the status);
    - a malformed payload: [response.json()] raises (its own
      [JSONDecodeError], a [ValueError], or another exception), or the body
      is not a JSON object, or the price is not a number;
    - the asset not found: no ["bitcoin"] entry, or an empty one;
    - a missing field;
    - an implausible value: a price [<= 0]. *)
Inductive fetch_failure (x : http_exchange) : error_message -> Prop :=
  | failure_timeout :
      outcome x = NetRaise Timeout ->
      fetch_failure x TimeoutMsg
  | failure_connection :
      outcome x = NetRaise ConnectionError ->
      fetch_failure x ConnectionMsg
  | failure_transport (msg : string) :
      outcome x = NetRaise (RequestException msg) ->
      fetch_failure x (RequestMsg msg)
  | failure_http (status : Z) (content : result value) :
      outcome x = NetResponse {| status_code := status; body := content |} ->
      response_ok status = false ->
      fetch_failure x (HttpMsg None)
  | failure_not_json (status : Z) (msg : string) :
      outcome x = NetResponse {| status_code := status;
                                 body := Raise (JSONDecodeError msg) |} ->
      response_ok status = true ->
      fetch_failure x (RequestMsg msg)
  | failure_bad_json_value (status : Z) (msg : string) :
      outcome x = NetResponse {| status_code := status;
                                 body := Raise (ValueError msg) |} ->
      response_ok status = true ->
      fetch_failure x (ParseMsg msg)
  | failure_decoder (status : Z) (msg : string) :
      outcome x = NetResponse {| status_code := status;
                                 body := Raise (OtherException msg) |} ->
      response_ok status = true ->
      fetch_failure x (UnknownMsg msg)
  | failure_not_object (status : Z) (data : value) :
      outcome x = NetResponse {| status_code := status; body := Ok data |} ->
      response_ok status = true ->
      (forall top, data <> VDict top) ->
      fetch_failure x
        (UnknownMsg ("'" +:+ type_name data +:+ "' object has no attribute 'get'"))
  | failure_not_found (status : Z) (top : gmap string value) :
      outcome x = NetResponse {| status_code := status; body := Ok (VDict top) |} ->
      response_ok status = true ->
      match top !! "bitcoin" with Some b => truthy b = false | None => True end ->
      fetch_failure x (ParseMsg "未找到比特币数据")
  | failure_missing_usd (status : Z) (top d : gmap string value) :
      outcome x = NetResponse {| status_code := status; body := Ok (VDict top) |} ->
      response_ok status = true ->
      top !! "bitcoin" = Some (VDict d) ->
      truthy (VDict d) = true ->
      d !! "usd" = None ->
      fetch_failure x (MissingFieldMsg "usd")
  | failure_missing_change (status : Z) (top d : gmap string value) (usd : value) :
      outcome x = NetResponse {| status_code := status; body := Ok (VDict top) |} ->
      response_ok status = true ->
      top !! "bitcoin" = Some (VDict d) ->
      d !! "usd" = Some usd ->
      d !! "usd_24h_change" = None ->
      fetch_failure x (MissingFieldMsg "usd_24h_change")
  | failure_implausible (status : Z) (top d : gmap string value) (usd change : value)
      (n : number) :
      outcome x = NetResponse {| status_code := status; body := Ok (VDict top) |} ->
      response_ok status = true ->
      top !! "bitcoin" = Some (VDict d) ->
      d !! "usd" = Some usd ->
      d !! "usd_24h_change" = Some change ->
      as_number usd = Some n ->
      py_le n (NInt 0) = true ->
      fetch_failure x ImplausiblePriceMsg
  | failure_bad_price (status : Z) (top d : gmap string value) (usd change : value) :
      outcome x = NetResponse {| status_code := status; body := Ok (VDict top) |} ->
      response_ok status = true ->
      top !! "bitcoin" = Some (VDict d) ->
      d !! "usd" = Some usd ->
      d !! "usd_24h_change" = Some change ->
      as_number usd = None ->
      fetch_failure x
        (UnknownMsg ("'<=' not supported between instances of '" +:+ type_name usd +:+
                     "' and 'int'")).

(** The events of a world in the order they happened. *)
Definition trace (w : world) : list event := rev (ui w).

(** Whether the cached path would serve its stored entry in [w]. *)
Definition fresh (w : world) : bool :=
  match cache w with
  | Some entry => clock w - stored_at entry <? 30
  | None => false
  end.

Definition set_cache (c : option cache_entry) (w : world) : world :=
  {| clock := clock w; requests := requests w; ui := ui w; cache := c |}.

(** The world after a call of [fetch_bitcoin_data] that met the round trip
    [x]. *)
Definition after_fetch (x : http_exchange) (w : world) : world :=
  {| clock := clock w + elapsed x; requests := S (requests w);
     ui := snd (attempt x) ++ ui w; cache := cache w |}.

(** Two worlds that differ at most in their cache. *)
Definition same_but_cache (w1 w2 : world) : Prop :=
  clock w1 = clock w2 /\ requests w1 = requests w2 /\ ui w1 = ui w2.

(** The events of one attempt of the retry path, in the order they happen:
    attempt number [j] (from 0) of [max_retries], meeting request number
    [q]. *)
Definition round_events (net : network) (max_retries : Z) (q j : nat) : list event :=
  StInfoAttempt (Z.of_nat j + 1) max_retries :: rev (snd (attempt (net q))).

(** The events of [count] consecutive attempts, one list per attempt. *)
Fixpoint rounds (net : network) (max_retries : Z) (q j count : nat)
  : list (list event) :=
  match count with
  | O => []
  | S count' =>
      round_events net max_retries q j :: rounds net max_retries (S q) (S j) count'
  end.

(** The lists of [parts] one after the other, with [sep] between every two
    neighbours (and nowhere else). *)
Fixpoint join_with (sep : list event) (parts : list (list event)) : list event :=
  match parts with
  | [] => []
  | [part] => part
  | part :: rest => part ++ sep ++ join_with sep rest
  end.

(** How many [time.sleep] calls a list of events holds. *)
Fixpoint count_sleeps (l : list event) : nat :=
  match l with
  | [] => 0
  | Sleep _ :: rest => S (count_sleeps rest)
  | _ :: rest => count_sleeps rest
  end.

Definition is_sleep (e : event) : bool :=
  match e with
  | Sleep _ => true
  | _ => false
  end.

(* ===================================================================== *)
(** ** binary64 rounding: the notions the error bounds are stated with *)
(* ===================================================================== *)

(** The record after [k] one-bit shifts of [m0]. *)
Definition shifted (m0 : Z) (k : nat) : shr_record :=
  match k with
  | O => Build_shr_record m0 false false
  | S j => Build_shr_record (m0 / 2 ^ Z.of_nat (S j)) (Z.testbit m0 (Z.of_nat j))
             (negb (m0 mod 2 ^ Z.of_nat j =? 0))
  end.

(** The value of a finite float with mantissa [m] and exponent [e], in
    units of [2^-1074]. *)
Definition units (m e : Z) : Z := m * 2 ^ (e + 1074).

(** The units of a float; 0 for what is not finite. *)
Definition float_units (f : spec_float) : Z :=
  match f with
  | S754_finite s m e => cond_Zopp s (units (Zpos m) e)
  | _ => 0
  end.

(** Finite or zero, with an exponent not below the least one. *)
Definition representable (f : spec_float) : bool :=
  match f with
  | S754_finite _ _ e => -1074 <=? e
  | S754_zero _ => true
  | _ => false
  end.

(** What a sum or a difference of two representable floats is: an
    infinity, or a representable float within [2^-53] of the exact result,
    relative to itself. *)
Definition close_to (z : spec_float) (exact : Z) : Prop :=
  match z with
  | S754_infinity _ => True
  | S754_nan => False
  | _ => representable z = true /\
         2 ^ 53 * Z.abs (float_units z - exact) <= Z.abs (float_units z)
  end.

(** Finite or zero. *)
Definition is_finite (f : spec_float) : bool :=
  match f with
  | S754_finite _ _ _ | S754_zero _ => true
  | _ => false
  end.

(** A number a quote can hold: any int, and any float that is a binary64
    value. *)
Definition well_formed (n : number) : bool :=
  match n with
  | NInt _ => true
  | NFloat f => valid_binary prec emax f
  end.

(** The value of a number in units of [2^-1074]; 0 for what is not
    finite. *)
Definition num_units (n : number) : Z :=
  match n with
  | NInt z => units z 0
  | NFloat f => float_units f
  end.

(* ===================================================================== *)
(** ** Sample data *)
(* ===================================================================== *)

Definition num_int (z : Z) : value := VNum (NInt z).
Definition num_dec (n : Z) (d : positive) : value := VNum (NFloat (float_lit n d)).

(** [{"usd": 50000, "usd_24h_change": 3.21, "usd_24h_vol": 1000000,
      "last_updated_at": 1700000000}] *)
Definition quote_a : gmap string value :=
  <["usd" := num_int 50000]>
  (<["usd_24h_change" := num_dec 321 100]>
  (<["usd_24h_vol" := num_int 1000000]>
  (<["last_updated_at" := num_int 1700000000]> ∅))).

(** [{"usd": 61000, "usd_24h_change": -1.5}] *)
Definition quote_b : gmap string value :=
  <["usd" := num_int 61000]> (<["usd_24h_change" := num_dec (-15) 10]> ∅).

(** [{"usd": 50000}]: no ["usd_24h_change"] *)
Definition quote_without_change : gmap string value :=
  <["usd" := num_int 50000]> ∅.

(** [{"usd": 0, "usd_24h_change": 3.21}] *)
Definition quote_zero_price : gmap string value :=
  <["usd" := num_int 0]> (<["usd_24h_change" := num_dec 321 100]> ∅).

(** A 200 response whose body is [{"bitcoin": q}], after one second. *)
Definition respond (q : gmap string value) : http_exchange :=
  {| elapsed := 1;
     outcome := NetResponse {| status_code := 200;
                               body := Ok (VDict (<["bitcoin" := VDict q]> ∅)) |} |}.

(** A request that raises [e] after ten seconds. *)
Definition fail_with (e : exn) : http_exchange :=
  {| elapsed := 10; outcome := NetRaise e |}.

(** The upstream answering the successive requests with the exchanges of
    [xs], then with [last] for ever. *)
Definition script (xs : list http_exchange) (last : http_exchange) : network :=
  fun i => nth i xs last.

(* ===================================================================== *)
(** ** The change line: [format_change] and its widget *)
(* ===================================================================== *)

(** The three branches of [format_change] (lines 106-114), which pick the
    icon and the word of the change line:
    - [Rising]   "🟢", "上涨"
    - [Falling]  "🔴", "下跌"
    - [Level]    "⚪", "持平" *)
Inductive direction := Rising | Falling | Level.

Definition change_direction (change_percent : number) : direction :=
  if py_gt change_percent (NInt 0) then Rising
  else if py_lt change_percent (NInt 0) then Falling
  else Level.

(** The Streamlit call that shows a message. *)
Inductive widget := StSuccess | StErrorBox | StWarning | StInfo.

(** The call that shows the change line in [display_price_info]
    (lines 140-145). *)
Definition change_widget (change_percent : number) : widget :=
  if py_gt change_percent (NInt 0) then StSuccess
  else if py_lt change_percent (NInt 0) then StErrorBox
  else StInfo.

(** The call of each branch of the trend block (lines 181-194), and the
    direction its message words: "上涨", "微涨" for the three rising
    branches, "下跌", "微跌" for the three falling ones, "持平" for the
    last. *)
Definition trend_widget (t : trend) : widget :=
  match t with
  | StrongUp | ModerateUp => StSuccess
  | SlightUp | Flat => StInfo
  | StrongDown | ModerateDown => StErrorBox
  | SlightDown => StWarning
  end.

Definition trend_direction (t : trend) : direction :=
  match t with
  | StrongUp | ModerateUp | SlightUp => Rising
  | StrongDown | ModerateDown | SlightDown => Falling
  | Flat => Level
  end.

(** The branches of the trend block in the order of the change they stand
    for, from the strongest fall to the strongest rise. *)
Definition trend_rank (t : trend) : Z :=
  match t with
  | StrongDown => -3
  | ModerateDown => -2
  | SlightDown => -1
  | Flat => 0
  | SlightUp => 1
  | ModerateUp => 2
  | StrongUp => 3
  end.

(* ===================================================================== *)
(** ** What [display_price_info] reads, and runs of the cached path *)
(* ===================================================================== *)

(** [current_price] and [change_percent] of [display_price_info]
    (lines 125-126): the two fields, or the default 0 for a field the
    payload does not hold. *)
Definition display_inputs (bitcoin_data : value) : result (value * value) :=
  current_price ← py_get bitcoin_data "usd" (VNum (NInt 0));
  change_percent ← py_get bitcoin_data "usd_24h_change" (VNum (NInt 0));
  Ok (current_price, change_percent).

(** Successive calls of the cached path, one per run of the page: before
    each call the time [d] of [delays] passes. *)
Fixpoint cached_calls (net : network) (delays : list Z) (w : world)
  : list (result (option value)) * world :=
  match delays with
  | [] => ([], w)
  | d :: rest =>
      let '(r, w1) := fetch_bitcoin_data_cached net (elapse d w) in
      let '(rs, w2) := cached_calls net rest w1 in
      (r :: rs, w2)
  end.

Definition sum_Z (l : list Z) : Z := fold_right Z.add 0 l.

(* ===================================================================== *)
(** ** [setup_auto_refresh] *)
(* ===================================================================== *)

(** What [setup_auto_refresh] does to the page, in the order it does it. *)
Inductive page_event :=
  | StEmpty                     (* placeholder = st.empty() *)
  | CountdownInfo (seconds : Z) (* with placeholder: st.info(f"⏰ 下次自动刷新: {i}秒") *)
  | PageSleep (seconds : Z)     (* time.sleep(seconds) *)
  | PlaceholderEmpty            (* placeholder.empty() *)
  | StRerun.                    (* st.rerun() *)

(** The page: its clock, the number the placeholder shows (if any), and
    the events so far, NEWEST FIRST. *)
Record page := {
  page_clock : Z;
  placeholder : option Z;
  page_log : list page_event
}.

(** How a function of the page ends: it returns, or [st.rerun()] stops
    the run of the script. *)
Inductive ending := Returns | Reruns.

(** The body of [for i in range(refresh_interval, 0, -1)], from [i] on,
    for the [remaining] values of the range. *)
Fixpoint countdown (remaining : nat) (i : Z) (p : page) : page :=
  match remaining with
  | O => p
  | S remaining' =>
      let shown := {| page_clock := page_clock p; placeholder := Some i;
                      page_log := CountdownInfo i :: page_log p |} in
      let slept := {| page_clock := page_clock shown + 1;
                      placeholder := placeholder shown;
                      page_log := PageSleep 1 :: page_log shown |} in
      countdown remaining' (i - 1) slept
  end.

Definition setup_auto_refresh (refresh_interval : Z) (p : page) : ending * page :=
  if 0 <? refresh_interval then
    let created := {| page_clock := page_clock p; placeholder := None;
                      page_log := StEmpty :: page_log p |} in
    let counted := countdown (Z.to_nat refresh_interval) refresh_interval created in
    (Reruns, {| page_clock := page_clock counted; placeholder := None;
                page_log := StRerun :: PlaceholderEmpty :: page_log counted |})
  else (Returns, p).

(** The values of [range(n, 0, -1)]: [n], [n - 1], ..., 1. *)
Definition range_down (n : Z) : list Z :=
  map (fun k => n - Z.of_nat k) (seq 0 (Z.to_nat n)).

(* ===================================================================== *)
(** ** Formatting: [format_price], [format_change] *)
(* ===================================================================== *)

(** [abs(x)] *)
Definition py_abs (n : number) : number :=
  match n with
  | NInt z => NInt (Z.abs z)
  | NFloat f => NFloat (SFabs f)
  end.

(** The integer nearest to [a / b], for [b > 0]; of two nearest ones, the
    even one. *)
Definition round_half_even (a b : Z) : Z :=
  let q := a / b in
  match 2 * (a mod b) ?= b with
  | Lt => q
  | Gt => q + 1
  | Eq => if Z.even q then q else q + 1
  end.

(** [m * 2^e * 10^digits] as the integer the presentation type [f] prints
    the digits of: the conversion is correctly rounded, ties to even, from
    the exact value of the float. *)
Definition scaled_magnitude (digits : nat) (m : positive) (e : Z) : N :=
  match e with
  | Zneg p => Z.to_N (round_half_even (Zpos m * 10 ^ Z.of_nat digits) (Zpos (2 ^ p)))
  | _ => Z.to_N (Zpos m * 2 ^ e * 10 ^ Z.of_nat digits)
  end.

(** The [count] last decimal digits of [n], in front of [rest]. *)
Fixpoint last_digits (count : nat) (n : N) (rest : string) : string :=
  match count with
  | O => rest
  | S count' =>
      last_digits count' (n / 10)%N (String (pretty_N_char (n mod 10)%N) rest)
  end.

(** The [,] option: a comma after every digit that is followed by a
    positive multiple of three digits. *)
Fixpoint group_thousands (digits : string) : string :=
  match digits with
  | EmptyString => EmptyString
  | String c rest =>
      String c
        (if (0 <? String.length rest)%nat && (String.length rest mod 3 =? 0)%nat
         then String "," (group_thousands rest)
         else group_thousands rest)
  end.

(** The digits of a non-negative number given as [scaled / 10^digits]:
    the integer part (grouped or not), and the point and [digits] decimals
    when [digits] is not 0. *)
Definition fixed_point (grouping : bool) (digits : nat) (scaled : N) : string :=
  let whole := pretty (scaled / 10 ^ N.of_nat digits)%N in
  (if grouping then group_thousands whole else whole) +:+
  match digits with
  | O => EmptyString
  | S _ => String "." (last_digits digits scaled EmptyString)
  end.

Definition sign_text (negative : bool) : string :=
  if negative then "-" else EmptyString.

(** [format(f, ".{digits}f")], with the [,] option when [grouping]. The
    sign is the sign bit of the float, also for a zero and for a value that
    rounds to zero. *)
Definition format_float (grouping : bool) (digits : nat) (f : float) : string :=
  match f with
  | S754_nan => "nan"
  | S754_infinity s => sign_text s +:+ "inf"
  | S754_zero s => sign_text s +:+ fixed_point grouping digits 0
  | S754_finite s m e =>
      sign_text s +:+ fixed_point grouping digits (scaled_magnitude digits m e)
  end.

(** The format specification on a number: an [int] is converted to
    [float] first. *)
Definition py_format_f (grouping : bool) (digits : nat) (n : number) : result string :=
  f ← to_float n; Ok (format_float grouping digits f).

(** [format_price] (lines 100-102): [f"${price:,.2f}"] *)
Definition format_price (price : number) : result string :=
  text ← py_format_f true 2 price;
  Ok ("$" +:+ text).

(** [format_change] (lines 104-116) *)
Definition format_change (change_percent change_amount : number) : result string :=
  let '(color, word) :=
    match change_direction change_percent with
    | Rising => ("🟢", "上涨")
    | Falling => ("🔴", "下跌")
    | Level => ("⚪", "持平")
    end in
  percent ← py_format_f false 2 (py_abs change_percent);
  amount ← py_format_f false 2 (py_abs change_amount);
  Ok (color +:+ " " +:+ word +:+ " " +:+ percent +:+ "% ($" +:+ amount +:+ ")").

(** The call and the text of each branch of the trend block
    (lines 181-194). The rising branches print the change itself, the
    falling ones its absolute value, the last one no number. *)
Definition trend_message (change_percent : number) : result (widget * string) :=
  match trend_analysis change_percent with
  | StrongUp =>
      p ← py_format_f false 2 change_percent;
      Ok (StSuccess, "🚀 强势上涨: 过去24小时大幅上涨 " +:+ p +:+ "%")
  | ModerateUp =>
      p ← py_format_f false 2 change_percent;
      Ok (StSuccess, "📈 稳步上涨: 过去24小时上涨 " +:+ p +:+ "%")
  | SlightUp =>
      p ← py_format_f false 2 change_percent;
      Ok (StInfo, "↗️ 小幅上涨: 过去24小时微涨 " +:+ p +:+ "%")
  | StrongDown =>
      p ← py_format_f false 2 (py_abs change_percent);
      Ok (StErrorBox, "📉 大幅下跌: 过去24小时大幅下跌 " +:+ p +:+ "%")
  | ModerateDown =>
      p ← py_format_f false 2 (py_abs change_percent);
      Ok (StErrorBox, "🔻 明显下跌: 过去24小时下跌 " +:+ p +:+ "%")
  | SlightDown =>
      p ← py_format_f false 2 (py_abs change_percent);
      Ok (StWarning, "↘️ 小幅下跌: 过去24小时微跌 " +:+ p +:+ "%")
  | Flat => Ok (StInfo, "➡️ 价格平稳: 过去24小时价格基本持平")
  end.

(** *** Reading a displayed amount *)

(** The digit a character stands for. *)
Definition digit_value (c : ascii) : option N :=
  let n := N_of_ascii c in
  if (48 <=? n)%N && (n <=? 57)%N then Some (n - 48)%N else None.

(** Reading a numeral: digits, with commas between the digits of the
    integer part and at most one point. The result is the integer the
    digits make and the number of digits after the point. *)
Fixpoint read_digits (s : string) (acc : N) (decimals : option nat) : option (N * nat) :=
  match s with
  | EmptyString => Some (acc, match decimals with Some k => k | None => O end)
  | String c rest =>
      if Ascii.eqb c "," then
        match decimals with
        | None => read_digits rest acc None
        | Some _ => None
        end
      else if Ascii.eqb c "." then
        match decimals with
        | None => read_digits rest acc (Some O)
        | Some _ => None
        end
      else
        match digit_value c with
        | Some d => read_digits rest (10 * acc + d)%N (option_map S decimals)
        | None => None
        end
  end.

Definition read_unsigned (s : string) : option Q :=
  match read_digits s 0%N None with
  | Some (n, k) => Some (Qmake (Z.of_N n) (Z.to_pos (10 ^ Z.of_nat k)))
  | None => None
  end.

(** The number a text such as [-1,234.50] stands for. *)
Definition read_number (s : string) : option Q :=
  match s with
  | String c rest =>
      if Ascii.eqb c "-" then option_map Qopp (read_unsigned rest)
      else read_unsigned s
  | EmptyString => None
  end.

(** The amount a text such as [$1,234.50] stands for. *)
Definition read_price (s : string) : option Q :=
  match s with
  | String c rest => if Ascii.eqb c "$" then read_number rest else None
  | EmptyString => None
  end.

(** *** The shape of a displayed amount *)

Definition is_digit (c : ascii) : bool :=
  match digit_value c with
  | Some _ => true
  | None => false
  end.

(** Groups of a comma and three digits, to the end of the text. *)
Fixpoint comma_groups (s : string) : bool :=
  match s with
  | EmptyString => true
  | String c0 (String c1 (String c2 (String c3 rest))) =>
      Ascii.eqb c0 "," && is_digit c1 && is_digit c2 && is_digit c3 && comma_groups rest
  | _ => false
  end.

(** An integer as the [,] option writes it: one to three digits, then
    groups of a comma and three digits; it starts with 0 only when it is
    ["0"] itself. *)
Definition grouped_integer (s : string) : bool :=
  match s with
  | EmptyString => false
  | String c1 rest1 =>
      is_digit c1 &&
      (negb (Ascii.eqb c1 "0") || String.eqb rest1 EmptyString) &&
      (comma_groups rest1 ||
       match rest1 with
       | String c2 rest2 =>
           is_digit c2 &&
           (comma_groups rest2 ||
            match rest2 with
            | String c3 rest3 => is_digit c3 && comma_groups rest3
            | EmptyString => false
            end)
       | EmptyString => false
       end)
  end.

(** A point and exactly two digits. *)
Definition two_decimals (s : string) : bool :=
  match s with
  | String p (String a (String b EmptyString)) =>
      Ascii.eqb p "." && is_digit a && is_digit b
  | _ => false
  end.

(** The text before the first point, and the text from that point on. *)
Fixpoint split_at_point (s : string) : string * string :=
  match s with
  | EmptyString => (EmptyString, EmptyString)
  | String c rest =>
      if Ascii.eqb c "." then (EmptyString, s)
      else let '(before, after) := split_at_point rest in (String c before, after)
  end.

(** The shape of a price as [format_price] is meant to write it: a dollar
    sign, a minus sign for a negative amount, the integer part with
    thousands separators, a point and two decimals, as in [$-1,234.50]. *)
Definition price_shape (s : string) : bool :=
  match s with
  | String c rest =>
      Ascii.eqb c "$" &&
      let unsigned :=
        match rest with
        | String m rest' => if Ascii.eqb m "-" then rest' else rest
        | EmptyString => rest
        end in
      let '(whole, decimals) := split_at_point unsigned in
      grouped_integer whole && two_decimals decimals
  | EmptyString => false
  end.

(** What follows a digit in [group_thousands]. *)
Definition comma_tail (rest : string) : string :=
  if (0 <? String.length rest)%nat && (String.length rest mod 3 =? 0)%nat
  then String "," (group_thousands rest)
  else group_thousands rest.

(** Whether the character [c] occurs in [s]. *)
Fixpoint has_char (c : ascii) (s : string) : bool :=
  match s with
  | EmptyString => false
  | String c' rest => Ascii.eqb c c' || has_char c rest
  end.

(** Whether [s] is made of decimal digits only. *)
Fixpoint all_digits (s : string) : bool :=
  match s with
  | EmptyString => true
  | String c rest =>
      match digit_value c with
      | Some _ => all_digits rest
      | None => false
      end
  end.

(** [f] is finite and its exact value is the rational [q]. *)
Definition has_value (f : float) (q : Q) : Prop :=
  match float_value f with
  | XFin q0 => (q0 == q)%Q
  | _ => False
  end.

(* ===================================================================== *)
(** ** Properties of the trend analysis *)
(* ===================================================================== *)

Lemma py_gt_fin (n : number) (p : Q) (k : Z) :
  num_value n = XFin p ->
  py_gt n (NInt k) = true <-> (inject_Z k < p)%Q.
Proof.
  intros Hn. unfold py_gt, py_compare. rewrite Hn. simpl.
  destruct (Qcompare p (inject_Z k)) eqn:Hc;
    [apply Qeq_alt in Hc | apply Qlt_alt in Hc | apply Qgt_alt in Hc];
    split; intros X; try discriminate X; try reflexivity; lra.
Qed.

Lemma py_lt_fin (n : number) (p : Q) (k : Z) :
  num_value n = XFin p ->
  py_lt n (NInt k) = true <-> (p < inject_Z k)%Q.
Proof.
  intros Hn. unfold py_lt, py_compare. rewrite Hn. simpl.
  destruct (Qcompare p (inject_Z k)) eqn:Hc;
    [apply Qeq_alt in Hc | apply Qlt_alt in Hc | apply Qgt_alt in Hc];
    split; intros X; try discriminate X; try reflexivity; lra.
Qed.

Lemma trend_analysis_sound (n : number) (p : Q) :
  num_value n = XFin p -> spec_bucket p (trend_analysis n).
Proof.
  intros Hn. unfold trend_analysis.
  pose proof (py_gt_fin n p 5 Hn) as G5.
  pose proof (py_gt_fin n p 2 Hn) as G2.
  pose proof (py_gt_fin n p 0 Hn) as G0.
  pose proof (py_lt_fin n p (-5) Hn) as L5.
  pose proof (py_lt_fin n p (-2) Hn) as L2.
  pose proof (py_lt_fin n p 0 Hn) as L0.
  change (inject_Z 5) with 5%Q in G5. change (inject_Z 2) with 2%Q in G2.
  change (inject_Z 0) with 0%Q in G0, L0.
  change (inject_Z (-5)) with (-5)%Q in L5. change (inject_Z (-2)) with (-2)%Q in L2.
  destruct (py_gt n (NInt 5)); [constructor; apply G5; reflexivity |].
  assert (p <= 5)%Q by (apply Qnot_lt_le; intros X; apply G5 in X; discriminate).
  destruct (py_gt n (NInt 2)); [constructor; [apply G2; reflexivity | assumption] |].
  assert (p <= 2)%Q by (apply Qnot_lt_le; intros X; apply G2 in X; discriminate).
  destruct (py_gt n (NInt 0)); [constructor; [apply G0; reflexivity | assumption] |].
  assert (p <= 0)%Q by (apply Qnot_lt_le; intros X; apply G0 in X; discriminate).
  destruct (py_lt n (NInt (-5))); [constructor; apply L5; reflexivity |].
  assert (-5 <= p)%Q by (apply Qnot_lt_le; intros X; apply L5 in X; discriminate).
  destruct (py_lt n (NInt (-2))); [constructor; [assumption | apply L2; reflexivity] |].
  assert (-2 <= p)%Q by (apply Qnot_lt_le; intros X; apply L2 in X; discriminate).
  destruct (py_lt n (NInt 0)); [constructor; [assumption | apply L0; reflexivity] |].
  assert (0 <= p)%Q by (apply Qnot_lt_le; intros X; apply L0 in X; discriminate).
  constructor. lra.
Qed.

Lemma spec_bucket_functional (p : Q) (b1 b2 : trend) :
  spec_bucket p b1 -> spec_bucket p b2 -> b1 = b2.
Proof.
  intros H1 H2; destruct H1; destruct H2; try reflexivity; exfalso; lra.
Qed.

(** C1. For a change of real value [p], the branch taken by the trend block
    is the bucket the seven-way classification assigns to [p], and no
    other: [p > 5] strong-up, [2 < p <= 5] moderate-up, [0 < p <= 2]
    slight-up, [p == 0] flat, [-2 <= p < 0] slight-down, [-5 <= p < -2]
    moderate-down, [p < -5] strong-down. *)
Theorem trend_analysis_classification (n : number) (p : Q) (b : trend) :
  num_value n = XFin p ->
  spec_bucket p b <-> trend_analysis n = b.
Proof.
  intros Hn. split.
  - intros Hb. apply (spec_bucket_functional p); [| exact Hb].
    apply trend_analysis_sound; exact Hn.
  - intros <-. apply trend_analysis_sound; exact Hn.
Qed.

Lemma trend_analysis_classification_witness :
  (spec_bucket 5 ModerateUp <-> trend_analysis (NInt 5) = ModerateUp) /\
  (spec_bucket (-5) ModerateDown <-> trend_analysis (NInt (-5)) = ModerateDown) /\
  (spec_bucket (5629499534213120 # 1125899906842624) ModerateUp <->
     trend_analysis (NFloat (float_lit 5 1)) = ModerateUp).
Proof.
  split; [| split].
  - apply (trend_analysis_classification (NInt 5) 5 ModerateUp). reflexivity.
  - apply (trend_analysis_classification (NInt (-5)) (-5) ModerateDown). reflexivity.
  - apply (trend_analysis_classification (NFloat (float_lit 5 1))
             (5629499534213120 # 1125899906842624) ModerateUp).
    vm_compute. reflexivity.
Defined.

(** The boundaries themselves, on ints and on floats. *)
Example trend_boundaries :
  trend_analysis (NInt 5) = ModerateUp /\
  trend_analysis (NInt 2) = SlightUp /\
  trend_analysis (NInt 0) = Flat /\
  trend_analysis (NInt (-2)) = SlightDown /\
  trend_analysis (NInt (-5)) = ModerateDown /\
  trend_analysis (NFloat (float_lit 5 1)) = ModerateUp /\
  trend_analysis (NFloat (float_lit 2 1)) = SlightUp /\
  trend_analysis (NFloat (float_lit (-5) 1)) = ModerateDown.
Proof. vm_compute. repeat split. Qed.

(** X2. Outside the reals: an infinite change falls in the outermost buckets,
    and NaN, which no comparison accepts, in the last branch. *)
Lemma trend_analysis_not_real :
  trend_analysis (NFloat (S754_infinity false)) = StrongUp /\
  trend_analysis (NFloat (S754_infinity true)) = StrongDown /\
  trend_analysis (NFloat S754_nan) = Flat.
Proof. repeat split. Qed.

(** Against C9 as stated: at -2.0 the branch taken is slight-down. *)
Lemma trend_minus_two_is_not_moderate_down :
  trend_analysis (NFloat (float_lit (-2) 1)) <> ModerateDown.
Proof. vm_compute. discriminate. Qed.

(** C9, amended. At the boundary values: 5.0 is moderate-up, 5.0001 is
    strong-up, -2.0 is slight-down, 0.0 is flat. *)
Theorem trend_boundary_values :
  trend_analysis (NFloat (float_lit 5 1)) = ModerateUp /\
  trend_analysis (NFloat (float_lit 50001 10000)) = StrongUp /\
  trend_analysis (NFloat (float_lit (-2) 1)) = SlightDown /\
  trend_analysis (NFloat (float_lit 0 1)) = Flat.
Proof. vm_compute. repeat split. Qed.

(* ===================================================================== *)
(** ** One call of [fetch_bitcoin_data] *)
(* ===================================================================== *)

Ltac unfold_M :=
  unfold mbind, M_bind, bind, mret, M_ret, ret, raise, lift, try_except,
    st_error, emit in *.

Lemma fetch_bitcoin_data_run (net : network) (w : world) :
  fetch_bitcoin_data net w =
    (Ok (fst (attempt (net (requests w)))),
     {| clock := clock w + elapsed (net (requests w));
        requests := S (requests w);
        ui := snd (attempt (net (requests w))) ++ ui w;
        cache := cache w |}).
Proof.
  unfold attempt, fetch_bitcoin_data, requests_get; unfold_M; cbn beta.
  destruct (net (requests w)) as [el o].
  destruct o as [e | [status body]]; cbn.
  - reflexivity.
  - unfold raise_for_status, response_json; unfold_M; cbn.
    destruct (response_ok status); [| reflexivity].
    destruct body as [data |]; cbn; [| reflexivity].
    destruct (py_get data "bitcoin" (VDict ∅)) as [bitcoin_data | e]; [| reflexivity].
    destruct (truthy bitcoin_data); cbn; [| reflexivity].
    unfold validate_bitcoin_data; unfold_M; cbn; unfold_M.
    destruct (py_contains "usd" bitcoin_data) as [[|] | e]; cbn; try reflexivity.
    destruct (py_contains "usd_24h_change" bitcoin_data) as [[|] | e]; cbn; try reflexivity.
    destruct (py_getitem bitcoin_data "usd") as [usd | e]; cbn; try reflexivity.
    destruct (py_le_zero usd) as [[|] | e]; cbn; reflexivity.
Qed.

(** A call either returns a true (non-empty) value and reports nothing, or
    returns [None] after exactly one [st.error]. *)
Lemma attempt_shape (x : http_exchange) :
  (exists m, attempt x = (None, [StError m; HttpGet])) \/
  (exists v, attempt x = (Some v, [HttpGet]) /\ truthy v = true).
Proof.
  unfold attempt, fetch_bitcoin_data, requests_get; unfold_M; cbn beta.
  destruct x as [el o].
  destruct o as [e | [status body]]; cbn.
  - left; eexists; reflexivity.
  - unfold raise_for_status, response_json; unfold_M; cbn.
    destruct (response_ok status); [| left; eexists; reflexivity].
    destruct body as [data |]; cbn; [| left; eexists; reflexivity].
    destruct (py_get data "bitcoin" (VDict ∅)) as [bitcoin_data | e];
      [| left; eexists; reflexivity].
    destruct (truthy bitcoin_data) eqn:Htrue; cbn; [| left; eexists; reflexivity].
    unfold validate_bitcoin_data; unfold_M; cbn; unfold_M.
    destruct (py_contains "usd" bitcoin_data) as [[|] | e]; cbn;
      try (left; eexists; reflexivity).
    destruct (py_contains "usd_24h_change" bitcoin_data) as [[|] | e]; cbn;
      try (left; eexists; reflexivity).
    destruct (py_getitem bitcoin_data "usd") as [usd | e]; cbn;
      try (left; eexists; reflexivity).
    destruct (py_le_zero usd) as [[|] | e]; cbn;
      try (left; eexists; reflexivity).
    right. exists bitcoin_data. split; [reflexivity | exact Htrue].
Qed.

Lemma attempt_none (x : http_exchange) :
  fst (attempt x) = None -> exists m, attempt x = (None, [StError m; HttpGet]).
Proof.
  destruct (attempt_shape x) as [[m Hm] | [v [Hv _]]].
  - intros _. exists m. exact Hm.
  - rewrite Hv. discriminate.
Qed.

Lemma attempt_some (x : http_exchange) (v : value) :
  fst (attempt x) = Some v -> attempt x = (Some v, [HttpGet]) /\ truthy v = true.
Proof.
  destruct (attempt_shape x) as [[m Hm] | [v' [Hv Ht]]].
  - rewrite Hm. discriminate.
  - rewrite Hv. cbn. intros [= <-]. split; [reflexivity | exact Ht].
Qed.

(** How the worlds before and after one call are related. *)
Lemma fetch_bitcoin_data_world (net : network) (w : world) :
  let w' := snd (fetch_bitcoin_data net w) in
  cache w' = cache w /\
  requests w' = S (requests w) /\
  clock w' = clock w + elapsed (net (requests w)).
Proof. rewrite fetch_bitcoin_data_run. cbn. repeat split. Qed.

(* ===================================================================== *)
(** ** The validator *)
(* ===================================================================== *)

Lemma py_gt_not_le (a b : number) : py_gt a b = true -> py_le a b = false.
Proof.
  unfold py_gt, py_le. destruct (py_compare a b) as [[| |] |]; congruence.
Qed.

Lemma check_required_dict (d : gmap string value) (usd change : value) (w : world) :
  d !! "usd" = Some usd ->
  d !! "usd_24h_change" = Some change ->
  check_required required_fields (VDict d) w = (Ok true, w).
Proof.
  intros Husd Hchange. unfold required_fields. cbn. unfold_M. cbn.
  rewrite Husd, Hchange. cbn. reflexivity.
Qed.

Lemma dict_truthy (d : gmap string value) (k : string) (v : value) :
  d !! k = Some v -> truthy (VDict d) = true.
Proof.
  intros Hk. cbn. apply negb_true_iff, bool_decide_eq_false.
  intros Hsize. apply map_size_empty_iff in Hsize. subst d.
  rewrite lookup_empty in Hk. discriminate.
Qed.

(** C2. On a payload holding both required fields, with a number under
    ["usd"]: when [usd <= 0] the validator returns [False] after reporting
    the implausible-price error, and a fetch that receives the payload
    returns [None]; when [usd > 0] the validator returns [True], reports
    nothing, and the fetch returns the payload. *)
Theorem validate_bitcoin_data_usd (d : gmap string value) (usd change : value)
    (n : number) :
  d !! "usd" = Some usd ->
  d !! "usd_24h_change" = Some change ->
  as_number usd = Some n ->
  (py_le n (NInt 0) = true ->
     (forall w, validate_bitcoin_data (VDict d) w =
                  (Ok false, record (StError ImplausiblePriceMsg) w)) /\
     (forall el status top,
         response_ok status = true ->
         top !! "bitcoin" = Some (VDict d) ->
         attempt {| elapsed := el;
                    outcome := NetResponse {| status_code := status;
                                              body := Ok (VDict top) |} |} =
           (None, [StError ImplausiblePriceMsg; HttpGet]))) /\
  (py_gt n (NInt 0) = true ->
     (forall w, validate_bitcoin_data (VDict d) w = (Ok true, w)) /\
     (forall el status top,
         response_ok status = true ->
         top !! "bitcoin" = Some (VDict d) ->
         attempt {| elapsed := el;
                    outcome := NetResponse {| status_code := status;
                                              body := Ok (VDict top) |} |} =
           (Some (VDict d), [HttpGet]))).
Proof.
  intros Husd Hchange Hn.
  assert (Hv : forall b, py_le n (NInt 0) = b -> forall w,
             validate_bitcoin_data (VDict d) w =
               if b then (Ok false, record (StError ImplausiblePriceMsg) w)
               else (Ok true, w)).
  { intros b Hb w. unfold validate_bitcoin_data. unfold_M.
    rewrite (check_required_dict d usd change w Husd Hchange). cbn.
    rewrite Husd. unfold py_le_zero. rewrite Hn, Hb.
    destruct b; reflexivity. }
  assert (Ha : forall b, py_le n (NInt 0) = b -> forall el status top,
             response_ok status = true ->
             top !! "bitcoin" = Some (VDict d) ->
             attempt {| elapsed := el;
                        outcome := NetResponse {| status_code := status;
                                                  body := Ok (VDict top) |} |} =
               if b then (None, [StError ImplausiblePriceMsg; HttpGet])
               else (Some (VDict d), [HttpGet])).
  { intros b Hb el status top Hstatus Htop.
    unfold attempt, fetch_bitcoin_data, requests_get; unfold_M;
      cbn -[validate_bitcoin_data truthy].
    unfold raise_for_status, response_json; cbn [status_code body];
      rewrite Hstatus; unfold_M; cbn -[validate_bitcoin_data truthy].
    rewrite Htop. rewrite (dict_truthy d "usd" usd Husd).
    cbn -[validate_bitcoin_data].
    rewrite (Hv b Hb). destruct b; reflexivity. }
  split.
  - intros Hle. split.
    + intros w. exact (Hv true Hle w).
    + intros el status top Hs Ht. exact (Ha true Hle el status top Hs Ht).
  - intros Hgt. apply py_gt_not_le in Hgt. split.
    + intros w. exact (Hv false Hgt w).
    + intros el status top Hs Ht. exact (Ha false Hgt el status top Hs Ht).
Qed.

Lemma validate_bitcoin_data_usd_witness :
  validate_bitcoin_data (VDict quote_zero_price) blank =
    (Ok false, record (StError ImplausiblePriceMsg) blank) /\
  attempt (respond quote_zero_price) = (None, [StError ImplausiblePriceMsg; HttpGet]) /\
  validate_bitcoin_data (VDict quote_a) blank = (Ok true, blank) /\
  attempt (respond quote_a) = (Some (VDict quote_a), [HttpGet]).
Proof.
  pose proof (validate_bitcoin_data_usd quote_zero_price (num_int 0) (num_dec 321 100)
                (NInt 0) eq_refl eq_refl eq_refl) as [Hzero _].
  pose proof (validate_bitcoin_data_usd quote_a (num_int 50000) (num_dec 321 100)
                (NInt 50000) eq_refl eq_refl eq_refl) as [_ Hpos].
  destruct (Hzero eq_refl) as [Hz1 Hz2]. destruct (Hpos eq_refl) as [Hp1 Hp2].
  split; [apply Hz1 |]. split; [apply Hz2; reflexivity |].
  split; [apply Hp1 | apply Hp2; reflexivity].
Defined.

(* ===================================================================== *)
(** ** Failures of one call *)
(* ===================================================================== *)

(** Against C4 as stated: a timeout and a connection error are reported by
    different messages, and both calls return the same [None]; so do a
    payload without ["usd_24h_change"] and one with a zero price. *)
Lemma failure_kind_is_not_returned :
  (let '(r, w) := fetch_bitcoin_data (script [] (fail_with Timeout)) blank in
   r = Ok None /\ ui w = [StError TimeoutMsg; HttpGet]) /\
  (let '(r, w) := fetch_bitcoin_data (script [] (fail_with ConnectionError)) blank in
   r = Ok None /\ ui w = [StError ConnectionMsg; HttpGet]) /\
  fst (fetch_bitcoin_data (script [] (respond quote_without_change)) blank) = Ok None /\
  fst (fetch_bitcoin_data (script [] (respond quote_zero_price)) blank) = Ok None.
Proof. vm_compute. repeat split. Qed.

(** The validator on a JSON object holding both fields, with a number
    under ["usd"]. *)
Lemma validate_bitcoin_data_dict (d : gmap string value) (usd change : value)
    (n : number) (w : world) :
  d !! "usd" = Some usd ->
  d !! "usd_24h_change" = Some change ->
  as_number usd = Some n ->
  validate_bitcoin_data (VDict d) w =
    if py_le n (NInt 0) then (Ok false, record (StError ImplausiblePriceMsg) w)
    else (Ok true, w).
Proof.
  intros Husd Hchange Hn. unfold validate_bitcoin_data. unfold_M.
  rewrite (check_required_dict d usd change w Husd Hchange). cbn.
  rewrite Husd. unfold py_le_zero. rewrite Hn.
  destruct (py_le n (NInt 0)); reflexivity.
Qed.

Lemma attempt_dict (d : gmap string value) (usd change : value) (n : number)
    (el status : Z) (top : gmap string value) :
  d !! "usd" = Some usd ->
  d !! "usd_24h_change" = Some change ->
  as_number usd = Some n ->
  response_ok status = true ->
  top !! "bitcoin" = Some (VDict d) ->
  attempt {| elapsed := el;
             outcome := NetResponse {| status_code := status;
                                       body := Ok (VDict top) |} |} =
    if py_le n (NInt 0) then (None, [StError ImplausiblePriceMsg; HttpGet])
    else (Some (VDict d), [HttpGet]).
Proof.
  intros Husd Hchange Hn Hstatus Htop.
  unfold attempt, fetch_bitcoin_data, requests_get; unfold_M;
    cbn -[validate_bitcoin_data truthy].
  unfold raise_for_status, response_json; cbn [status_code body];
    rewrite Hstatus; unfold_M; cbn -[validate_bitcoin_data truthy].
  rewrite Htop. rewrite (dict_truthy d "usd" usd Husd).
  cbn -[validate_bitcoin_data].
  rewrite (validate_bitcoin_data_dict d usd change n _ Husd Hchange Hn).
  destruct (py_le n (NInt 0)); reflexivity.
Qed.

(** What a call that returns a value has met. *)
Lemma attempt_success (x : http_exchange) (v : value) :
  fst (attempt x) = Some v -> delivers x v.
Proof.
  unfold attempt, fetch_bitcoin_data, requests_get; unfold_M; cbn beta.
  destruct x as [el o].
  destruct o as [e | [status content]]; cbn; [discriminate |].
  unfold raise_for_status, response_json; unfold_M; cbn.
  destruct (response_ok status) eqn:Hok; [| discriminate].
  destruct content as [data |]; cbn; [| discriminate].
  destruct data as [| b | k | s | l | top]; cbn; try discriminate.
  destruct (top !! "bitcoin") as [bitcoin_data |] eqn:Htop; cbn; [| discriminate].
  destruct (truthy bitcoin_data) eqn:Htrue; cbn; [| discriminate].
  unfold validate_bitcoin_data; unfold_M; cbn; unfold_M.
  destruct (py_contains "usd" bitcoin_data) as [[|] | e] eqn:Hc1; cbn; try discriminate.
  destruct (py_contains "usd_24h_change" bitcoin_data) as [[|] | e] eqn:Hc2; cbn;
    try discriminate.
  destruct (py_getitem bitcoin_data "usd") as [usd | e] eqn:Hg; cbn; try discriminate.
  destruct (py_le_zero usd) as [[|] | e] eqn:Hle; cbn; try discriminate.
  intros [= <-].
  destruct bitcoin_data as [| b | k | s | l | d]; cbn in Hg; try discriminate.
  destruct (d !! "usd") as [usd' |] eqn:Husd; [| discriminate].
  injection Hg as ->.
  cbn in Hc2. injection Hc2 as Hc2. apply bool_decide_eq_true in Hc2.
  destruct Hc2 as [change Hchange].
  unfold py_le_zero in Hle. destruct (as_number usd) as [n |] eqn:Hn; [| discriminate].
  injection Hle as Hle.
  exists status, top, d, usd, change, n. repeat apply conj; try reflexivity; assumption.
Qed.

(** The validator on a JSON object whose price is not a number: the
    comparison raises. *)
Lemma validate_bitcoin_data_bad_price (d : gmap string value) (usd change : value)
    (w : world) :
  d !! "usd" = Some usd ->
  d !! "usd_24h_change" = Some change ->
  as_number usd = None ->
  validate_bitcoin_data (VDict d) w =
    (Raise (TypeError ("'<=' not supported between instances of '" +:+ type_name usd +:+
                       "' and 'int'")), w).
Proof.
  intros Husd Hchange Hn. unfold validate_bitcoin_data. unfold_M.
  rewrite (check_required_dict d usd change w Husd Hchange). cbn.
  rewrite Husd. unfold py_le_zero. rewrite Hn. reflexivity.
Qed.

(** A call on a response whose status is no error, reduced to what
    follows [raise_for_status]. *)
Lemma attempt_response (el status : Z) (content : result value) :
  response_ok status = true ->
  attempt {| elapsed := el;
             outcome := NetResponse {| status_code := status; body := content |} |} =
    match
      try_except
        (data ← response_json {| status_code := status; body := content |};
         bitcoin_data ← lift (py_get data "bitcoin" (VDict ∅));
         if negb (truthy bitcoin_data) then raise (ValueError "未找到比特币数据")
         else
           valid ← validate_bitcoin_data bitcoin_data;
           if negb (valid : bool) then ret None else ret (Some bitcoin_data))
        (fun e => st_error (handler e) ;; ret None)
        {| clock := 0 + el; requests := 1; ui := [HttpGet]; cache := None |}
    with
    | (Ok r, w) => (r, ui w)
    | (Raise _, w) => (None, ui w)
    end.
Proof.
  intros Hok.
  unfold attempt, fetch_bitcoin_data, requests_get, raise_for_status; unfold_M.
  cbn [requests blank outcome elapsed clock ui cache status_code]. rewrite Hok.
  reflexivity.
Qed.

(** Each kind of failure: [None], and the one message of the kind. *)
Lemma attempt_failure (x : http_exchange) (m : error_message) :
  fetch_failure x m -> attempt x = (None, [StError m; HttpGet]).
Proof.
  destruct x as [el o].
  intros Hf; inversion Hf as
    [H | H | msg H | status content H Hok
     | status msg H Hok | status msg H Hok | status msg H Hok
     | status data H Hok Hnot
     | status top H Hok Hb | status top d H Hok Htop Htrue Husd
     | status top d usd H Hok Htop Husd Hchange
     | status top d usd change n H Hok Htop Husd Hchange Hn Hle
     | status top d usd change H Hok Htop Husd Hchange Hn];
    cbn [outcome] in H; subst.
  - reflexivity.
  - reflexivity.
  - reflexivity.
  - unfold attempt, fetch_bitcoin_data, requests_get, raise_for_status; unfold_M.
    cbn [requests blank outcome elapsed clock ui cache status_code]. rewrite Hok.
    cbn -[response_ok]. rewrite Hok. reflexivity.
  - rewrite (attempt_response el status _ Hok). reflexivity.
  - rewrite (attempt_response el status _ Hok). reflexivity.
  - rewrite (attempt_response el status _ Hok). reflexivity.
  - rewrite (attempt_response el status _ Hok).
    destruct data as [| b | k | t | l | top]; try reflexivity.
    exfalso. exact (Hnot top eq_refl).
  - rewrite (attempt_response el status _ Hok).
    unfold response_json; unfold_M; cbn -[truthy].
    destruct (top !! "bitcoin") as [b |]; [rewrite Hb |]; reflexivity.
  - rewrite (attempt_response el status _ Hok).
    unfold response_json; unfold_M; cbn -[truthy validate_bitcoin_data].
    rewrite Htop, Htrue.
    unfold validate_bitcoin_data; unfold_M; cbn; unfold_M; cbn.
    rewrite Husd. reflexivity.
  - rewrite (attempt_response el status _ Hok).
    unfold response_json; unfold_M; cbn -[truthy validate_bitcoin_data].
    rewrite Htop, (dict_truthy d "usd" usd Husd).
    unfold validate_bitcoin_data; unfold_M; cbn; unfold_M; cbn.
    rewrite Husd, Hchange. reflexivity.
  - rewrite (attempt_dict d usd change n el status top Husd Hchange Hn Hok Htop), Hle.
    reflexivity.
  - rewrite (attempt_response el status _ Hok).
    unfold response_json; unfold_M; cbn -[truthy validate_bitcoin_data].
    rewrite Htop, (dict_truthy d "usd" usd Husd).
    cbn -[validate_bitcoin_data].
    rewrite (validate_bitcoin_data_bad_price d usd change _ Husd Hchange Hn).
    reflexivity.
Qed.

(** C4, amended. A call of [fetch_bitcoin_data] never raises. For every
    kind of failure (a timeout, a connection error, another transport
    error, an HTTP error status, a malformed payload, the asset not found,
    a missing field, an implausible price) it returns [None], the same
    value for every kind, after exactly one [st.error] call: the kind is in
    that message only. Whenever it returns [None] it has shown one such
    message. When it returns a value, no error was reported and the value
    is the payload the response brought, a non-empty JSON object that
    passed validation: no failure path returns a Quote. *)
Theorem fetch_bitcoin_data_failure_is_none (net : network) (w : world) :
  let x := net (requests w) in
  exists (r : option value) (w' : world),
    fetch_bitcoin_data net w = (Ok r, w') /\
    (forall m, fetch_failure x m ->
       r = None /\ ui w' = StError m :: HttpGet :: ui w) /\
    (r = None -> exists m, ui w' = StError m :: HttpGet :: ui w) /\
    (forall v, r = Some v ->
       delivers x v /\ truthy v = true /\ ui w' = HttpGet :: ui w).
Proof.
  intros x. subst x. rewrite fetch_bitcoin_data_run. eexists. eexists.
  split; [reflexivity |]. cbn [ui]. repeat apply conj.
  - intros m Hf. rewrite (attempt_failure _ m Hf). split; reflexivity.
  - intros Hnone. destruct (attempt_none _ Hnone) as [m Hm].
    exists m. rewrite Hm. reflexivity.
  - intros v Hv. split; [exact (attempt_success _ v Hv) |].
    destruct (attempt_some _ v Hv) as [Ha Ht]. rewrite Ha. split; [exact Ht | reflexivity].
Qed.

(** X3. What each kind of failure makes of a call: always [None], and one
    message. The message of an HTTP error never shows the status code (the
    response of a 4xx or 5xx status is false, so the handler prints
    '未知'). When [response.json()] raises, the clause that catches the
    exception decides: its own [JSONDecodeError] is a [RequestException]
    and is reported as a request error with the decoder's message, a plain
    [ValueError] as a parse error, anything else as an unknown error. A
    missing, empty or otherwise false ["bitcoin"] entry is a parse
    error. *)
Lemma failure_messages :
  (forall el, attempt {| elapsed := el; outcome := NetRaise Timeout |} =
                (None, [StError TimeoutMsg; HttpGet])) /\
  (forall el, attempt {| elapsed := el; outcome := NetRaise ConnectionError |} =
                (None, [StError ConnectionMsg; HttpGet])) /\
  (forall el msg, attempt {| elapsed := el; outcome := NetRaise (RequestException msg) |} =
                    (None, [StError (RequestMsg msg); HttpGet])) /\
  (forall el status content,
     response_ok status = false ->
     attempt {| elapsed := el;
                outcome := NetResponse {| status_code := status; body := content |} |} =
       (None, [StError (HttpMsg None); HttpGet])) /\
  (forall el status msg,
     response_ok status = true ->
     attempt {| elapsed := el;
                outcome := NetResponse {| status_code := status;
                                          body := Raise (JSONDecodeError msg) |} |} =
       (None, [StError (RequestMsg msg); HttpGet])) /\
  (forall el status msg,
     response_ok status = true ->
     attempt {| elapsed := el;
                outcome := NetResponse {| status_code := status;
                                          body := Raise (ValueError msg) |} |} =
       (None, [StError (ParseMsg msg); HttpGet])) /\
  (forall el status msg,
     response_ok status = true ->
     attempt {| elapsed := el;
                outcome := NetResponse {| status_code := status;
                                          body := Raise (OtherException msg) |} |} =
       (None, [StError (UnknownMsg msg); HttpGet])) /\
  (forall el status (top : gmap string value),
     response_ok status = true ->
     top !! "bitcoin" = None ->
     attempt {| elapsed := el;
                outcome := NetResponse {| status_code := status;
                                          body := Ok (VDict top) |} |} =
       (None, [StError (ParseMsg "未找到比特币数据"); HttpGet])) /\
  (forall el status (top : gmap string value) b,
     response_ok status = true ->
     top !! "bitcoin" = Some b ->
     truthy b = false ->
     attempt {| elapsed := el;
                outcome := NetResponse {| status_code := status;
                                          body := Ok (VDict top) |} |} =
       (None, [StError (ParseMsg "未找到比特币数据"); HttpGet])) /\
  truthy (VDict ∅) = false /\
  (forall el status (top d : gmap string value) other,
     response_ok status = true ->
     top !! "bitcoin" = Some (VDict d) ->
     d !! "usd" = None ->
     d !! "usd_24h_change" = Some other ->
     attempt {| elapsed := el;
                outcome := NetResponse {| status_code := status;
                                          body := Ok (VDict top) |} |} =
       (None, [StError (MissingFieldMsg "usd"); HttpGet])) /\
  (forall el status (top d : gmap string value) usd,
     response_ok status = true ->
     top !! "bitcoin" = Some (VDict d) ->
     d !! "usd" = Some usd ->
     d !! "usd_24h_change" = None ->
     attempt {| elapsed := el;
                outcome := NetResponse {| status_code := status;
                                          body := Ok (VDict top) |} |} =
       (None, [StError (MissingFieldMsg "usd_24h_change"); HttpGet])).
Proof.
  repeat apply conj.
  - intros el. apply attempt_failure. apply failure_timeout. reflexivity.
  - intros el. apply attempt_failure. apply failure_connection. reflexivity.
  - intros el msg. apply attempt_failure. apply failure_transport. reflexivity.
  - intros el status content Hok. apply attempt_failure.
    eapply failure_http; [reflexivity | exact Hok].
  - intros el status msg Hok. apply attempt_failure.
    eapply failure_not_json; [reflexivity | exact Hok].
  - intros el status msg Hok. apply attempt_failure.
    eapply failure_bad_json_value; [reflexivity | exact Hok].
  - intros el status msg Hok. apply attempt_failure.
    eapply failure_decoder; [reflexivity | exact Hok].
  - intros el status top Hok Htop. apply attempt_failure.
    eapply failure_not_found; [reflexivity | exact Hok |]. rewrite Htop. exact I.
  - intros el status top b Hok Htop Hb. apply attempt_failure.
    eapply failure_not_found; [reflexivity | exact Hok |]. rewrite Htop. exact Hb.
  - reflexivity.
  - intros el status top d other Hok Htop Husd Hchange. apply attempt_failure.
    eapply failure_missing_usd; [reflexivity | exact Hok | exact Htop | | exact Husd].
    exact (dict_truthy d "usd_24h_change" other Hchange).
  - intros el status top d usd Hok Htop Husd Hchange. apply attempt_failure.
    eapply failure_missing_change; [reflexivity | exact Hok | exact Htop | exact Husd
                                   | exact Hchange].
Qed.

(* ===================================================================== *)
(** ** The cached path *)
(* ===================================================================== *)

Lemma st_errors_since_app (evs before : list event) :
  st_errors_since before (evs ++ before) =
    omap (fun e => match e with StError m => Some m | _ => None end) evs.
Proof.
  unfold st_errors_since. rewrite length_app, Nat.add_sub.
  rewrite take_app_length. reflexivity.
Qed.

(** A hit: the stored value, no request, the stored messages replayed. *)
Lemma cached_hit (net : network) (w : world) (entry : cache_entry) :
  cache w = Some entry ->
  fresh w = true ->
  fetch_bitcoin_data_cached net w =
    (Ok (stored_value entry),
     {| clock := clock w; requests := requests w;
        ui := map StError (stored_msgs entry) ++ ui w; cache := cache w |}).
Proof.
  intros Hc Hf. unfold fresh in Hf. rewrite Hc in Hf.
  unfold fetch_bitcoin_data_cached, cache_data. rewrite Hc, Hf.
  unfold replay; unfold_M; cbn. rewrite Hc. reflexivity.
Qed.

(** A miss: one request, and what it returned is stored. *)
Lemma cached_miss (net : network) (w : world) :
  fresh w = false ->
  fetch_bitcoin_data_cached net w =
    let x := net (requests w) in
    (Ok (fst (attempt x)),
     {| clock := clock w + elapsed x; requests := S (requests w);
        ui := snd (attempt x) ++ ui w;
        cache := Some {| stored_at := clock w + elapsed x;
                         stored_value := fst (attempt x);
                         stored_msgs :=
                           omap (fun e => match e with StError m => Some m | _ => None end)
                                (snd (attempt x)) |} |}).
Proof.
  intros Hf. unfold fresh in Hf.
  unfold fetch_bitcoin_data_cached, cache_data.
  rewrite fetch_bitcoin_data_run. cbn [clock requests ui cache].
  rewrite st_errors_since_app.
  destruct (cache w) as [entry |]; [rewrite Hf |]; reflexivity.
Qed.

Lemma attempt_some_msgs (x : http_exchange) (v : value) :
  fst (attempt x) = Some v ->
  omap (fun e => match e with StError m => Some m | _ => None end) (snd (attempt x)) = [].
Proof.
  intros Hv. apply attempt_some in Hv as [Hv _]. rewrite Hv. reflexivity.
Qed.

(** C5. When a call of the cached path fetches (no entry, or an expired
    one) and the fetch succeeds with [v], a second call of the cached path
    less than 30 seconds later returns the same [v], leaves the world as it
    is, and issues no request: the pair costs exactly one request. *)
Theorem cached_pair_one_request (net : network) (w w1 : world) (v : value) (d : Z) :
  fresh w = false ->
  fetch_bitcoin_data_cached net w = (Ok (Some v), w1) ->
  d < 30 ->
  fetch_bitcoin_data_cached net (elapse d w1) = (Ok (Some v), elapse d w1) /\
  requests w1 = S (requests w).
Proof.
  intros Hmiss Hfirst Hd.
  rewrite (cached_miss net w Hmiss) in Hfirst. cbn zeta in Hfirst.
  injection Hfirst as Hv Hw1. subst w1.
  split; [| reflexivity].
  rewrite (attempt_some_msgs _ v Hv), Hv.
  erewrite cached_hit; [| reflexivity |].
  - reflexivity.
  - unfold fresh, elapse; cbn. apply Z.ltb_lt. lia.
Qed.

Lemma cached_pair_one_request_witness :
  let net := script [respond quote_a] (fail_with Timeout) in
  let w1 := snd (fetch_bitcoin_data_cached net blank) in
  fetch_bitcoin_data_cached net (elapse 29 w1) = (Ok (Some (VDict quote_a)), elapse 29 w1) /\
  requests w1 = 1%nat.
Proof.
  intros net w1.
  apply (cached_pair_one_request net blank w1 (VDict quote_a) 29);
    [reflexivity | vm_compute; reflexivity | lia].
Defined.

(* ===================================================================== *)
(** ** The retry path *)
(* ===================================================================== *)

Lemma fetch_bitcoin_data_after (net : network) (w : world) :
  fetch_bitcoin_data net w =
    (Ok (fst (attempt (net (requests w)))), after_fetch (net (requests w)) w).
Proof. apply fetch_bitcoin_data_run. Qed.

Lemma truthy_opt_attempt (x : http_exchange) :
  truthy_opt (fst (attempt x)) = match fst (attempt x) with Some _ => true | None => false end.
Proof.
  destruct (attempt_shape x) as [[m Hm] | [v [Hv Ht]]].
  - rewrite Hm. reflexivity.
  - rewrite Hv. cbn. exact Ht.
Qed.

(** One turn of the loop. *)
Lemma retry_loop_step (net : network) (remaining : nat) (a max_retries : Z) (w : world) :
  retry_loop net (S remaining) a max_retries w =
    let x := net (requests w) in
    let w1 := after_fetch x (record (StInfoAttempt (a + 1) max_retries) w) in
    match fst (attempt x) with
    | Some v => (Ok (Some v), w1)
    | None =>
        retry_loop net remaining (a + 1) max_retries
          (if a <? max_retries - 1 then after_sleep 2 w1 else w1)
    end.
Proof.
  cbn [retry_loop]. unfold_M. cbn beta iota.
  rewrite fetch_bitcoin_data_after. cbn [requests record].
  rewrite truthy_opt_attempt.
  destruct (fst (attempt (net (requests w)))) as [v |]; [reflexivity |].
  destruct (a <? max_retries - 1); reflexivity.
Qed.

Lemma trace_record (e : event) (w : world) : trace (record e w) = trace w ++ [e].
Proof. reflexivity. Qed.

Lemma trace_after_sleep (s : Z) (w : world) : trace (after_sleep s w) = trace w ++ [Sleep s].
Proof. reflexivity. Qed.

Lemma trace_after_fetch (x : http_exchange) (w : world) :
  trace (after_fetch x w) = trace w ++ rev (snd (attempt x)).
Proof. unfold trace, after_fetch; cbn. apply rev_app_distr. Qed.

(** The loop from attempt [a] on, with [remaining] attempts left, when
    they all fail. *)
Lemma retry_loop_all_fail (net : network) (remaining : nat) :
  forall (a : nat) (w : world),
    (forall i, (i < remaining)%nat -> fst (attempt (net (requests w + i)%nat)) = None) ->
    let max_retries := Z.of_nat (a + remaining) in
    let '(r, w') := retry_loop net remaining (Z.of_nat a) max_retries w in
    r = Ok None /\
    requests w' = (requests w + remaining)%nat /\
    cache w' = cache w /\
    trace w' = trace w ++ join_with [Sleep 2] (rounds net max_retries (requests w) a remaining).
Proof.
  induction remaining as [| remaining IH]; intros a w Hfail max_retries.
  - cbn. rewrite Nat.add_0_r, app_nil_r. repeat split.
  - rewrite retry_loop_step. cbn zeta.
    pose proof (Hfail 0%nat ltac:(lia)) as H0. rewrite Nat.add_0_r in H0. rewrite H0.
    set (w1 := after_fetch (net (requests w)) (record (StInfoAttempt (Z.of_nat a + 1) max_retries) w)).
    set (w2 := if Z.of_nat a <? max_retries - 1 then after_sleep 2 w1 else w1).
    assert (Hreq : requests w2 = S (requests w)).
    { unfold w2. destruct (Z.of_nat a <? max_retries - 1); reflexivity. }
    assert (Hcache : cache w2 = cache w).
    { unfold w2. destruct (Z.of_nat a <? max_retries - 1); reflexivity. }
    specialize (IH (S a) w2).
    replace (Z.of_nat (S a)) with (Z.of_nat a + 1) in IH by lia.
    replace (Z.of_nat (S a + remaining)) with max_retries in IH by (unfold max_retries; lia).
    cbn zeta in IH.
    destruct (retry_loop net remaining (Z.of_nat a + 1) max_retries w2) as [r w'].
    destruct IH as (Hr & Hq & Hc & Ht).
    { intros i Hi. rewrite Hreq. replace (S (requests w) + i)%nat with (requests w + S i)%nat by lia.
      apply Hfail. lia. }
    split; [exact Hr |]. split; [lia |]. split; [congruence |].
    rewrite Ht, Hreq.
    assert (Htr1 : trace w1 = trace w ++ round_events net max_retries (requests w) a).
    { unfold w1. rewrite trace_after_fetch, trace_record. unfold round_events.
      rewrite <- app_assoc. reflexivity. }
    destruct remaining as [| remaining'].
    + (* the last attempt: no sleep *)
      assert (Hlast : (Z.of_nat a <? max_retries - 1) = false).
      { apply Z.ltb_ge. unfold max_retries. lia. }
      unfold w2. rewrite Hlast, Htr1. cbn. rewrite app_nil_r. reflexivity.
    + assert (Hmore : (Z.of_nat a <? max_retries - 1) = true).
      { apply Z.ltb_lt. unfold max_retries. lia. }
      unfold w2. rewrite Hmore, trace_after_sleep, Htr1.
      cbn [rounds join_with]. rewrite <- !app_assoc. reflexivity.
Qed.

(** The loop when attempt [k] of the remaining ones is the first to
    succeed. *)
Lemma retry_loop_first_success (net : network) (k : nat) :
  forall (remaining a : nat) (w : world) (v : value),
    (k < remaining)%nat ->
    (forall i, (i < k)%nat -> fst (attempt (net (requests w + i)%nat)) = None) ->
    fst (attempt (net (requests w + k)%nat)) = Some v ->
    let max_retries := Z.of_nat (a + remaining) in
    let '(r, w') := retry_loop net remaining (Z.of_nat a) max_retries w in
    r = Ok (Some v) /\
    requests w' = (requests w + S k)%nat /\
    cache w' = cache w /\
    trace w' = trace w ++ join_with [Sleep 2] (rounds net max_retries (requests w) a (S k)).
Proof.
  induction k as [| k IH]; intros remaining a w v Hk Hfail Hok max_retries;
    (destruct remaining as [| remaining]; [lia |]);
    rewrite retry_loop_step; cbn zeta.
  - rewrite Nat.add_0_r in Hok. rewrite Hok.
    split; [reflexivity |]. split; [cbn; lia |]. split; [reflexivity |].
    rewrite trace_after_fetch, trace_record. cbn [rounds join_with].
    unfold round_events. rewrite <- app_assoc. reflexivity.
  - pose proof (Hfail 0%nat ltac:(lia)) as H0. rewrite Nat.add_0_r in H0. rewrite H0.
    assert (Hmore : (Z.of_nat a <? max_retries - 1) = true).
    { apply Z.ltb_lt. unfold max_retries. lia. }
    rewrite Hmore.
    set (w2 := after_sleep 2 (after_fetch (net (requests w))
                 (record (StInfoAttempt (Z.of_nat a + 1) max_retries) w))).
    specialize (IH remaining (S a) w2 v).
    replace (Z.of_nat (S a)) with (Z.of_nat a + 1) in IH by lia.
    replace (Z.of_nat (S a + remaining)) with max_retries in IH by (unfold max_retries; lia).
    cbn zeta in IH.
    destruct (retry_loop net remaining (Z.of_nat a + 1) max_retries w2) as [r w'].
    destruct IH as (Hr & Hq & Hc & Ht).
    { lia. }
    { intros i Hi. change (requests w2) with (S (requests w)).
      replace (S (requests w) + i)%nat with (requests w + S i)%nat by lia.
      apply Hfail. lia. }
    { change (requests w2) with (S (requests w)).
      replace (S (requests w) + k)%nat with (requests w + S k)%nat by lia. exact Hok. }
    split; [exact Hr |].
    split; [rewrite Hq; change (requests w2) with (S (requests w)); lia |].
    split; [rewrite Hc; reflexivity |].
    rewrite Ht. change (requests w2) with (S (requests w)).
    unfold w2. rewrite trace_after_sleep, trace_after_fetch, trace_record.
    cbn [rounds join_with]. unfold round_events at 2.
    rewrite <- !app_assoc. reflexivity.
Qed.

(** The retry path never touches the cache. *)
Lemma retry_loop_cache (net : network) (remaining : nat) :
  forall (a max_retries : Z) (w : world),
    cache (snd (retry_loop net remaining a max_retries w)) = cache w.
Proof.
  induction remaining as [| remaining IH]; intros a max_retries w; [reflexivity |].
  rewrite retry_loop_step. cbn zeta.
  destruct (fst (attempt (net (requests w)))); [reflexivity |].
  rewrite IH. destruct (a <? max_retries - 1); reflexivity.
Qed.

(** The retry path never reads the cache either. *)
Lemma retry_loop_ignores_cache (net : network) (remaining : nat) :
  forall (a max_retries : Z) (w1 w2 : world),
    same_but_cache w1 w2 ->
    fst (retry_loop net remaining a max_retries w1) =
      fst (retry_loop net remaining a max_retries w2) /\
    same_but_cache (snd (retry_loop net remaining a max_retries w1))
                   (snd (retry_loop net remaining a max_retries w2)).
Proof.
  induction remaining as [| remaining IH]; intros a max_retries w1 w2 Hsame.
  - split; [reflexivity | exact Hsame].
  - rewrite !retry_loop_step. cbn zeta.
    destruct Hsame as (Hclock & Hreq & Hui). rewrite Hreq.
    destruct (fst (attempt (net (requests w2)))).
    + split; [reflexivity |]. unfold same_but_cache; cbn. rewrite Hclock, Hreq, Hui. repeat split.
    + apply IH. destruct (a <? max_retries - 1); unfold same_but_cache; cbn;
        rewrite Hclock, Hreq, Hui; repeat split.
Qed.

(** Against C3 as stated: the return value of the retry path does not tell
    the error of the third attempt: three timeouts, and two timeouts followed by a
    connection error, both return [None]. *)
Lemma retry_returns_none_not_the_last_error :
  let net1 := script [] (fail_with Timeout) in
  let net2 := script [fail_with Timeout; fail_with Timeout] (fail_with ConnectionError) in
  fst (fetch_bitcoin_data_with_retry net1 3 blank) = Ok None /\
  fst (fetch_bitcoin_data_with_retry net2 3 blank) = Ok None /\
  snd (attempt (net1 2%nat)) = [StError TimeoutMsg; HttpGet] /\
  snd (attempt (net2 2%nat)) = [StError ConnectionMsg; HttpGet].
Proof. vm_compute. repeat split. Qed.

(** C3, amended. With [max_retries = n] (3 by default):
    - when each of the [n] attempts fails, the retry path issues exactly
      [n] requests and returns [None]; the error of an attempt is reported
      by [st.error] during the attempt and is not returned;
    - when attempt [k] is the first to succeed, the retry path returns its
      value and issues exactly [k + 1] requests;
    - in both cases the events are those of the attempts made, with one
      [time.sleep(2)] between every two consecutive attempts and none
      after the last. *)
Theorem fetch_bitcoin_data_with_retry_attempts (net : network) (n : nat) (w : world) :
  let max_retries := Z.of_nat n in
  let r := fst (fetch_bitcoin_data_with_retry net max_retries w) in
  let w' := snd (fetch_bitcoin_data_with_retry net max_retries w) in
  ((forall i, (i < n)%nat -> fst (attempt (net (requests w + i)%nat)) = None) ->
     r = Ok None /\
     requests w' = (requests w + n)%nat /\
     trace w' = trace w ++ join_with [Sleep 2] (rounds net max_retries (requests w) 0 n)) /\
  (forall (k : nat) (v : value),
     (k < n)%nat ->
     (forall i, (i < k)%nat -> fst (attempt (net (requests w + i)%nat)) = None) ->
     fst (attempt (net (requests w + k)%nat)) = Some v ->
     r = Ok (Some v) /\
     requests w' = (requests w + S k)%nat /\
     trace w' = trace w ++ join_with [Sleep 2] (rounds net max_retries (requests w) 0 (S k))).
Proof.
  intros max_retries r w'. unfold r, w', fetch_bitcoin_data_with_retry, max_retries.
  rewrite Nat2Z.id. split.
  - intros Hfail.
    pose proof (retry_loop_all_fail net n 0%nat w Hfail) as H. cbn zeta in H.
    change (Z.of_nat 0) with 0 in H. rewrite Nat.add_0_l in H.
    destruct (retry_loop net n 0 (Z.of_nat n) w) as [r0 w0].
    destruct H as (Hr & Hq & _ & Ht). cbn. repeat split; assumption.
  - intros k v Hk Hfail Hok.
    pose proof (retry_loop_first_success net k n 0%nat w v Hk Hfail Hok) as H. cbn zeta in H.
    change (Z.of_nat 0) with 0 in H. rewrite Nat.add_0_l in H.
    destruct (retry_loop net n 0 (Z.of_nat n) w) as [r0 w0].
    destruct H as (Hr & Hq & _ & Ht). cbn. repeat split; assumption.
Qed.

Lemma fetch_bitcoin_data_with_retry_attempts_witness :
  (let net := script [] (fail_with Timeout) in
   let w' := snd (fetch_bitcoin_data_with_retry net 3 blank) in
   fst (fetch_bitcoin_data_with_retry net 3 blank) = Ok None /\
   requests w' = 3%nat /\
   trace w' = [StInfoAttempt 1 3; HttpGet; StError TimeoutMsg; Sleep 2;
               StInfoAttempt 2 3; HttpGet; StError TimeoutMsg; Sleep 2;
               StInfoAttempt 3 3; HttpGet; StError TimeoutMsg]) /\
  (let net := script [fail_with Timeout; fail_with Timeout] (respond quote_b) in
   let w' := snd (fetch_bitcoin_data_with_retry net 3 blank) in
   fst (fetch_bitcoin_data_with_retry net 3 blank) = Ok (Some (VDict quote_b)) /\
   requests w' = 3%nat /\
   trace w' = [StInfoAttempt 1 3; HttpGet; StError TimeoutMsg; Sleep 2;
               StInfoAttempt 2 3; HttpGet; StError TimeoutMsg; Sleep 2;
               StInfoAttempt 3 3; HttpGet]) /\
  (let net := script [respond quote_a] (fail_with Timeout) in
   let w' := snd (fetch_bitcoin_data_with_retry net 3 blank) in
   fst (fetch_bitcoin_data_with_retry net 3 blank) = Ok (Some (VDict quote_a)) /\
   requests w' = 1%nat /\
   trace w' = [StInfoAttempt 1 3; HttpGet]).
Proof.
  split; [| split].
  - intros net w'.
    apply (proj1 (fetch_bitcoin_data_with_retry_attempts net 3 blank)).
    intros i _. destruct i as [| [| [| i]]]; reflexivity.
  - intros net w'.
    apply (proj2 (fetch_bitcoin_data_with_retry_attempts net 3 blank) 2%nat (VDict quote_b)).
    + lia.
    + intros i Hi. destruct i as [| [| i]]; [reflexivity | reflexivity | lia].
    + reflexivity.
  - intros net w'.
    apply (proj2 (fetch_bitcoin_data_with_retry_attempts net 3 blank) 0%nat (VDict quote_a)).
    + lia.
    + intros i Hi. lia.
    + reflexivity.
Defined.

Lemma retry_loop_requests (net : network) (remaining : nat) :
  forall (a max_retries : Z) (w : world),
    (requests w <= requests (snd (retry_loop net remaining a max_retries w)))%nat.
Proof.
  induction remaining as [| remaining IH]; intros a max_retries w; [reflexivity |].
  rewrite retry_loop_step. cbn zeta.
  destruct (fst (attempt (net (requests w)))); [cbn; lia |].
  etransitivity; [| apply IH].
  destruct (a <? max_retries - 1); cbn; lia.
Qed.

Lemma count_sleeps_app (l1 l2 : list event) :
  count_sleeps (l1 ++ l2) = (count_sleeps l1 + count_sleeps l2)%nat.
Proof.
  induction l1 as [| e l1 IH]; [reflexivity |].
  destruct e; cbn; rewrite IH; reflexivity.
Qed.

Lemma round_events_shape (net : network) (max_retries : Z) (q j : nat) :
  exists evs e, round_events net max_retries q j = evs ++ [e] /\
                count_sleeps (evs ++ [e]) = 0%nat /\ is_sleep e = false.
Proof.
  unfold round_events.
  destruct (attempt_shape (net q)) as [[m Hm] | [v [Hv _]]].
  - rewrite Hm. exists [StInfoAttempt (Z.of_nat j + 1) max_retries; HttpGet], (StError m).
    repeat split.
  - rewrite Hv. exists [StInfoAttempt (Z.of_nat j + 1) max_retries], HttpGet.
    repeat split.
Qed.

(** In the events of [count >= 1] attempts joined by sleeps there are
    [count - 1] sleeps, and the last event is not one of them. *)
Lemma joined_rounds_sleeps (net : network) (max_retries : Z) (count : nat) :
  forall q j,
    count_sleeps (join_with [Sleep 2] (rounds net max_retries q j (S count))) = count /\
    exists evs e,
      join_with [Sleep 2] (rounds net max_retries q j (S count)) = evs ++ [e] /\
      is_sleep e = false.
Proof.
  induction count as [| count IH]; intros q j.
  - cbn [rounds join_with].
    destruct (round_events_shape net max_retries q j) as (evs & e & -> & Hc & He).
    split; [exact Hc |]. exists evs, e. split; [reflexivity | exact He].
  - destruct (IH (S q) (S j)) as (Hc & evs & e & Hj & He).
    change (rounds net max_retries q j (S (S count)))
      with (round_events net max_retries q j :: rounds net max_retries (S q) (S j) (S count)).
    assert (Hcons : join_with [Sleep 2]
                      (round_events net max_retries q j
                       :: rounds net max_retries (S q) (S j) (S count)) =
                    round_events net max_retries q j ++ [Sleep 2] ++
                    join_with [Sleep 2] (rounds net max_retries (S q) (S j) (S count))).
    { reflexivity. }
    rewrite Hcons. split.
    + rewrite !count_sleeps_app, Hc.
      destruct (round_events_shape net max_retries q j) as (evs0 & e0 & -> & Hc0 & _).
      rewrite Hc0. reflexivity.
    + exists (round_events net max_retries q j ++ [Sleep 2] ++ evs), e.
      split; [| exact He]. rewrite Hj, <- !app_assoc. reflexivity.
Qed.

(** X4. The retry path sleeps between attempts only: when it makes [k + 1]
    attempts (the last one the first success, or the last of the range),
    it sleeps [k] times, and what it does last is not a sleep. *)
Lemma retry_sleeps_between_attempts (net : network) (n k : nat) (w : world) :
  (k < n)%nat ->
  (forall i, (i < k)%nat -> fst (attempt (net (requests w + i)%nat)) = None) ->
  (fst (attempt (net (requests w + k)%nat)) = None -> S k = n) ->
  let w' := snd (fetch_bitcoin_data_with_retry net (Z.of_nat n) w) in
  requests w' = (requests w + S k)%nat /\
  exists evs e,
    trace w' = trace w ++ evs ++ [e] /\
    count_sleeps (evs ++ [e]) = k /\ is_sleep e = false.
Proof.
  intros Hk Hfail Hlast w'. subst w'. unfold fetch_bitcoin_data_with_retry.
  rewrite Nat2Z.id.
  assert (Hshape :
    let '(r, w1) := retry_loop net n 0 (Z.of_nat n) w in
    requests w1 = (requests w + S k)%nat /\
    trace w1 = trace w ++ join_with [Sleep 2] (rounds net (Z.of_nat n) (requests w) 0 (S k))).
  { destruct (fst (attempt (net (requests w + k)%nat))) as [v |] eqn:Hv.
    - pose proof (retry_loop_first_success net k n 0%nat w v Hk Hfail Hv) as H.
      cbn zeta in H. change (Z.of_nat 0) with 0 in H. rewrite Nat.add_0_l in H.
      destruct (retry_loop net n 0 (Z.of_nat n) w) as [r w1].
      destruct H as (_ & Hq & _ & Ht). split; assumption.
    - specialize (Hlast eq_refl). subst n.
      pose proof (retry_loop_all_fail net (S k) 0%nat w) as H.
      cbn zeta in H. change (Z.of_nat 0) with 0 in H. rewrite Nat.add_0_l in H.
      destruct (retry_loop net (S k) 0 (Z.of_nat (S k)) w) as [r w1].
      destruct H as (_ & Hq & _ & Ht).
      { intros i Hi. destruct (Nat.eq_dec i k) as [-> | Hne]; [exact Hv |].
        apply Hfail. lia. }
      split; assumption. }
  destruct (retry_loop net n 0 (Z.of_nat n) w) as [r w1]. cbn [snd].
  destruct Hshape as [Hq Ht]. split; [exact Hq |].
  destruct (joined_rounds_sleeps net (Z.of_nat n) k (requests w) 0%nat)
    as (Hc & evs & e & Hj & He).
  exists evs, e. rewrite Ht, Hj. rewrite <- Hj. repeat split; assumption.
Qed.

Lemma retry_sleeps_between_attempts_witness :
  let net := script [fail_with Timeout; fail_with Timeout] (respond quote_b) in
  let w' := snd (fetch_bitcoin_data_with_retry net 3 blank) in
  requests w' = 3%nat /\
  exists evs e,
    trace w' = trace blank ++ evs ++ [e] /\
    count_sleeps (evs ++ [e]) = 2%nat /\ is_sleep e = false.
Proof.
  intros net w'.
  apply (retry_sleeps_between_attempts net 3 2 blank).
  - lia.
  - intros i Hi. destruct i as [| [| i]]; [reflexivity | reflexivity | lia].
  - intros H. vm_compute in H. discriminate H.
Defined.

(* ===================================================================== *)
(** ** The cache and the two paths *)
(* ===================================================================== *)

(** C6. The code at the failing input: a failed fetch of the cached path
    is stored, and served again. With an empty cache and an upstream whose
    first answer lacks ["usd_24h_change"], the call returns [None] and
    stores it; ten seconds later (the rerun that the retry-now button of
    [display_error_state] asks for) the cached path returns the stored
    [None] without a request, although the upstream would now answer with
    a good quote. With an expired good entry and a failing upstream, the
    entry is replaced by the stored failure. *)
Lemma failed_fetch_is_stored :
  (let net := script [respond quote_without_change] (respond quote_a) in
   let w1 := snd (fetch_bitcoin_data_cached net blank) in
   let w2 := snd (fetch_bitcoin_data_cached net (elapse 10 w1)) in
   fst (fetch_bitcoin_data_cached net blank) = Ok None /\
   cache w1 = Some {| stored_at := 1; stored_value := None;
                      stored_msgs := [MissingFieldMsg "usd_24h_change"] |} /\
   fst (fetch_bitcoin_data_cached net (elapse 10 w1)) = Ok None /\
   requests w2 = 1%nat) /\
  (let net := script [] (fail_with Timeout) in
   let good := {| stored_at := 0; stored_value := Some (VDict quote_a); stored_msgs := [] |} in
   let w := elapse 40 (set_cache (Some good) blank) in
   cache (snd (fetch_bitcoin_data_cached net w)) =
     Some {| stored_at := 50; stored_value := None; stored_msgs := [TimeoutMsg] |}).
Proof. vm_compute. repeat split. Qed.

(** What the store of the cached path holds after a call, in general. An
    entry that has not expired stays: the cached path returns it without a
    request and leaves the cache as it is, and the retry path never writes
    the cache. A fetch of the cached path that fails is stored like any
    result: [None] becomes the entry, stamped with the time of the fetch,
    in place of the expired entry if there was one. *)
Theorem cache_after_failure (net : network) (w : world) :
  (fresh w = true ->
     cache (snd (fetch_bitcoin_data_cached net w)) = cache w /\
     requests (snd (fetch_bitcoin_data_cached net w)) = requests w /\
     exists entry, cache w = Some entry /\
                   fst (fetch_bitcoin_data_cached net w) = Ok (stored_value entry)) /\
  (forall max_retries,
     cache (snd (fetch_bitcoin_data_with_retry net max_retries w)) = cache w) /\
  (fresh w = false ->
     fst (attempt (net (requests w))) = None ->
     exists m,
       fst (fetch_bitcoin_data_cached net w) = Ok None /\
       cache (snd (fetch_bitcoin_data_cached net w)) =
         Some {| stored_at := clock w + elapsed (net (requests w));
                 stored_value := None;
                 stored_msgs := [m] |}).
Proof.
  split; [| split].
  - intros Hfresh.
    destruct (cache w) as [entry |] eqn:Hc.
    + rewrite (cached_hit net w entry Hc Hfresh). cbn.
      repeat split; [exact Hc |]. exists entry. split; reflexivity.
    + unfold fresh in Hfresh. rewrite Hc in Hfresh. discriminate.
  - intros max_retries. apply retry_loop_cache.
  - intros Hmiss Hnone.
    destruct (attempt_none _ Hnone) as [m Hm].
    exists m. rewrite (cached_miss net w Hmiss). cbn zeta. rewrite Hm. cbn.
    split; reflexivity.
Qed.

Lemma cache_after_failure_witness :
  let net := script [respond quote_without_change] (respond quote_a) in
  exists m,
    fst (fetch_bitcoin_data_cached net blank) = Ok None /\
    cache (snd (fetch_bitcoin_data_cached net blank)) =
      Some {| stored_at := 0 + 1; stored_value := None; stored_msgs := [m] |}.
Proof.
  intros net.
  apply (proj2 (proj2 (cache_after_failure net blank))); reflexivity.
Defined.

(** Against C7 as stated: the retry path does not write the cache. After a
    successful retry from
    an empty cache the cache is still empty, and a call of the cached path
    five seconds later issues a second request and returns what that
    request brings. *)
Lemma retry_success_is_not_cached :
  let net := script [respond quote_b] (respond quote_a) in
  let w1 := snd (fetch_bitcoin_data_with_retry net 3 blank) in
  let w2 := snd (fetch_bitcoin_data_cached net (elapse 5 w1)) in
  fst (fetch_bitcoin_data_with_retry net 3 blank) = Ok (Some (VDict quote_b)) /\
  requests w1 = 1%nat /\
  cache w1 = None /\
  fst (fetch_bitcoin_data_cached net (elapse 5 w1)) = Ok (Some (VDict quote_a)) /\
  requests w2 = 2%nat.
Proof. vm_compute. repeat split. Qed.

(** C7, amended. The retry path bypasses the cache altogether: its result
    does not depend on the cache, it issues a request even when a fresh
    entry exists, and it leaves the cache exactly as it found it; its
    success is not written into the cache. *)
Theorem retry_bypasses_cache (net : network) (max_retries : Z) (w : world)
    (c : option cache_entry) :
  fst (fetch_bitcoin_data_with_retry net max_retries (set_cache c w)) =
    fst (fetch_bitcoin_data_with_retry net max_retries w) /\
  cache (snd (fetch_bitcoin_data_with_retry net max_retries w)) = cache w /\
  (0 < max_retries ->
     (requests w < requests (snd (fetch_bitcoin_data_with_retry net max_retries w)))%nat).
Proof.
  unfold fetch_bitcoin_data_with_retry. split; [| split].
  - apply retry_loop_ignores_cache. unfold same_but_cache, set_cache; cbn. repeat split.
  - apply retry_loop_cache.
  - intros Hpos. destruct (Z.to_nat max_retries) as [| remaining] eqn:Hn; [lia |].
    rewrite retry_loop_step. cbn zeta.
    destruct (fst (attempt (net (requests w)))); [cbn; lia |].
    eapply Nat.lt_le_trans; [| apply retry_loop_requests].
    destruct (0 <? max_retries - 1); cbn; lia.
Qed.


(* ===================================================================== *)
(** ** binary64: rounding to nearest even, sums and differences *)
(* ===================================================================== *)

(** The error model of [SFadd] and [SFsub], from their definitions: the
    mantissa of the exact result is shifted right ([shr]) to 53 bits and
    rounded to nearest even ([round_nearest_even]), which moves it by at
    most half a unit of the last place; a carry out of the 53 bits costs
    one more exact shift. A sum or difference of two floats is a multiple
    of [2^-1074], so it never falls in the range where rounding loses
    relative accuracy: when finite, the result is within [2^-53] of the
    exact one, relative to the result ([SFadd_close], [SFsub_close]).
    Values are counted in [units] of [2^-1074], where they are integers. *)

Lemma digits2_pos_size (p : positive) : digits2_pos p = Pos.size p.
Proof. induction p; cbn; congruence. Qed.

Lemma digits2_pos_bounds (p : positive) :
  2 ^ (Zpos (digits2_pos p) - 1) <= Zpos p < 2 ^ Zpos (digits2_pos p).
Proof.
  rewrite digits2_pos_size. split.
  - pose proof (Pos.size_le p) as H.
    assert (H' : 2 ^ Zpos (Pos.size p) <= 2 * Zpos p).
    { change 2 with (Zpos 2) at 1. rewrite <- Pos2Z.inj_pow. 
      change (2 * Zpos p) with (Zpos p~0). apply Pos2Z.pos_le_pos. exact H. }
    replace (Zpos (Pos.size p)) with (Z.succ (Zpos (Pos.size p) - 1)) in H' by lia.
    rewrite Z.pow_succ_r in H' by lia. lia.
  - pose proof (Pos.size_gt p) as H.
    change 2 with (Zpos 2). rewrite <- Pos2Z.inj_pow. apply Pos2Z.pos_lt_pos. exact H.
Qed.

Lemma shr_1_spec (m : Z) (r s : bool) :
  0 <= m ->
  shr_1 (Build_shr_record m r s) = Build_shr_record (m / 2) (Z.odd m) (r || s).
Proof.
  intros Hm. destruct m as [| p | p]; [reflexivity | | lia].
  destruct p as [p | p |]; cbn [shr_1 Z.odd].
  - replace (Z.pos p~1 / 2) with (Z.pos p); [reflexivity |].
    rewrite Pos2Z.inj_xI. Z.div_mod_to_equations. lia.
  - replace (Z.pos p~0 / 2) with (Z.pos p); [reflexivity |].
    rewrite Pos2Z.inj_xO. Z.div_mod_to_equations. lia.
  - reflexivity.
Qed.

Lemma iter_pos_nat {A} (f : A -> A) (p : positive) (x : A) :
  SpecFloat.iter_pos f p x = Nat.iter (Pos.to_nat p) f x.
Proof.
  revert x. induction p as [p IH | p IH |]; intros x; cbn [SpecFloat.iter_pos].
  - rewrite !IH. rewrite Pos2Nat.inj_xI.
    rewrite <- Nat.iter_succ_r. rewrite <- Nat.iter_add. f_equal. lia.
  - rewrite !IH. rewrite Pos2Nat.inj_xO. rewrite <- Nat.iter_add. f_equal. lia.
  - reflexivity.
Qed.


Lemma mod_pow2_succ (m0 : Z) (j : Z) :
  0 <= j ->
  m0 mod 2 ^ (j + 1) = m0 mod 2 ^ j + 2 ^ j * Z.b2z (Z.testbit m0 j).
Proof.
  intros Hj. rewrite Z.pow_add_r by lia. change (2 ^ 1) with 2.
  rewrite Z.rem_mul_r by lia. f_equal. f_equal.
  rewrite Z.testbit_odd, Z.shiftr_div_pow2 by lia.
  rewrite <- Z.bit0_odd. symmetry. apply Z.bit0_mod.
Qed.

Lemma shifted_step (m0 : Z) (k : nat) :
  0 <= m0 -> shr_1 (shifted m0 k) = shifted m0 (S k).
Proof.
  intros Hm. destruct k as [| j].
  - cbn [shifted]. rewrite shr_1_spec by exact Hm.
    change (2 ^ Z.of_nat 1) with 2. change (2 ^ Z.of_nat 0) with 1.
    rewrite Z.mod_1_r, Z.bit0_odd. reflexivity.
  - cbn [shifted]. rewrite shr_1_spec by (apply Z.div_pos; lia).
    f_equal.
    + rewrite Z.div_div by lia. f_equal.
      replace (Z.of_nat (S (S j))) with (Z.succ (Z.of_nat (S j))) by lia.
      rewrite Z.pow_succ_r by lia. lia.
    + rewrite Z.testbit_odd, Z.shiftr_div_pow2 by lia. reflexivity.
    + replace (Z.of_nat (S j)) with (Z.of_nat j + 1) by lia.
      rewrite mod_pow2_succ by lia.
      pose proof (Z.mod_pos_bound m0 (2 ^ Z.of_nat j) ltac:(lia)) as Hb.
      assert (0 < 2 ^ Z.of_nat j) by lia.
      destruct (Z.testbit m0 (Z.of_nat j)); cbn [Z.b2z orb].
      * symmetry. apply negb_true_iff, Z.eqb_neq. lia.
      * rewrite Z.mul_0_r, Z.add_0_r. reflexivity.
Qed.

Lemma iter_shifted (m0 : Z) (k : nat) :
  0 <= m0 -> Nat.iter k shr_1 (Build_shr_record m0 false false) = shifted m0 k.
Proof.
  intros Hm. induction k as [| k IH]; [reflexivity |].
  cbn [Nat.iter nat_rect]. change (nat_rect _ _ _ k) with (Nat.iter k shr_1 (Build_shr_record m0 false false)).
  rewrite IH. apply shifted_step. exact Hm.
Qed.

Lemma shr_exact_pos (m0 e : Z) (p : positive) :
  0 <= m0 ->
  shr (Build_shr_record m0 false false) e (Zpos p) = (shifted m0 (Pos.to_nat p), e + Zpos p).
Proof.
  intros Hm. unfold shr. rewrite iter_pos_nat, iter_shifted by exact Hm. reflexivity.
Qed.

(** Rounding to nearest even after a shift of [k >= 1] bits moves the
    mantissa by at most half a unit of the new last place. *)
Lemma round_shifted (m0 : Z) (j : nat) :
  0 <= m0 ->
  let r := shifted m0 (S j) in
  let m2 := round_nearest_even (shr_m r) (loc_of_shr_record r) in
  (m2 = m0 / 2 ^ Z.of_nat (S j) \/ m2 = m0 / 2 ^ Z.of_nat (S j) + 1) /\
  2 * Z.abs (m2 * 2 ^ Z.of_nat (S j) - m0) <= 2 ^ Z.of_nat (S j).
Proof.
  intros Hm r m2. subst r m2. cbn [shifted shr_m loc_of_shr_record].
  replace (Z.of_nat (S j)) with (Z.of_nat j + 1) in * by lia.
  pose proof (mod_pow2_succ m0 (Z.of_nat j) ltac:(lia)) as Hmod.
  pose proof (Z.div_mod m0 (2 ^ (Z.of_nat j + 1)) ltac:(lia)) as Hdiv.
  pose proof (Z.mod_pos_bound m0 (2 ^ Z.of_nat j) ltac:(lia)) as Hlo.
  rewrite Z.pow_add_r in * by lia. change (2 ^ 1) with 2 in *.
  set (P := 2 ^ Z.of_nat j) in *.
  set (lo := m0 mod P) in *.
  set (q := m0 / (P * 2)) in *.
  set (t := q * (P * 2)).
  assert (Ht : m0 = t + m0 mod (P * 2)) by (unfold t; lia).
  assert (Ht1 : (q + 1) * (P * 2) = t + 2 * P) by (unfold t; ring).
  destruct (Z.testbit m0 (Z.of_nat j)); cbn [Z.b2z] in Hmod;
    destruct (Z.eqb_spec lo 0) as [Hz | Hz]; cbn [negb round_nearest_even].
  - (* half way *)
    destruct (Z.even q).
    + split; [left; reflexivity |]. fold t. lia.
    + split; [right; reflexivity |]. rewrite Ht1. lia.
  - split; [right; reflexivity |]. rewrite Ht1. lia.
  - split; [left; reflexivity |]. fold t. lia.
  - split; [left; reflexivity |]. fold t. lia.
Qed.

Lemma Zdigits2_unique (x k : Z) :
  0 < k -> 2 ^ (k - 1) <= x < 2 ^ k -> Zdigits2 x = k.
Proof.
  intros Hk [Hlo Hhi].
  assert (0 < x) by (pose proof (Z.pow_pos_nonneg 2 (k - 1)); lia).
  destruct x as [| p | p]; try lia. cbn [Zdigits2].
  pose proof (digits2_pos_bounds p) as [Dlo Dhi].
  set (d := Z.pos (digits2_pos p)) in *.
  destruct (Z.lt_trichotomy d k) as [Hlt | [Heq | Hgt]]; [| exact Heq |].
  - pose proof (Z.pow_le_mono_r 2 d (k - 1) ltac:(lia) ltac:(lia)). lia.
  - pose proof (Z.pow_le_mono_r 2 k (d - 1) ltac:(lia) ltac:(lia)). lia.
Qed.

Lemma fexp64 (E : Z) : fexp 53 1024 E = Z.max (E - 53) (-1074).
Proof. reflexivity. Qed.


Lemma round_aux_exact (s : bool) (m : positive) (e : Z) :
  -1074 <= e ->
  match binary_round_aux 53 1024 s (Zpos m) e loc_Exact with
  | S754_finite s' m3 e3 =>
      s' = s /\ -1074 <= e3 /\
      2 ^ 53 * Z.abs (units (Zpos m3) e3 - units (Zpos m) e) <= units (Zpos m3) e3
  | S754_infinity s' => s' = s
  | _ => False
  end.
Proof.
  intros He. unfold binary_round_aux, shr_fexp. cbn [shr_record_of_loc Zdigits2].
  rewrite fexp64.
  pose proof (digits2_pos_bounds m) as [Dlo Dhi].
  set (d := Z.pos (digits2_pos m)) in *.
  assert (Hexact : forall e', e' = e ->
    match (if e' <=? 1024 - 53 then S754_finite s m e' else S754_infinity s) with
    | S754_finite s' m3 e3 =>
        s' = s /\ -1074 <= e3 /\
        2 ^ 53 * Z.abs (units (Zpos m3) e3 - units (Zpos m) e) <= units (Zpos m3) e3
    | S754_infinity s' => s' = s
    | _ => False
    end).
  { intros e' ->. destruct (e <=? 1024 - 53); [| reflexivity].
    split; [reflexivity |]. split; [exact He |].
    rewrite Z.sub_diag. cbn [Z.abs]. rewrite Z.mul_0_r.
    unfold units. pose proof (Z.pow_pos_nonneg 2 (e + 1074)). lia. }
  destruct (Z.max (d + e - 53) (-1074) - e) as [| p | p] eqn:Hn.
  - (* no shift *)
    cbn [shr round_nearest_even shr_m loc_of_shr_record Zdigits2].
    fold d. rewrite fexp64, Hn. cbn [shr shr_m]. apply Hexact. reflexivity.
  - (* a shift by p = d - 53 bits *)
    assert (Hp : Zpos p = d - 53) by lia.
    rewrite shr_exact_pos by lia.
    destruct (Pos.to_nat p) as [| j] eqn:Hj; [lia |].
    assert (HSj : Z.of_nat (S j) = Zpos p) by lia.
    pose proof (round_shifted (Zpos m) j ltac:(lia)) as Hr. cbn zeta in Hr.
    set (m2 := round_nearest_even (shr_m (shifted (Z.pos m) (S j)))
                 (loc_of_shr_record (shifted (Z.pos m) (S j)))) in *.
    rewrite HSj in Hr. destruct Hr as [Hm2 Herr].
    set (P := 2 ^ Zpos p) in *.
    assert (HP : 0 < P) by (apply Z.pow_pos_nonneg; lia).
    assert (Hq : 2 ^ 52 <= Zpos m / P < 2 ^ 53).
    { assert (E1 : 2 ^ (d - 1) = 2 ^ 52 * P).
      { unfold P. rewrite <- Z.pow_add_r by lia. f_equal. lia. }
      assert (E2 : 2 ^ d = 2 ^ 53 * P).
      { unfold P. rewrite <- Z.pow_add_r by lia. f_equal. lia. }
      split.
      - apply Z.div_le_lower_bound; lia.
      - apply Z.div_lt_upper_bound; lia. }
    assert (Hm2b : 2 ^ 52 <= m2 <= 2 ^ 53) by lia.
    assert (Hbound : forall m3 e3 c, 0 < c -> units m3 e3 = m2 * P * c ->
               units (Zpos m) e = Zpos m * c ->
               2 ^ 53 * Z.abs (units m3 e3 - units (Zpos m) e) <= units m3 e3).
    { intros m3 e3 c Hc E3 E0. rewrite E3, E0.
      replace (m2 * P * c - Z.pos m * c) with ((m2 * P - Z.pos m) * c) by ring.
      rewrite Z.abs_mul, (Z.abs_eq c) by lia.
      assert (2 ^ 53 * Z.abs (m2 * P - Z.pos m) <= m2 * P).
      { assert (2 ^ 52 * P <= m2 * P) by (apply Z.mul_le_mono_nonneg_r; lia). lia. }
      rewrite Z.mul_assoc. apply Z.mul_le_mono_nonneg_r; lia. }
    assert (Hc : 0 < 2 ^ (e + 1074)) by (apply Z.pow_pos_nonneg; lia).
    destruct (Z.eq_dec m2 (2 ^ 53)) as [Hcarry | Hnocarry].
    + (* the rounding carried into a 54th bit *)
      rewrite Hcarry.
      rewrite (Zdigits2_unique (2 ^ 53) 54) by (cbn; lia).
      rewrite fexp64.
      replace (Z.max (54 + (e + Z.pos p) - 53) (-1074) - (e + Z.pos p)) with 1 by lia.
      cbn [shr SpecFloat.iter_pos shr_record_of_loc]. cbn [shr_m].
      change (shr_m (shr_1 {| shr_m := 2 ^ 53; shr_r := false; shr_s := false |}))
        with (Zpos (2 ^ 52)).
      cbv iota beta.
      destruct (e + Z.pos p + 1 <=? 1024 - 53); [| reflexivity].
      split; [reflexivity |]. split; [lia |].
      apply (Hbound _ _ (2 ^ (e + 1074))); [exact Hc | | reflexivity].
      unfold units. rewrite Hcarry.
      replace (e + Z.pos p + 1 + 1074) with (1 + Zpos p + (e + 1074)) by lia.
      rewrite !Z.pow_add_r by lia. fold P. change (Zpos (2 ^ 52)) with (2 ^ 52). 
      change (2 ^ 53) with (2 ^ 52 * 2 ^ 1). ring.
    + assert (Hd2 : Zdigits2 m2 = 53) by (apply Zdigits2_unique; lia).
      rewrite Hd2, fexp64.
      replace (Z.max (53 + (e + Z.pos p) - 53) (-1074) - (e + Z.pos p)) with 0 by lia.
      cbn [shr shr_record_of_loc shr_m].
      destruct m2 as [| m3 | m3] eqn:Em2; try lia.
      destruct (e + Z.pos p <=? 1024 - 53); [| reflexivity].
      split; [reflexivity |]. split; [lia |].
      apply (Hbound _ _ (2 ^ (e + 1074))); [exact Hc | | reflexivity].
      unfold units. replace (e + Z.pos p + 1074) with (Zpos p + (e + 1074)) by lia.
      rewrite Z.pow_add_r by lia. fold P. ring.
  - (* fexp below e: no shift *)
    cbn [shr round_nearest_even shr_m loc_of_shr_record Zdigits2].
    fold d. rewrite fexp64, Hn. cbn [shr shr_m]. apply Hexact. reflexivity.
Qed.

Lemma pos_iter_xO (m d : positive) : Zpos (Pos.iter xO m d) = Zpos m * 2 ^ Zpos d.
Proof.
  induction d as [| d IH] using Pos.peano_ind.
  - cbn [Pos.iter]. rewrite Pos2Z.inj_xO. change (2 ^ 1) with 2. ring.
  - rewrite Pos.iter_succ, Pos2Z.inj_xO, IH, Pos2Z.inj_succ, Z.pow_succ_r by lia. ring.
Qed.

(** Aligning a mantissa to a lower exponent keeps the value. *)
Lemma shl_align_units (m : positive) (e e' : Z) :
  -1074 <= e' ->
  let '(m1, e1) := shl_align m e e' in
  units (Zpos m1) e1 = units (Zpos m) e /\ (e1 = e \/ e1 = e') /\ e1 <= e.
Proof.
  intros He'. unfold shl_align.
  destruct (e' - e) as [| d | d] eqn:Hd.
  - split; [reflexivity | split; [left; reflexivity | lia]].
  - split; [reflexivity | split; [left; reflexivity | lia]].
  - split; [| split; [right; reflexivity | lia]].
    unfold units. rewrite pos_iter_xO.
    replace (e + 1074) with (Zpos d + (e' + 1074)) by lia.
    rewrite (Z.pow_add_r 2 (Zpos d) (e' + 1074)) by lia. ring.
Qed.

Lemma round_exact (s : bool) (m : positive) (e : Z) :
  -1074 <= e ->
  match binary_round 53 1024 s m e with
  | S754_finite s' m3 e3 =>
      s' = s /\ -1074 <= e3 /\
      2 ^ 53 * Z.abs (units (Zpos m3) e3 - units (Zpos m) e) <= units (Zpos m3) e3
  | S754_infinity s' => s' = s
  | _ => False
  end.
Proof.
  intros He. unfold binary_round.
  pose proof (shl_align_units m e (fexp 53 1024 (Zpos (digits2_pos m) + e))) as Ha.
  rewrite fexp64 in *.
  destruct (shl_align m e (Z.max (Z.pos (digits2_pos m) + e - 53) (-1074))) as [m1 e1].
  destruct Ha as (Hu & He1 & _); [lia |].
  pose proof (round_aux_exact s m1 e1 ltac:(lia)) as H.
  destruct (binary_round_aux 53 1024 s (Z.pos m1) e1 loc_Exact); try exact H.
  rewrite <- Hu. exact H.
Qed.



Lemma normalize_exact (M e : Z) :
  -1074 <= e ->
  let f := binary_normalize 53 1024 M e false in
  match f with
  | S754_infinity _ => True
  | S754_nan => False
  | _ => representable f = true /\
         2 ^ 53 * Z.abs (float_units f - units M e) <= Z.abs (float_units f)
  end.
Proof.
  intros He f. subst f. unfold binary_normalize.
  destruct M as [| m | m].
  - cbn. split; [reflexivity |]. unfold units. lia.
  - pose proof (round_exact false m e He) as H.
    destruct (binary_round 53 1024 false m e) as [| | | s' m3 e3]; try easy.
    destruct H as (-> & He3 & Hb). cbn [representable float_units cond_Zopp].
    split; [apply Z.leb_le; exact He3 |].
    assert (0 <= units (Z.pos m3) e3) by (unfold units; pose proof (Z.pow_nonneg 2 (e3 + 1074)); lia).
    rewrite (Z.abs_eq (units (Z.pos m3) e3)) by lia. exact Hb.
  - pose proof (round_exact true m e He) as H.
    destruct (binary_round 53 1024 true m e) as [| | | s' m3 e3]; try easy.
    destruct H as (-> & He3 & Hb). cbn [representable float_units cond_Zopp].
    split; [apply Z.leb_le; exact He3 |].
    assert (0 <= units (Z.pos m3) e3) by (unfold units; pose proof (Z.pow_nonneg 2 (e3 + 1074)); lia).
    rewrite Z.abs_opp, (Z.abs_eq (units (Z.pos m3) e3)) by lia.
    replace (- units (Z.pos m3) e3 - units (Z.neg m) e)
      with (- (units (Z.pos m3) e3 - units (Z.pos m) e)).
    + rewrite Z.abs_opp. exact Hb.
    + unfold units. rewrite <- Pos2Z.opp_pos. ring.
Qed.

Lemma shl_align_fst_units (m : positive) (e e' : Z) :
  -1074 <= e' -> e' <= e ->
  units (Zpos (fst (shl_align m e e'))) e' = units (Zpos m) e.
Proof.
  intros He' Hle. unfold shl_align.
  destruct (e' - e) as [| d | d] eqn:Hd; cbn [fst].
  - f_equal. lia.
  - lia.
  - unfold units. rewrite pos_iter_xO.
    replace (e + 1074) with (Zpos d + (e' + 1074)) by lia.
    rewrite (Z.pow_add_r 2 (Zpos d)) by lia. ring.
Qed.

Lemma units_cond_Zopp (s : bool) (m e : Z) :
  units (cond_Zopp s m) e = cond_Zopp s (units m e).
Proof. unfold units. destruct s; cbn [cond_Zopp]; ring. Qed.

Lemma units_add (a b e : Z) : units (a + b) e = units a e + units b e.
Proof. unfold units. ring. Qed.

Lemma units_sub (a b e : Z) : units (a - b) e = units a e - units b e.
Proof. unfold units. ring. Qed.

Lemma cond_Zopp_negb (s : bool) (u : Z) : cond_Zopp (negb s) u = - cond_Zopp s u.
Proof. destruct s; cbn; lia. Qed.


Lemma close_to_exact (z : spec_float) :
  representable z = true -> close_to z (float_units z).
Proof.
  intros Hz. destruct z; try discriminate; cbn [close_to];
    (split; [exact Hz |]); rewrite Z.sub_diag; cbn [Z.abs]; lia.
Qed.

Lemma SFadd_close (x y : spec_float) :
  representable x = true -> representable y = true ->
  close_to (SFadd 53 1024 x y) (float_units x + float_units y).
Proof.
  intros Hx Hy.
  destruct x as [sx | sx | | sx mx ex]; try discriminate;
  destruct y as [sy | sy | | sy my ey]; try discriminate.
  - destruct sx, sy; cbn; repeat split; lia.
  - cbn [SFadd float_units]. rewrite Z.add_0_l. apply close_to_exact. exact Hy.
  - cbn [SFadd float_units]. rewrite Z.add_0_r. apply close_to_exact. exact Hx.
  - cbn [representable] in Hx, Hy. apply Z.leb_le in Hx, Hy.
    cbn [SFadd float_units].
    set (ez := Z.min ex ey).
    assert (Hez : -1074 <= ez) by (unfold ez; lia).
    pose proof (normalize_exact
      (cond_Zopp sx (Zpos (fst (shl_align mx ex ez))) +
       cond_Zopp sy (Zpos (fst (shl_align my ey ez)))) ez Hez) as H.
    cbn zeta in H.
    rewrite units_add, !units_cond_Zopp in H.
    rewrite !shl_align_fst_units in H by (unfold ez; lia).
    unfold close_to.
    destruct (binary_normalize 53 1024 _ ez false); exact H.
Qed.

Lemma SFsub_close (x y : spec_float) :
  representable x = true -> representable y = true ->
  close_to (SFsub 53 1024 x y) (float_units x - float_units y).
Proof.
  intros Hx Hy.
  destruct x as [sx | sx | | sx mx ex]; try discriminate;
  destruct y as [sy | sy | | sy my ey]; try discriminate.
  - destruct sx, sy; cbn; repeat split; lia.
  - cbn [SFsub]. 
    replace (float_units (S754_zero sx) - float_units (S754_finite sy my ey))
      with (float_units (S754_finite (negb sy) my ey))
      by (cbn [float_units]; rewrite cond_Zopp_negb; lia).
    apply close_to_exact. exact Hy.
  - cbn [SFsub float_units]. rewrite Z.sub_0_r. apply close_to_exact. exact Hx.
  - cbn [representable] in Hx, Hy. apply Z.leb_le in Hx, Hy.
    cbn [SFsub float_units].
    set (ez := Z.min ex ey).
    assert (Hez : -1074 <= ez) by (unfold ez; lia).
    pose proof (normalize_exact
      (cond_Zopp sx (Zpos (fst (shl_align mx ex ez))) -
       cond_Zopp sy (Zpos (fst (shl_align my ey ez)))) ez Hez) as H.
    cbn zeta in H.
    rewrite units_sub, !units_cond_Zopp in H.
    rewrite !shl_align_fst_units in H by (unfold ez; lia).
    unfold close_to.
    destruct (binary_normalize 53 1024 _ ez false); exact H.
Qed.

(** Only finite operands give a finite sum or difference. *)
Lemma SFsub_finite (x y : spec_float) :
  is_finite (SFsub 53 1024 x y) = true -> is_finite x = true /\ is_finite y = true.
Proof.
  destruct x as [sx | sx | | sx mx ex], y as [sy | sy | | sy my ey];
    cbn [SFsub is_finite]; try discriminate; try (intros; split; reflexivity).
  destruct sx, sy; discriminate.
Qed.

Lemma close_to_representable (z : spec_float) (exact : Z) :
  close_to z exact -> is_finite z = true -> representable z = true.
Proof. destruct z; cbn; try discriminate; intros [H _] _; exact H. Qed.

(** Adding back what was subtracted: the result is within [2^-53] of the
    start, relative to the two rounded results. *)
Lemma sub_then_add (x y : spec_float) :
  representable x = true -> representable y = true ->
  let d := SFsub 53 1024 x y in
  let t := SFadd 53 1024 d y in
  representable d = true -> representable t = true ->
  2 ^ 53 * Z.abs (float_units t - float_units x)
    <= Z.abs (float_units d) + Z.abs (float_units t).
Proof.
  intros Hx Hy d t Hd Ht.
  pose proof (SFsub_close x y Hx Hy) as H1. fold d in H1.
  pose proof (SFadd_close d y Hd Hy) as H2. fold t in H2.
  unfold close_to in H1, H2.
  destruct d; try discriminate; destruct t; try discriminate; lia.
Qed.

(** A rounded float never has an exponent below the least one. *)
Lemma round_aux_exponent (s : bool) (m e : Z) (l : location) :
  match binary_round_aux 53 1024 s m e l with
  | S754_finite _ _ e3 => -1074 <= e3
  | _ => True
  end.
Proof.
  unfold binary_round_aux, shr_fexp.
  destruct (shr (shr_record_of_loc m l) e (fexp 53 1024 (Zdigits2 m + e) - e))
    as [mrs1 e1] eqn:H1.
  assert (He1 : -1074 <= e1).
  { unfold shr in H1. rewrite fexp64 in H1.
    destruct (Z.max (Zdigits2 m + e - 53) (-1074) - e) eqn:Hn;
      injection H1 as _ <-; lia. }
  set (m2 := round_nearest_even (shr_m mrs1) (loc_of_shr_record mrs1)).
  destruct (shr (shr_record_of_loc m2 loc_Exact) e1 (fexp 53 1024 (Zdigits2 m2 + e1) - e1))
    as [mrs2 e2] eqn:H2.
  assert (He2 : -1074 <= e2).
  { unfold shr in H2. rewrite fexp64 in H2.
    destruct (Z.max (Zdigits2 m2 + e1 - 53) (-1074) - e1) eqn:Hn;
      injection H2 as _ <-; lia. }
  destruct (shr_m mrs2); try exact I.
  destruct (e2 <=? 1024 - 53); [exact He2 | exact I].
Qed.

Lemma SFdiv_exponent (x y : spec_float) :
  match SFdiv 53 1024 x y with
  | S754_finite _ _ e => -1074 <= e
  | _ => True
  end.
Proof.
  destruct x as [sx | sx | | sx mx ex], y as [sy | sy | | sy my ey];
    cbn [SFdiv]; try exact I.
  destruct (SFdiv_core_binary 53 1024 (Z.pos mx) ex (Z.pos my) ey) as [[mz ez] lz].
  apply round_aux_exponent.
Qed.

Lemma int_truediv_exponent (x y : Z) :
  match int_truediv x y with
  | S754_finite _ _ e => -1074 <= e
  | _ => True
  end.
Proof.
  unfold int_truediv.
  destruct (SFdiv_core_binary prec emax (Z.abs x) 0 (Z.abs y) 0) as [[mz ez] lz].
  apply round_aux_exponent.
Qed.

(** The result of a true division is a float. *)
Lemma py_truediv_float (a b r : number) :
  py_truediv a b = Ok r ->
  exists f, r = NFloat f /\
            match f with S754_finite _ _ e => -1074 <= e | _ => True end.
Proof.
  unfold py_truediv. destruct (py_eq b (NInt 0)); [discriminate |].
  destruct a as [x | x], b as [y | y]; cbn [to_float mbind result_bind].
  - pose proof (int_truediv_exponent x y) as He.
    destruct (int_truediv x y) as [s | s | | s m e]; intros [= <-];
      eexists; (split; [reflexivity | exact He]).
  - destruct (float_of_int x) as [fx |]; [| discriminate].
    intros [= <-]. eexists. split; [reflexivity | apply SFdiv_exponent].
  - destruct (float_of_int y) as [fy |]; [| discriminate].
    intros [= <-]. eexists. split; [reflexivity | apply SFdiv_exponent].
  - intros [= <-]. eexists. split; [reflexivity | apply SFdiv_exponent].
Qed.

Lemma valid_binary_exponent (s : bool) (m : positive) (e : Z) :
  valid_binary 53 1024 (S754_finite s m e) = true -> -1074 <= e.
Proof.
  cbn [valid_binary]. unfold bounded, canonical_mantissa. rewrite fexp64.
  intros H. apply andb_true_iff in H as [H _]. apply Z.eqb_eq in H. lia.
Qed.

(** A float operand is the number itself; an int operand is rounded to
    the nearest float. *)
Lemma to_float_close (n : number) (x : spec_float) :
  to_float n = Ok x ->
  well_formed n = true ->
  match x with S754_infinity _ | S754_nan => False | _ => True end ->
  representable x = true /\
  2 ^ 53 * Z.abs (float_units x - num_units n) <= Z.abs (float_units x).
Proof.
  destruct n as [z | f]; cbn [to_float well_formed num_units].
  - unfold float_of_int.
    pose proof (normalize_exact z 0 ltac:(lia)) as H. cbn zeta in H.
    change (binary_normalize prec emax z 0 false)
      with (binary_normalize 53 1024 z 0 false).
    destruct (binary_normalize 53 1024 z 0 false) as [s | s | | s m e];
      try discriminate; intros [= <-] _ _; first [exact H | destruct H].
  - intros [= ->] Hvalid Hfin.
    destruct x as [s | s | | s m e]; try (exfalso; exact Hfin).
    + split; [reflexivity |]. cbn. lia.
    + apply valid_binary_exponent in Hvalid.
      split; [cbn; apply Z.leb_le; exact Hvalid |].
      rewrite Z.sub_diag. cbn [Z.abs]. lia.
Qed.

Lemma finite_not_special (f : spec_float) :
  is_finite f = true ->
  match f with S754_infinity _ | S754_nan => False | _ => True end.
Proof. destruct f; cbn; try discriminate; intros; exact I. Qed.

Lemma num_value_finite (f : spec_float) (q : Q) :
  num_value (NFloat f) = XFin q -> is_finite f = true.
Proof. destruct f as [s | s | | s m e]; cbn; try destruct s; try discriminate; reflexivity. Qed.

(** The sum of the previous price and the change amount against the
    price, in units of [2^-1074]. *)
Lemma previous_plus_change_units (current_price change_percent previous total : number)
    (v t : Q) :
  well_formed current_price = true ->
  calculate_previous_price current_price change_percent = Ok previous ->
  previous_plus_change current_price change_percent = Ok total ->
  num_value previous = XFin v ->
  num_value total = XFin t ->
  (exists d, previous = NFloat d /\ representable d = true) /\
  (exists s, total = NFloat s /\ representable s = true) /\
  2 ^ 52 * Z.abs (num_units total - num_units current_price)
    <= Z.abs (num_units current_price) + Z.abs (num_units previous)
       + Z.abs (num_units total).
Proof.
  intros Hwf Hprev Htotal Hv Ht.
  unfold previous_plus_change in Htotal.
  destruct (display_change_amount current_price change_percent) as [amount |] eqn:Hamount;
    [| discriminate].
  cbn [mbind result_bind] in Htotal. rewrite Hprev in Htotal.
  cbn [mbind result_bind add number_arith] in Htotal.
  unfold display_change_amount in Hamount. unfold calculate_previous_price in Hprev.
  cbn [mul truediv sub of_int number_arith] in Hprev, Hamount.
  destruct (py_mul current_price change_percent) as [product |]; [| discriminate].
  cbn [mbind result_bind] in Hprev, Hamount.
  rewrite Hamount in Hprev. cbn [mbind result_bind] in Hprev.
  destruct (py_truediv_float _ _ _ Hamount) as [a [-> Ha]].
  (* the subtraction *)
  assert (Hsub : exists x, to_float current_price = Ok x /\
                           previous = NFloat (SFsub 53 1024 x a)).
  { destruct current_price as [z | f]; cbn [py_sub to_float mbind result_bind] in Hprev.
    - cbn [to_float]. destruct (float_of_int z) as [x |]; [| discriminate].
      injection Hprev as <-. exists x. split; reflexivity.
    - injection Hprev as <-. exists f. split; reflexivity. }
  destruct Hsub as [x [Hx ->]].
  cbn [py_add to_float mbind result_bind] in Htotal. injection Htotal as <-.
  change prec with 53 in *. change emax with 1024 in *.
  apply num_value_finite in Hv, Ht.
  destruct (SFsub_finite x a Hv) as [Hxfin Hafin].
  destruct (to_float_close current_price x Hx Hwf (finite_not_special x Hxfin))
    as [Hxrep Hxclose].
  assert (Harep : representable a = true).
  { destruct a as [s | s | | s m e]; try discriminate; cbn;
      [reflexivity | apply Z.leb_le; exact Ha]. }
  assert (Hd : representable (SFsub 53 1024 x a) = true).
  { eapply close_to_representable; [apply SFsub_close; assumption | exact Hv]. }
  assert (Hs : representable (SFadd 53 1024 (SFsub 53 1024 x a) a) = true).
  { eapply close_to_representable; [apply SFadd_close; assumption | exact Ht]. }
  split; [eexists; split; [reflexivity | exact Hd] |].
  split; [eexists; split; [reflexivity | exact Hs] |].
  pose proof (sub_then_add x a Hxrep Harep Hd Hs) as Hbound. cbn zeta in Hbound.
  cbn [num_units].
  set (T := float_units (SFadd 53 1024 (SFsub 53 1024 x a) a)) in *.
  set (D := float_units (SFsub 53 1024 x a)) in *.
  set (X := float_units x) in *.
  set (C := num_units current_price) in *.
  change (2 ^ 53) with 9007199254740992 in *.
  change (2 ^ 52) with 4503599627370496.
  lia.
Qed.

(** From units of [2^-1074] back to values. *)
Lemma Qmake_as_quotient (n a : Z) (d k : positive) :
  n * Zpos k = a * Zpos d ->
  (n # d == inject_Z a / inject_Z (Zpos k))%Q.
Proof.
  intros H. unfold Qeq, Qdiv, Qmult, Qinv, inject_Z. cbn [Qnum Qden].
  rewrite Z.mul_1_r, Pos.mul_1_l. exact H.
Qed.

Lemma float_Q_units (s : bool) (m : positive) (e : Z) :
  -1074 <= e ->
  (float_Q s m e ==
     inject_Z (cond_Zopp s (units (Zpos m) e)) / inject_Z (Zpos (2 ^ 1074)))%Q.
Proof.
  intros He. unfold float_Q, units.
  assert (HK : Zpos (2 ^ 1074) = 2 ^ 1074) by apply Pos2Z.inj_pow.
  destruct e as [| p | p].
  - apply Qmake_as_quotient. rewrite HK. change (0 + 1074) with 1074.
    destruct s; cbn [cond_Zopp]; ring.
  - apply Qmake_as_quotient. rewrite HK, Pos2Z.inj_pow.
    rewrite (Z.pow_add_r 2 (Zpos p) 1074) by lia.
    destruct s; cbn [cond_Zopp]; ring.
  - apply Qmake_as_quotient. rewrite HK, Pos2Z.inj_pow.
    assert (E : 2 ^ 1074 = 2 ^ (Z.neg p + 1074) * 2 ^ Zpos p).
    { rewrite <- Z.pow_add_r by lia. f_equal. lia. }
    rewrite E at 1. destruct s; cbn [cond_Zopp]; ring.
Qed.

Lemma num_value_units (n : number) (q : Q) :
  num_value n = XFin q ->
  (forall f, n = NFloat f -> representable f = true) ->
  (q == inject_Z (num_units n) / inject_Z (Zpos (2 ^ 1074)))%Q.
Proof.
  intros Hq Hrep. destruct n as [z | f]; cbn [num_value num_units] in *.
  - injection Hq as <-. unfold units.
    apply Qmake_as_quotient. rewrite Pos2Z.inj_pow. change (0 + 1074) with 1074. ring.
  - specialize (Hrep f eq_refl).
    destruct f as [s | s | | s m e]; cbn [float_value] in Hq;
      try destruct s; try discriminate; injection Hq as <-.
    + cbn [float_units]. reflexivity.
    + cbn [float_units]. reflexivity.
    + apply float_Q_units. apply Z.leb_le. exact Hrep.
    + apply float_Q_units. apply Z.leb_le. exact Hrep.
Qed.

Lemma scaled_bound (C V T : Z) (k : positive) (c v t : Q) :
  (c == inject_Z C / inject_Z (Zpos k))%Q ->
  (v == inject_Z V / inject_Z (Zpos k))%Q ->
  (t == inject_Z T / inject_Z (Zpos k))%Q ->
  2 ^ 52 * Z.abs (T - C) <= Z.abs C + Z.abs V + Z.abs T ->
  (Qabs (t - c) <= (Qabs c + Qabs v + Qabs t) * (1 # 2 ^ 52))%Q.
Proof.
  intros -> -> -> H.
  assert (Habs : forall z, (Qabs (inject_Z z / inject_Z (Zpos k)) ==
                            inject_Z (Z.abs z) / inject_Z (Zpos k))%Q).
  { intros z. unfold Qdiv. rewrite Qabs_Qmult. 
    assert (E : (Qabs (/ inject_Z (Z.pos k)) == / inject_Z (Z.pos k))%Q).
    { apply Qabs_pos. apply Qinv_le_0_compat. unfold Qle; cbn; lia. }
    rewrite E. reflexivity. }
  assert (Hsub : (inject_Z T / inject_Z (Zpos k) - inject_Z C / inject_Z (Zpos k) ==
                  inject_Z (T - C) / inject_Z (Zpos k))%Q).
  { unfold Z.sub. rewrite inject_Z_plus, inject_Z_opp. field.
    unfold Qeq; cbn; lia. }
  rewrite Hsub, !Habs.
  set (r := (/ inject_Z (Zpos k))%Q).
  assert (Hr : (0 <= r)%Q).
  { apply Qinv_le_0_compat. unfold Qle; cbn; lia. }
  unfold Qdiv. fold r.
  assert (HQ : (inject_Z (2 ^ 52) * inject_Z (Z.abs (T - C)) <=
                inject_Z (Z.abs C) + inject_Z (Z.abs V) + inject_Z (Z.abs T))%Q).
  { rewrite <- inject_Z_mult, <- !inject_Z_plus. rewrite <- Zle_Qle. exact H. }
  set (a := inject_Z (Z.abs (T - C))) in *.
  set (x := inject_Z (Z.abs C)) in *.
  set (y := inject_Z (Z.abs V)) in *.
  set (z := inject_Z (Z.abs T)) in *.
  assert (Hprod : (0 <= (x + y + z - inject_Z (2 ^ 52) * a) * r)%Q).
  { apply Qmult_le_0_compat; [lra | exact Hr]. }
  change (inject_Z (2 ^ 52)) with (4503599627370496 # 1)%Q in Hprod.
  change (1 # 2 ^ 52)%Q with (1 # 4503599627370496)%Q.
  lra.
Qed.

(* ===================================================================== *)
(** ** The derivations *)
(* ===================================================================== *)

(** Why the identity is stated within a tolerance: in binary64 the sum of
    the previous price and the change amount need not give the price back
    bit for bit. For the price 62670.96 and the change -5.5:
    the amount is -3446.9028, the previous price 66117.8628, and their sum
    62670.96000000001. Likewise for 0.3 and 10.0: 0.27 + 0.03 is
    0.30000000000000004. *)
Lemma identity_fails_in_binary64 :
  let price := NFloat (float_lit 6267096 100) in
  let change := NFloat (float_lit (-55) 10) in
  display_change_amount price change = Ok (NFloat (float_lit (-34469028) 10000)) /\
  calculate_previous_price price change = Ok (NFloat (float_lit 661178628 10000)) /\
  py_add (NFloat (float_lit 661178628 10000)) (NFloat (float_lit (-34469028) 10000)) =
    Ok (NFloat (float_lit 6267096000000001 100000000000)) /\
  previous_plus_change_is_current price change = Ok false /\
  previous_plus_change_is_current (NFloat (float_lit 3 10)) (NFloat (float_lit 10 1)) = Ok false.
Proof. vm_compute. repeat split. Qed.

Lemma fraction_truediv_100 (a : Q) : truediv a (of_int 100) = Ok (a / 100)%Q.
Proof. reflexivity. Qed.

(** X1. In exact arithmetic (rationals, as on [Fraction] operands) the previous
    price plus the change amount equals the price, for every price and
    change. *)
Lemma identity_in_exact_arithmetic (current_price change_percent : Q) :
  previous_plus_change_is_current current_price change_percent = Ok true.
Proof.
  unfold previous_plus_change_is_current, previous_plus_change,
    display_change_amount, calculate_previous_price.
  change (mul current_price change_percent) with (Ok (current_price * change_percent)%Q).
  unfold mbind, result_bind. rewrite fraction_truediv_100.
  unfold add, sub, eqb, fraction_arith.
  f_equal. apply Qeq_bool_iff. field.
Qed.



(** Against C10 as stated: in binary64 the previous price is not the
    factored form [current_price * (1 - change_percent / 100)]: for 61000 and -1.5 the
    method returns 61915.0 and the factored form gives 61914.99999999999.
    A change above 100 does not always give a negative result: 75961.68
    and 100.00000000000001 give 0.0. A change of 100 does not always give
    0: the product overflows for the price 1e308 and the result is minus
    infinity. *)
Lemma previous_price_differs_in_binary64 :
  let price := NInt 61000 in
  let change := NFloat (float_lit (-15) 10) in
  calculate_previous_price price change = Ok (NFloat (float_lit 61915 1)) /\
  one_minus_percent_form price change =
    Ok (NFloat (float_lit 6191499999999999 100000000000)) /\
  py_eq (NFloat (float_lit 61915 1)) (NFloat (float_lit 6191499999999999 100000000000)) = false /\
  py_gt (NFloat (float_lit 10000000000000001 100000000000000)) (NInt 100) = true /\
  calculate_previous_price (NFloat (float_lit 7596168 100))
      (NFloat (float_lit 10000000000000001 100000000000000)) =
    Ok (NFloat (S754_zero false)) /\
  calculate_previous_price (NFloat (float_lit (10 ^ 308) 1)) (NInt 100) =
    Ok (NFloat (S754_infinity true)).
Proof. vm_compute. repeat split. Qed.

Lemma calculate_previous_price_fraction (current_price change_percent : Q) :
  exists previous factored : Q,
    calculate_previous_price current_price change_percent = Ok previous /\
    one_minus_percent_form current_price change_percent = Ok factored /\
    (previous == factored)%Q /\
    ((change_percent == 100)%Q -> (previous == 0)%Q) /\
    ((100 < change_percent)%Q -> (0 < current_price)%Q -> (previous < 0)%Q).
Proof.
  exists (current_price - current_price * change_percent / 100)%Q.
  exists (current_price * (1 - change_percent / 100))%Q.
  split; [reflexivity |]. split; [reflexivity |].
  split; [field |]. split.
  - intros Hp. rewrite Hp. field.
  - intros Hp Hc.
    assert (E : (current_price - current_price * change_percent / 100 ==
                 current_price * ((100 - change_percent) / 100))%Q) by field.
    rewrite E.
    assert (Hneg : ((100 - change_percent) / 100 < 0)%Q).
    { apply Qlt_shift_div_r; lra. }
    nra.
Qed.

(** C10, amended. [calculate_previous_price] returns
    [current_price - (current_price * change_percent) / 100]. In exact
    arithmetic this is [current_price * (1 - change_percent / 100)], so it
    is 0 for a change of 100 and negative for a change above 100 and a
    positive price. On the numbers of a decoded quote the previous price
    is likewise not always positive: 50000 with a change of 100 gives 0.0,
    and with a change of 150 gives -25000.0. *)
Theorem calculate_previous_price_not_positive :
  (forall current_price change_percent : Q,
     exists previous factored : Q,
       calculate_previous_price current_price change_percent = Ok previous /\
       one_minus_percent_form current_price change_percent = Ok factored /\
       (previous == factored)%Q /\
       ((change_percent == 100)%Q -> (previous == 0)%Q) /\
       ((100 < change_percent)%Q -> (0 < current_price)%Q -> (previous < 0)%Q)) /\
  calculate_previous_price (NInt 50000) (NInt 100) = Ok (NFloat (S754_zero false)) /\
  calculate_previous_price (NInt 50000) (NInt 150) = Ok (NFloat (float_lit (-25000) 1)) /\
  calculate_previous_price (NFloat (float_lit 50000 1)) (NFloat (float_lit 150 1)) =
    Ok (NFloat (float_lit (-25000) 1)).
Proof.
  split; [exact calculate_previous_price_fraction |].
  vm_compute. repeat split.
Qed.

(* ===================================================================== *)
(** ** The change line and the trend block *)
(* ===================================================================== *)

Lemma py_gt_mono (p : number) (a b : Z) :
  py_gt p (NInt a) = true -> b <= a -> py_gt p (NInt b) = true.
Proof.
  intros H Hab.
  destruct (num_value p) as [| | q |] eqn:Hp.
  - unfold py_gt, py_compare in H. rewrite Hp in H. discriminate.
  - unfold py_gt, py_compare in H. rewrite Hp in H. discriminate.
  - apply (py_gt_fin p q b Hp). apply (py_gt_fin p q a Hp) in H.
    eapply Qle_lt_trans; [| exact H]. rewrite <- Zle_Qle. exact Hab.
  - unfold py_gt, py_compare. rewrite Hp. reflexivity.
Qed.

Lemma py_lt_mono (p : number) (a b : Z) :
  py_lt p (NInt a) = true -> a <= b -> py_lt p (NInt b) = true.
Proof.
  intros H Hab.
  destruct (num_value p) as [| | q |] eqn:Hp.
  - unfold py_lt, py_compare in H. rewrite Hp in H. discriminate.
  - unfold py_lt, py_compare. rewrite Hp. reflexivity.
  - apply (py_lt_fin p q b Hp). apply (py_lt_fin p q a Hp) in H.
    eapply Qlt_le_trans; [exact H |]. rewrite <- Zle_Qle. exact Hab.
  - unfold py_lt, py_compare in H. rewrite Hp in H. discriminate.
Qed.

Lemma py_gt_not_lt (a b : number) : py_gt a b = true -> py_lt a b = false.
Proof.
  unfold py_gt, py_lt. destruct (py_compare a b) as [[| |] |]; congruence.
Qed.

(** The direction of the trend block is the direction of the change
    line. *)
Lemma trend_direction_change (p : number) :
  trend_direction (trend_analysis p) = change_direction p.
Proof.
  unfold trend_analysis, change_direction.
  destruct (py_gt p (NInt 0)) eqn:H0.
  - destruct (py_gt p (NInt 5)); [reflexivity |].
    destruct (py_gt p (NInt 2)); reflexivity.
  - destruct (py_gt p (NInt 5)) eqn:H5.
    { rewrite (py_gt_mono p 5 0 H5) in H0 by lia. discriminate. }
    destruct (py_gt p (NInt 2)) eqn:H2.
    { rewrite (py_gt_mono p 2 0 H2) in H0 by lia. discriminate. }
    destruct (py_lt p (NInt 0)) eqn:L0.
    + destruct (py_lt p (NInt (-5))); [reflexivity |].
      destruct (py_lt p (NInt (-2))); reflexivity.
    + destruct (py_lt p (NInt (-5))) eqn:L5.
      { rewrite (py_lt_mono p (-5) 0 L5) in L0 by lia. discriminate. }
      destruct (py_lt p (NInt (-2))) eqn:L2.
      { rewrite (py_lt_mono p (-2) 0 L2) in L0 by lia. discriminate. }
      reflexivity.
Qed.

(** X5. The change line and the trend block never contradict each other,
    whatever number the change is (NaN and the infinities included): the
    trend branch taken words the same direction as [format_change] (three
    rising branches when the change line says rising, three falling ones
    when it says falling, the flat one when it says level), and the call
    that shows the change line is [st.success] when rising, [st.error] when
    falling, [st.info] when level. *)
Theorem change_line_agrees_with_trend (change_percent : number) :
  trend_direction (trend_analysis change_percent) = change_direction change_percent /\
  change_widget change_percent =
    match change_direction change_percent with
    | Rising => StSuccess
    | Falling => StErrorBox
    | Level => StInfo
    end /\
  (trend_widget (trend_analysis change_percent) = StSuccess ->
     change_widget change_percent = StSuccess) /\
  (trend_widget (trend_analysis change_percent) = StErrorBox ->
     change_widget change_percent = StErrorBox).
Proof.
  pose proof (trend_direction_change change_percent) as Hd.
  split; [exact Hd |].
  assert (Hw : change_widget change_percent =
               match change_direction change_percent with
               | Rising => StSuccess | Falling => StErrorBox | Level => StInfo end).
  { unfold change_widget, change_direction.
    destruct (py_gt change_percent (NInt 0)); [reflexivity |].
    destruct (py_lt change_percent (NInt 0)); reflexivity. }
  split; [exact Hw |].
  rewrite Hw, <- Hd.
  destruct (trend_analysis change_percent); cbn; split; intros; congruence.
Qed.

Lemma trend_of_pos_inf (n : number) :
  num_value n = XPosInf -> trend_analysis n = StrongUp.
Proof.
  destruct n as [z | f]; cbn; [discriminate |].
  destruct f as [s | s | | s m e]; cbn; try discriminate.
  destruct s; [discriminate | reflexivity].
Qed.

Lemma trend_of_neg_inf (n : number) :
  num_value n = XNegInf -> trend_analysis n = StrongDown.
Proof.
  destruct n as [z | f]; cbn; [discriminate |].
  destruct f as [s | s | | s m e]; cbn; try discriminate.
  destruct s; [reflexivity | discriminate].
Qed.

Lemma trend_rank_bounds (t : trend) : -3 <= trend_rank t <= 3.
Proof. destruct t; cbn; lia. Qed.

(** X6. The trend block is monotone: when [p <= q] (which no NaN
    satisfies), the branch taken for [q] is the one taken for [p] or one
    further towards the rise. *)
Theorem trend_analysis_monotone (p q : number) :
  py_le p q = true ->
  trend_rank (trend_analysis p) <= trend_rank (trend_analysis q).
Proof.
  unfold py_le, py_compare. intros Hle.
  destruct (num_value p) as [| | a |] eqn:Hp; cbn in Hle; try discriminate.
  - rewrite (trend_of_neg_inf p Hp). cbn. apply trend_rank_bounds.
  - destruct (num_value q) as [| | b |] eqn:Hq; cbn in Hle; try discriminate.
    + assert (Hab : (a <= b)%Q).
      { destruct (Qcompare a b) eqn:Hc; try discriminate.
        - apply Qeq_alt in Hc. lra.
        - apply Qlt_alt in Hc. lra. }
      pose proof (trend_analysis_sound p a Hp) as Sp.
      pose proof (trend_analysis_sound q b Hq) as Sq.
      inversion Sp; inversion Sq; cbn; try lia; exfalso; lra.
    + rewrite (trend_of_pos_inf q Hq). cbn. apply trend_rank_bounds.
  - destruct (num_value q) as [| | b |] eqn:Hq; cbn in Hle; try discriminate.
    rewrite (trend_of_pos_inf q Hq). cbn. apply trend_rank_bounds.
Qed.

Lemma trend_analysis_monotone_witness :
  trend_rank (trend_analysis (NFloat (float_lit (-15) 10))) <=
  trend_rank (trend_analysis (NInt 3)).
Proof. apply trend_analysis_monotone. reflexivity. Defined.

(* ===================================================================== *)
(** ** What a successful fetch returns *)
(* ===================================================================== *)

Lemma py_le_zero_false (n : number) :
  py_le n (NInt 0) = false <-> py_gt n (NInt 0) = true \/ num_value n = XNaN.
Proof.
  unfold py_le, py_gt, py_compare.
  destruct (num_value n) as [| | q |]; cbn.
  - split; [right; reflexivity | reflexivity].
  - split; [discriminate | intros [H | H]; discriminate].
  - destruct (Qcompare q (inject_Z 0)); split;
      try discriminate; try reflexivity; try (left; reflexivity);
      intros [H | H]; discriminate.
  - split; [left; reflexivity | reflexivity].
Qed.

(** X7. A call of [fetch_bitcoin_data] returns a value exactly when the
    request meets a response whose status is no error and on whose body
    [response.json()] returns (does not raise) a JSON object holding,
    under ["bitcoin"], a JSON object with both
    required fields and under ["usd"] a number (or boolean) that is
    positive or NaN; the value returned is that inner object. So
    [display_price_info] never falls back on its defaults for a payload
    the fetch returned: both [.get] calls find their field. *)
Theorem fetch_bitcoin_data_returns_validated (net : network) (w : world) (v : value) :
  (fst (fetch_bitcoin_data net w) = Ok (Some v) <->
   exists status top d usd change n,
     outcome (net (requests w)) =
       NetResponse {| status_code := status; body := Ok (VDict top) |} /\
     response_ok status = true /\
     top !! "bitcoin" = Some v /\
     v = VDict d /\
     d !! "usd" = Some usd /\
     d !! "usd_24h_change" = Some change /\
     as_number usd = Some n /\
     (py_gt n (NInt 0) = true \/ num_value n = XNaN)) /\
  (fst (fetch_bitcoin_data net w) = Ok (Some v) ->
   exists d usd change,
     v = VDict d /\ d !! "usd" = Some usd /\ d !! "usd_24h_change" = Some change /\
     display_inputs v = Ok (usd, change)).
Proof.
  rewrite fetch_bitcoin_data_run. cbn [fst].
  split; [split |].
  - intros [= Hv]. apply attempt_success in Hv.
    destruct Hv as (status & top & d & usd & change & n & Hv).
    exists status, top, d, usd, change, n.
    destruct Hv as (H1 & H2 & H3 & H4 & H5 & H6 & H7 & H8).
    apply py_le_zero_false in H8. repeat apply conj; assumption.
  - intros (status & top & d & usd & change & n & H1 & H2 & H3 & H4 & H5 & H6 & H7 & H8).
    apply py_le_zero_false in H8. subst v.
    destruct (net (requests w)) as [el o]. cbn in H1. subst o.
    rewrite (attempt_dict d usd change n el status top H5 H6 H7 H2 H3), H8.
    reflexivity.
  - intros [= Hv]. apply attempt_success in Hv.
    destruct Hv as (status & top & d & usd & change & n & Hv).
    destruct Hv as (H1 & H2 & H3 & H4 & H5 & H6 & H7 & H8).
    exists d, usd, change. subst v. repeat apply conj; try assumption; try reflexivity.
    unfold display_inputs. cbn. rewrite H5, H6. reflexivity.
Qed.

Lemma fetch_bitcoin_data_returns_validated_witness :
  exists d usd change,
    VDict quote_a = VDict d /\ d !! "usd" = Some usd /\
    d !! "usd_24h_change" = Some change /\
    display_inputs (VDict quote_a) = Ok (usd, change).
Proof.
  apply (proj2 (fetch_bitcoin_data_returns_validated
                  (script [] (respond quote_a)) blank (VDict quote_a))).
  vm_compute. reflexivity.
Defined.

(** X8. A NaN price passes the validator: NaN is not [<= 0]. The payload
    is accepted without any message, and a fetch that receives it returns
    it. *)
Theorem nan_price_passes_validation (d : gmap string value) (change : value) :
  d !! "usd" = Some (VNum (NFloat S754_nan)) ->
  d !! "usd_24h_change" = Some change ->
  (forall w, validate_bitcoin_data (VDict d) w = (Ok true, w)) /\
  (forall el status top,
     response_ok status = true ->
     top !! "bitcoin" = Some (VDict d) ->
     attempt {| elapsed := el;
                outcome := NetResponse {| status_code := status;
                                          body := Ok (VDict top) |} |} =
       (Some (VDict d), [HttpGet])).
Proof.
  intros Husd Hchange. split.
  - intros w.
    rewrite (validate_bitcoin_data_dict d _ change (NFloat S754_nan) w Husd Hchange eq_refl).
    reflexivity.
  - intros el status top Hok Htop.
    rewrite (attempt_dict d _ change (NFloat S754_nan) el status top
               Husd Hchange eq_refl Hok Htop).
    reflexivity.
Qed.

Lemma nan_price_passes_validation_witness :
  let d : gmap string value :=
    <["usd" := VNum (NFloat S754_nan)]> (<["usd_24h_change" := num_dec 321 100]> ∅) in
  validate_bitcoin_data (VDict d) blank = (Ok true, blank) /\
  attempt (respond d) = (Some (VDict d), [HttpGet]).
Proof.
  intros d.
  destruct (nan_price_passes_validation d (num_dec 321 100) eq_refl eq_refl) as [Hv Ha].
  split; [apply Hv | apply Ha; reflexivity].
Defined.

(* ===================================================================== *)
(** ** The retry path, whatever the upstream does *)
(* ===================================================================== *)

(** The loop either gives up after all its attempts failed, or returns
    what its first successful attempt returned. *)
Lemma retry_loop_outcome (net : network) (remaining : nat) :
  forall (a max_retries : Z) (w : world),
    let '(r, w') := retry_loop net remaining a max_retries w in
    (r = Ok None /\
     requests w' = (requests w + remaining)%nat /\
     forall i, (i < remaining)%nat -> fst (attempt (net (requests w + i)%nat)) = None) \/
    (exists k v,
       (k < remaining)%nat /\
       r = Ok (Some v) /\
       requests w' = (requests w + S k)%nat /\
       fst (attempt (net (requests w + k)%nat)) = Some v /\
       forall i, (i < k)%nat -> fst (attempt (net (requests w + i)%nat)) = None).
Proof.
  induction remaining as [| remaining IH]; intros a max_retries w.
  - cbn. left. repeat split; [lia | intros i Hi; lia].
  - rewrite retry_loop_step. cbn zeta.
    destruct (fst (attempt (net (requests w)))) as [v |] eqn:Hv.
    + right. exists 0%nat, v. rewrite Nat.add_0_r.
      repeat split; [lia | cbn; lia | exact Hv | intros i Hi; lia].
    + set (w2 := if a <? max_retries - 1
                 then after_sleep 2 (after_fetch (net (requests w))
                        (record (StInfoAttempt (a + 1) max_retries) w))
                 else after_fetch (net (requests w))
                        (record (StInfoAttempt (a + 1) max_retries) w)).
      assert (Hreq : requests w2 = S (requests w)).
      { unfold w2. destruct (a <? max_retries - 1); reflexivity. }
      specialize (IH (a + 1) max_retries w2).
      destruct (retry_loop net remaining (a + 1) max_retries w2) as [r w'].
      rewrite Hreq in IH.
      destruct IH as [(Hr & Hq & Hall) | (k & v & Hk & Hr & Hq & Hok & Hall)].
      * left. split; [exact Hr |]. split; [lia |].
        intros i Hi. destruct i as [| i]; [rewrite Nat.add_0_r; exact Hv |].
        replace (requests w + S i)%nat with (S (requests w) + i)%nat by lia.
        apply Hall. lia.
      * right. exists (S k), v. split; [lia |]. split; [exact Hr |]. split; [lia |].
        split.
        { replace (requests w + S k)%nat with (S (requests w) + k)%nat by lia. exact Hok. }
        intros i Hi. destruct i as [| i]; [rewrite Nat.add_0_r; exact Hv |].
        replace (requests w + S i)%nat with (S (requests w) + i)%nat by lia.
        apply Hall. lia.
Qed.

(** X9. The retry path, whatever the upstream does and whatever
    [max_retries] is: it never raises; it issues at most [max_retries]
    requests; it returns [None] exactly when each of its [max_retries]
    attempts fails, and then it has issued all of them; a value it returns
    is the one of its first successful attempt; with [max_retries <= 0] it
    returns [None] at once and does nothing. *)
Theorem fetch_bitcoin_data_with_retry_total (net : network) (max_retries : Z) (w : world) :
  let n := Z.to_nat max_retries in
  let '(r, w') := fetch_bitcoin_data_with_retry net max_retries w in
  (exists data, r = Ok data) /\
  (requests w <= requests w' <= requests w + n)%nat /\
  (r = Ok None <->
   forall i, (i < n)%nat -> fst (attempt (net (requests w + i)%nat)) = None) /\
  (r = Ok None -> requests w' = (requests w + n)%nat) /\
  (forall v, r = Ok (Some v) ->
     exists k, (k < n)%nat /\ requests w' = (requests w + S k)%nat /\
               fst (attempt (net (requests w + k)%nat)) = Some v /\
               forall i, (i < k)%nat -> fst (attempt (net (requests w + i)%nat)) = None) /\
  (max_retries <= 0 -> r = Ok None /\ w' = w).
Proof.
  intros n. unfold fetch_bitcoin_data_with_retry. fold n.
  pose proof (retry_loop_outcome net n 0 max_retries w) as H.
  assert (Hzero : max_retries <= 0 -> retry_loop net n 0 max_retries w = (Ok None, w)).
  { intros Hle. unfold n. replace (Z.to_nat max_retries) with 0%nat by lia. reflexivity. }
  destruct (retry_loop net n 0 max_retries w) as [r w'].
  destruct H as [(Hr & Hq & Hall) | (k & v & Hk & Hr & Hq & Hok & Hall)].
  - repeat apply conj.
    + exists None. exact Hr.
    + lia.
    + lia.
    + intros _. exact Hall.
    + intros _. exact Hr.
    + intros _. exact Hq.
    + intros v Hv. rewrite Hr in Hv. discriminate.
    + intros Hle. specialize (Hzero Hle). injection Hzero as _ ->.
      split; [exact Hr | reflexivity].
  - repeat apply conj.
    + exists (Some v). exact Hr.
    + lia.
    + lia.
    + intros Hnone. rewrite Hr in Hnone. discriminate.
    + intros Hfail. rewrite (Hfail k Hk) in Hok. discriminate.
    + intros Hnone. rewrite Hr in Hnone. discriminate.
    + intros v' Hv'. rewrite Hr in Hv'. injection Hv' as <-.
      exists k. repeat split; assumption.
    + intros Hle. specialize (Hzero Hle). injection Hzero as -> ->.
      split; reflexivity.
Qed.

(** The clock never goes back during the loop. *)
Lemma retry_loop_clock_mono (net : network) (remaining : nat) :
  (forall i, 0 <= elapsed (net i)) ->
  forall (a max_retries : Z) (w : world),
    clock w <= clock (snd (retry_loop net remaining a max_retries w)).
Proof.
  intros Hnet.
  induction remaining as [| remaining IH]; intros a max_retries w; [cbn; lia |].
  rewrite retry_loop_step. cbn zeta.
  pose proof (Hnet (requests w)) as Hx.
  destruct (fst (attempt (net (requests w)))) as [v |]; [cbn; lia |].
  etransitivity; [| apply IH].
  destruct (a <? max_retries - 1); cbn; lia.
Qed.

(** After [k] failed attempts that were not the last ones of the range,
    the loop has slept [k] times. *)
Lemma retry_loop_clock_sleeps (net : network) (k : nat) :
  (forall i, 0 <= elapsed (net i)) ->
  forall (remaining a : nat) (w : world),
    (k < remaining)%nat ->
    (forall i, (i < k)%nat -> fst (attempt (net (requests w + i)%nat)) = None) ->
    let max_retries := Z.of_nat (a + remaining) in
    clock w + 2 * Z.of_nat k <=
      clock (snd (retry_loop net remaining (Z.of_nat a) max_retries w)).
Proof.
  intros Hnet.
  induction k as [| k IH]; intros remaining a w Hk Hfail max_retries.
  - rewrite Z.mul_0_r, Z.add_0_r. apply retry_loop_clock_mono. exact Hnet.
  - destruct remaining as [| remaining]; [lia |].
    rewrite retry_loop_step. cbn zeta.
    pose proof (Hfail 0%nat ltac:(lia)) as H0. rewrite Nat.add_0_r in H0. rewrite H0.
    assert (Hmore : (Z.of_nat a <? max_retries - 1) = true).
    { apply Z.ltb_lt. unfold max_retries. lia. }
    rewrite Hmore.
    set (w2 := after_sleep 2 (after_fetch (net (requests w))
                 (record (StInfoAttempt (Z.of_nat a + 1) max_retries) w))).
    specialize (IH remaining (S a) w2).
    replace (Z.of_nat (S a)) with (Z.of_nat a + 1) in IH by lia.
    replace (Z.of_nat (S a + remaining)) with max_retries in IH by (unfold max_retries; lia).
    cbn zeta in IH.
    assert (Hclock : clock w2 = clock w + elapsed (net (requests w)) + 2) by reflexivity.
    pose proof (Hnet (requests w)) as Hx.
    etransitivity; [| apply IH].
    + rewrite Hclock. lia.
    + lia.
    + intros i Hi. change (requests w2) with (S (requests w)).
      replace (S (requests w) + i)%nat with (requests w + S i)%nat by lia.
      apply Hfail. lia.
Qed.

(** X10. The retry path cannot return early. The clock of the model
    counts a [time.sleep] at the duration asked for, which is the least it
    can last, so what it measures is the least time that can have passed:
    when the first [k] attempts fail and are not the last ones of the range
    ([k < max_retries]), at least [2 * k] seconds pass before
    [fetch_bitcoin_data_with_retry] returns (4 seconds when the default
    three attempts all fail), whatever the round trips take. *)
Theorem fetch_bitcoin_data_with_retry_duration (net : network) (n k : nat) (w : world) :
  (forall i, 0 <= elapsed (net i)) ->
  (k < n)%nat ->
  (forall i, (i < k)%nat -> fst (attempt (net (requests w + i)%nat)) = None) ->
  let w' := snd (fetch_bitcoin_data_with_retry net (Z.of_nat n) w) in
  clock w + 2 * Z.of_nat k <= clock w'.
Proof.
  intros Hnet Hk Hfail w'. subst w'. unfold fetch_bitcoin_data_with_retry.
  rewrite Nat2Z.id.
  pose proof (retry_loop_clock_sleeps net k Hnet n 0%nat w Hk Hfail) as H.
  cbn zeta in H. rewrite Nat.add_0_l in H. change (Z.of_nat 0) with 0 in H.
  exact H.
Qed.

Lemma fetch_bitcoin_data_with_retry_duration_witness :
  let net := script [] (fail_with Timeout) in
  let w' := snd (fetch_bitcoin_data_with_retry net (Z.of_nat 3) blank) in
  clock blank + 2 * Z.of_nat 2 <= clock w'.
Proof.
  intros net.
  apply (fetch_bitcoin_data_with_retry_duration net 3 2 blank).
  - intros i. unfold net, script. destruct i; cbn; lia.
  - lia.
  - intros i Hi. unfold net, script. destruct i; reflexivity.
Defined.

(* ===================================================================== *)
(** ** The cached path over several runs of the page *)
(* ===================================================================== *)

Lemma sum_Z_nonneg (l : list Z) : Forall (fun d => 0 <= d) l -> 0 <= sum_Z l.
Proof.
  induction 1 as [| d l Hd Hl IH]; [cbn; lia |].
  change (sum_Z (d :: l)) with (d + sum_Z l). lia.
Qed.

(** Calls that all fall within the life of the entry are all served from
    it. *)
Lemma cached_calls_fresh (net : network) (delays : list Z) :
  forall (w : world) (entry : cache_entry),
    cache w = Some entry ->
    Forall (fun d => 0 <= d) delays ->
    clock w - stored_at entry + sum_Z delays < 30 ->
    let '(rs, w2) := cached_calls net delays w in
    rs = repeat (Ok (stored_value entry)) (length delays) /\
    requests w2 = requests w /\
    cache w2 = cache w /\
    clock w2 = clock w + sum_Z delays.
Proof.
  induction delays as [| d rest IH]; intros w entry Hc Hpos Hsum.
  - cbn. repeat split. lia.
  - inversion Hpos as [| d' rest' Hd Hrest]; subst.
    pose proof (sum_Z_nonneg rest Hrest) as Hrest0.
    cbn [cached_calls]. change (sum_Z (d :: rest)) with (d + sum_Z rest) in Hsum.
    rewrite (cached_hit net (elapse d w) entry).
    + match goal with |- context [cached_calls net rest ?w1] => set (w1' := w1) end.
      assert (Hc1 : cache w1' = Some entry) by exact Hc.
      assert (Hk1 : clock w1' = clock w + d) by reflexivity.
      assert (Hq1 : requests w1' = requests w) by reflexivity.
      assert (Hcc : cache w1' = cache w) by reflexivity.
      specialize (IH w1' entry Hc1 Hrest). rewrite Hk1, Hq1, Hcc in IH.
      specialize (IH ltac:(lia)).
      destruct (cached_calls net rest w1') as [rs w2].
      destruct IH as (Hrs & Hq & Hcache & Hclock).
      cbn [length repeat]. rewrite Hrs.
      repeat split; [exact Hq | exact Hcache |].
      rewrite Hclock. change (sum_Z (d :: rest)) with (d + sum_Z rest). lia.
    + exact Hc.
    + unfold fresh, elapse; cbn. rewrite Hc. apply Z.ltb_lt. lia.
Qed.

(** X11. Within 30 seconds of a fetch of the cached path, any number of
    further calls of the cached path (one per rerun of the page) return
    what that fetch returned, a failure as well as a payload, and the
    upstream sees no other request than the first. *)
Theorem cached_window_one_request (net : network) (w : world) (delays : list Z) :
  fresh w = false ->
  Forall (fun d => 0 <= d) delays ->
  sum_Z delays < 30 ->
  let '(r, w1) := fetch_bitcoin_data_cached net w in
  let '(rs, w2) := cached_calls net delays w1 in
  r = Ok (fst (attempt (net (requests w)))) /\
  rs = repeat r (length delays) /\
  requests w2 = S (requests w).
Proof.
  intros Hmiss Hpos Hsum.
  rewrite (cached_miss net w Hmiss). cbn beta iota zeta.
  match goal with |- context [cached_calls net delays ?w1] =>
    pose proof (cached_calls_fresh net delays w1 _ eq_refl Hpos) as H;
    cbn [clock stored_at] in H;
    destruct (cached_calls net delays w1) as [rs w2]
  end.
  destruct H as (Hrs & Hq & _ & _); [lia |].
  split; [reflexivity |]. split; [exact Hrs | exact Hq].
Qed.

Lemma cached_window_one_request_witness :
  let net := script [respond quote_without_change] (respond quote_a) in
  let '(r, w1) := fetch_bitcoin_data_cached net blank in
  let '(rs, w2) := cached_calls net [5; 0; 12; 12] w1 in
  r = Ok (fst (attempt (net (requests blank)))) /\
  rs = repeat r (length [5; 0; 12; 12]) /\
  requests w2 = S (requests blank).
Proof.
  intros net.
  apply (cached_window_one_request net blank [5; 0; 12; 12]).
  - reflexivity.
  - repeat constructor; lia.
  - cbn. lia.
Defined.

(** X12. The entry of the cached path lives for 30 seconds, to the
    second: after a fetch of the cached path, a call [d] seconds later is
    served from the store (no request) exactly when [d < 30]; from 30
    seconds on it fetches again and returns what the new request
    brings. *)
Theorem cache_expires_at_ttl (net : network) (w : world) (d : Z) :
  fresh w = false ->
  let w1 := snd (fetch_bitcoin_data_cached net w) in
  let '(r2, w2) := fetch_bitcoin_data_cached net (elapse d w1) in
  (requests w2 = requests w1 <-> d < 30) /\
  (d < 30 -> r2 = fst (fetch_bitcoin_data_cached net w)) /\
  (30 <= d -> requests w2 = S (requests w1) /\
              r2 = Ok (fst (attempt (net (requests w1))))).
Proof.
  intros Hmiss w1. subst w1.
  rewrite (cached_miss net w Hmiss). cbn zeta. cbn [snd fst].
  match goal with |- context [fetch_bitcoin_data_cached net (elapse d ?w0)] =>
    set (w1 := w0)
  end.
  assert (Hfresh : fresh (elapse d w1) = (d <? 30)).
  { unfold fresh, elapse, w1; cbn. f_equal. lia. }
  destruct (d <? 30) eqn:Hd.
  - apply Z.ltb_lt in Hd.
    rewrite (cached_hit net (elapse d w1) _ eq_refl Hfresh). cbn.
    repeat split; try lia.
  - apply Z.ltb_ge in Hd.
    rewrite (cached_miss net (elapse d w1) Hfresh). cbn.
    repeat split; try lia.
Qed.

Lemma cache_expires_at_ttl_witness :
  let net := script [respond quote_b] (respond quote_a) in
  let w1 := snd (fetch_bitcoin_data_cached net blank) in
  let '(r2, w2) := fetch_bitcoin_data_cached net (elapse 30 w1) in
  (requests w2 = requests w1 <-> 30 < 30) /\
  (30 < 30 -> r2 = fst (fetch_bitcoin_data_cached net blank)) /\
  (30 <= 30 -> requests w2 = S (requests w1) /\
               r2 = Ok (fst (attempt (net (requests w1))))).
Proof.
  intros net.
  apply (cache_expires_at_ttl net blank 30). reflexivity.
Defined.

(* ===================================================================== *)
(** ** The countdown of [setup_auto_refresh] *)
(* ===================================================================== *)

Lemma countdown_spec (remaining : nat) :
  forall (i : Z) (p : page),
    page_clock (countdown remaining i p) = page_clock p + Z.of_nat remaining /\
    rev (page_log (countdown remaining i p)) =
      rev (page_log p) ++
      flat_map (fun j => [CountdownInfo j; PageSleep 1])
               (map (fun k => i - Z.of_nat k) (seq 0 remaining)).
Proof.
  induction remaining as [| remaining IH]; intros i p.
  - cbn. rewrite app_nil_r. split; [lia | reflexivity].
  - cbn [countdown].
    match goal with |- context [countdown remaining (i - 1) ?q] =>
      destruct (IH (i - 1) q) as [Hclock Hlog]
    end.
    rewrite Hclock, Hlog. cbn [page_clock page_log]. split; [lia |].
    cbn [rev]. rewrite <- !app_assoc. f_equal.
    cbn [seq map flat_map]. rewrite Z.sub_0_r. cbn [app]. do 2 f_equal.
    rewrite <- seq_shift, map_map. f_equal.
    apply map_ext. intros k. lia.
Qed.

(** X13. [setup_auto_refresh(n)]: with [n <= 0] it does nothing and
    returns (no rerun is requested). With [n > 0] it never returns: it
    shows the countdown [n], [n - 1], ..., 1 (never 0), sleeps one second
    after each number ([n] seconds in all), empties the placeholder and
    ends the run of the script with [st.rerun()]. *)
Theorem setup_auto_refresh_countdown (refresh_interval : Z) (p : page) :
  (refresh_interval <= 0 -> setup_auto_refresh refresh_interval p = (Returns, p)) /\
  (0 < refresh_interval ->
   let '(e, p') := setup_auto_refresh refresh_interval p in
   e = Reruns /\
   page_clock p' = page_clock p + refresh_interval /\
   placeholder p' = None /\
   rev (page_log p') =
     rev (page_log p) ++ [StEmpty] ++
     flat_map (fun j => [CountdownInfo j; PageSleep 1]) (range_down refresh_interval) ++
     [PlaceholderEmpty; StRerun] /\
   Forall (fun j => 1 <= j <= refresh_interval) (range_down refresh_interval) /\
   length (range_down refresh_interval) = Z.to_nat refresh_interval).
Proof.
  unfold setup_auto_refresh. split.
  - intros Hle. destruct (0 <? refresh_interval) eqn:H; [| reflexivity].
    apply Z.ltb_lt in H. lia.
  - intros Hpos. apply Z.ltb_lt in Hpos as Hb. rewrite Hb.
    match goal with |- context [countdown ?r ?i ?q] =>
      destruct (countdown_spec r i q) as [Hclock Hlog]
    end.
    cbn [page_clock page_log placeholder]. rewrite Hclock. cbn [page_clock].
    repeat apply conj.
    + reflexivity.
    + lia.
    + reflexivity.
    + cbn [rev]. rewrite Hlog. cbn [page_log rev]. unfold range_down.
      rewrite <- !app_assoc. reflexivity.
    + unfold range_down. apply List.Forall_forall. intros j Hj.
      apply in_map_iff in Hj as (k & <- & Hk). apply in_seq in Hk. lia.
    + unfold range_down. rewrite List.length_map, List.length_seq. reflexivity.
Qed.

Lemma setup_auto_refresh_countdown_witness :
  let p := {| page_clock := 100; placeholder := None; page_log := [] |} in
  setup_auto_refresh 0 p = (Returns, p) /\
  (let '(e, p') := setup_auto_refresh 3 p in
   e = Reruns /\
   page_clock p' = page_clock p + 3 /\
   placeholder p' = None /\
   rev (page_log p') =
     rev (page_log p) ++ [StEmpty] ++
     flat_map (fun j => [CountdownInfo j; PageSleep 1]) (range_down 3) ++
     [PlaceholderEmpty; StRerun] /\
   Forall (fun j => 1 <= j <= 3) (range_down 3) /\
   length (range_down 3) = Z.to_nat 3).
Proof.
  intros p. split.
  - apply (proj1 (setup_auto_refresh_countdown 0 p)). lia.
  - apply (proj2 (setup_auto_refresh_countdown 3 p)). lia.
Defined.

(* ===================================================================== *)
(** ** Formatting *)
(* ===================================================================== *)

Lemma string_app_assoc (a b c : string) : (a +:+ b) +:+ c = a +:+ (b +:+ c).
Proof.
  induction a as [| x a IH]; [reflexivity |].
  change (String x ((a +:+ b) +:+ c) = String x (a +:+ (b +:+ c))).
  rewrite IH. reflexivity.
Qed.

Lemma digit_value_char (d : N) : (d < 10)%N -> digit_value (pretty_N_char d) = Some d.
Proof.
  intros H. destruct d as [| p]; [reflexivity |].
  do 4 (destruct p as [p | p |]; try reflexivity; try lia).
Qed.

Lemma digit_not_separator (c : ascii) (d : N) :
  digit_value c = Some d ->
  Ascii.eqb c "," = false /\ Ascii.eqb c "." = false /\ Ascii.eqb c "-" = false.
Proof.
  destruct c as [[] [] [] [] [] [] [] []]; vm_compute; intros H;
    try discriminate H; repeat split.
Qed.

Lemma mod_10_digit (x : N) : (x mod 10 < 10)%N.
Proof. apply N.mod_lt. discriminate. Qed.

(** *** The decimal numeral of an integer *)

Lemma pretty_go_app (x : N) :
  forall s, pretty_N_go x s = pretty_N_go x EmptyString +:+ s.
Proof.
  induction (N.lt_wf_0 x) as [x _ IH]; intros s.
  destruct (N.eq_dec x 0%N) as [-> | Hx].
  - rewrite !pretty_N_go_0. reflexivity.
  - assert (Hlt : (x / 10 < x)%N) by (apply N.div_lt; lia).
    rewrite (pretty_N_go_step x s), (pretty_N_go_step x EmptyString) by lia.
    rewrite (IH _ Hlt (String _ s)), (IH _ Hlt (String _ EmptyString)).
    rewrite string_app_assoc. reflexivity.
Qed.

Lemma pretty_go_digits (x : N) :
  forall s, all_digits (pretty_N_go x s) = all_digits s.
Proof.
  induction (N.lt_wf_0 x) as [x _ IH]; intros s.
  destruct (N.eq_dec x 0%N) as [-> | Hx].
  - rewrite pretty_N_go_0. reflexivity.
  - assert (Hlt : (x / 10 < x)%N) by (apply N.div_lt; lia).
    rewrite (pretty_N_go_step x s) by lia. rewrite (IH _ Hlt).
    cbn [all_digits]. rewrite (digit_value_char _ (mod_10_digit x)). reflexivity.
Qed.

Lemma pretty_unfold (x : N) :
  pretty x = if N.eqb x 0%N then "0" else pretty_N_go x EmptyString.
Proof.
  unfold pretty, pretty_N. destruct (decide (x = 0%N)) as [-> | Hx]; [reflexivity |].
  apply N.eqb_neq in Hx. rewrite Hx. reflexivity.
Qed.

Lemma pretty_digits (x : N) : all_digits (pretty x) = true.
Proof.
  rewrite pretty_unfold. destruct (N.eqb x 0%N); [reflexivity |].
  apply pretty_go_digits.
Qed.

Lemma pretty_not_empty (x : N) : exists c rest, pretty x = String c rest.
Proof.
  rewrite pretty_unfold. destruct (N.eqb x 0%N) eqn:Hx; [eexists; eexists; reflexivity |].
  apply N.eqb_neq in Hx. rewrite pretty_N_go_step by lia. rewrite pretty_go_app.
  destruct (pretty_N_go (x / 10)%N EmptyString); cbn; eexists; eexists; reflexivity.
Qed.

Lemma string_app_cons (c : ascii) (s t : string) :
  String c s +:+ t = String c (s +:+ t).
Proof. reflexivity. Qed.

Lemma read_digit (c : ascii) (d : N) (rest : string) (acc : N) (decimals : option nat) :
  digit_value c = Some d ->
  read_digits (String c rest) acc decimals =
    read_digits rest (10 * acc + d)%N (option_map S decimals).
Proof.
  intros Hd. destruct (digit_not_separator _ _ Hd) as (Hc & Hp & _).
  cbn [read_digits]. rewrite Hc, Hp, Hd. reflexivity.
Qed.

Lemma read_comma (rest : string) (acc : N) :
  read_digits (String "," rest) acc None = read_digits rest acc None.
Proof. reflexivity. Qed.

Lemma read_point (rest : string) (acc : N) :
  read_digits (String "." rest) acc None = read_digits rest acc (Some O).
Proof. reflexivity. Qed.

(** *** Reading a numeral back *)

Lemma read_pretty_go (x : N) :
  exists k : N, forall s acc,
    read_digits (pretty_N_go x s) acc None = read_digits s (acc * 10 ^ k + x)%N None.
Proof.
  induction (N.lt_wf_0 x) as [x _ IH].
  destruct (N.eq_dec x 0%N) as [-> | Hx].
  - exists 0%N. intros s acc. rewrite pretty_N_go_0. f_equal. cbn. lia.
  - assert (Hlt : (x / 10 < x)%N) by (apply N.div_lt; lia).
    destruct (IH _ Hlt) as [k Hk]. exists (k + 1)%N. intros s acc.
    rewrite pretty_N_go_step by lia. rewrite Hk.
    rewrite (read_digit _ _ _ _ _ (digit_value_char _ (mod_10_digit x))).
    cbn [option_map]. f_equal.
    rewrite N.pow_add_r, N.pow_1_r.
    pose proof (N.div_mod x 10%N ltac:(discriminate)). lia.
Qed.

Lemma read_pretty (x : N) (t : string) :
  read_digits (pretty x +:+ t) 0%N None = read_digits t x None.
Proof.
  rewrite pretty_unfold. destruct (N.eqb x 0%N) eqn:Hx.
  - apply N.eqb_eq in Hx. subst x. reflexivity.
  - rewrite <- pretty_go_app. destruct (read_pretty_go x) as [k Hk].
    rewrite Hk. f_equal.
Qed.

Lemma read_group (s : string) :
  forall (t : string) (acc : N),
    all_digits s = true ->
    read_digits (group_thousands s +:+ t) acc None = read_digits (s +:+ t) acc None.
Proof.
  induction s as [| c rest IH]; intros t acc Hs; [reflexivity |].
  cbn [all_digits] in Hs. destruct (digit_value c) as [d |] eqn:Hd; [| discriminate].
  cbn [group_thousands]. rewrite !string_app_cons, !(read_digit c d) by exact Hd.
  cbn [option_map].
  destruct ((0 <? String.length rest)%nat && (String.length rest mod 3 =? 0)%nat).
  - rewrite string_app_cons, read_comma. apply IH. exact Hs.
  - apply IH. exact Hs.
Qed.

Lemma read_last_digits (count : nat) :
  forall (n : N) (rest : string) (acc : N) (j : nat),
    read_digits (last_digits count n rest) acc (Some j) =
      read_digits rest (acc * 10 ^ N.of_nat count + n mod 10 ^ N.of_nat count)%N
                  (Some (j + count)%nat).
Proof.
  induction count as [| count IH]; intros n rest acc j.
  - cbn [last_digits]. rewrite Nat.add_0_r. f_equal.
    change (10 ^ N.of_nat 0)%N with 1%N. rewrite N.mod_1_r. lia.
  - cbn [last_digits]. rewrite IH.
    rewrite (read_digit _ _ _ _ _ (digit_value_char _ (mod_10_digit n))).
    cbn [option_map]. f_equal.
    + replace (N.of_nat (S count)) with (N.of_nat count + 1)%N by lia.
      rewrite N.pow_add_r, N.pow_1_r.
      rewrite (N.mul_comm (10 ^ N.of_nat count)%N 10%N), (N.Div0.mod_mul_r n 10%N). lia.
    + f_equal. lia.
Qed.

(** A numeral written by [fixed_point] reads as the integer it was
    written from, with [digits] decimals. *)
Lemma read_fixed_point (grouping : bool) (digits : nat) (scaled : N) :
  read_digits (fixed_point grouping digits scaled) 0%N None = Some (scaled, digits).
Proof.
  unfold fixed_point.
  assert (Hread : forall t,
            read_digits ((if grouping
                          then group_thousands (pretty (scaled / 10 ^ N.of_nat digits)%N)
                          else pretty (scaled / 10 ^ N.of_nat digits)%N) +:+ t) 0%N None =
            read_digits t (scaled / 10 ^ N.of_nat digits)%N None).
  { intros t. destruct grouping; [rewrite read_group by apply pretty_digits |];
      apply read_pretty. }
  rewrite Hread. destruct digits as [| digits].
  - cbn. f_equal. f_equal. apply N.div_1_r.
  - rewrite read_point, read_last_digits. cbn [read_digits Nat.add]. f_equal. f_equal.
    pose proof (N.div_mod scaled (10 ^ N.of_nat (S digits))%N
                  ltac:(apply N.pow_nonzero; discriminate)). lia.
Qed.

(** *** No minus sign among the digits *)

Lemma has_char_app (c : ascii) (a b : string) :
  has_char c (a +:+ b) = has_char c a || has_char c b.
Proof.
  induction a as [| x a IH]; [reflexivity |].
  change (has_char c (String x (a +:+ b)) = has_char c (String x a) || has_char c b).
  cbn [has_char]. rewrite IH. apply orb_assoc.
Qed.

Lemma str_contains_char (c : ascii) (s : string) :
  str_contains (String c EmptyString) s = has_char c s.
Proof.
  induction s as [| x s IH]; [reflexivity |].
  cbn [str_contains has_char String.prefix]. rewrite IH.
  destruct (ascii_dec c x) as [-> | Hne].
  - rewrite Ascii.eqb_refl. destruct s; reflexivity.
  - apply Ascii.eqb_neq in Hne. rewrite Hne. reflexivity.
Qed.

Lemma digits_no_dash (s : string) : all_digits s = true -> has_char "-" s = false.
Proof.
  induction s as [| c rest IH]; [reflexivity |].
  cbn [all_digits has_char]. destruct (digit_value c) as [d |] eqn:Hd; [| discriminate].
  destruct (digit_not_separator _ _ Hd) as (_ & _ & Hm).
  rewrite Ascii.eqb_sym, Hm. exact IH.
Qed.

Lemma group_no_dash (s : string) :
  has_char "-" (group_thousands s) = has_char "-" s.
Proof.
  induction s as [| c rest IH]; [reflexivity |].
  cbn [group_thousands has_char].
  destruct ((0 <? String.length rest)%nat && (String.length rest mod 3 =? 0)%nat);
    cbn [has_char]; rewrite IH; reflexivity.
Qed.

Lemma last_digits_no_dash (count : nat) :
  forall n rest, has_char "-" (last_digits count n rest) = has_char "-" rest.
Proof.
  induction count as [| count IH]; intros n rest; [reflexivity |].
  cbn [last_digits]. rewrite IH. cbn [has_char].
  pose proof (digit_value_char _ (mod_10_digit n)) as Hd.
  destruct (digit_not_separator _ _ Hd) as (_ & _ & Hm).
  rewrite Ascii.eqb_sym, Hm. reflexivity.
Qed.

Lemma fixed_point_no_dash (grouping : bool) (digits : nat) (scaled : N) :
  has_char "-" (fixed_point grouping digits scaled) = false.
Proof.
  unfold fixed_point. rewrite has_char_app.
  assert (Hw : has_char "-" (if grouping
                             then group_thousands (pretty (scaled / 10 ^ N.of_nat digits)%N)
                             else pretty (scaled / 10 ^ N.of_nat digits)%N) = false).
  { destruct grouping; [rewrite group_no_dash |]; apply digits_no_dash, pretty_digits. }
  rewrite Hw. destruct digits as [| digits]; [reflexivity |].
  cbn [has_char orb]. change (Ascii.eqb "-" ".") with false.
  rewrite last_digits_no_dash. reflexivity.
Qed.

Lemma fixed_point_head (grouping : bool) (digits : nat) (scaled : N) :
  exists c rest,
    fixed_point grouping digits scaled = String c rest /\ Ascii.eqb c "-" = false.
Proof.
  pose proof (fixed_point_no_dash grouping digits scaled) as Hno.
  assert (Hne : exists c rest, fixed_point grouping digits scaled = String c rest).
  { unfold fixed_point.
    destruct (pretty_not_empty (scaled / 10 ^ N.of_nat digits)%N) as (c & rest & ->).
    destruct grouping; cbn; eexists; eexists; reflexivity. }
  destruct Hne as (c & rest & Heq). exists c, rest. split; [exact Heq |].
  rewrite Heq in Hno. cbn [has_char] in Hno. apply orb_false_iff in Hno as [Hc _].
  rewrite Ascii.eqb_sym. exact Hc.
Qed.

Lemma read_signed (negative grouping : bool) (digits : nat) (scaled : N) :
  read_number (sign_text negative +:+ fixed_point grouping digits scaled) =
    Some (Qmake (cond_Zopp negative (Z.of_N scaled)) (Z.to_pos (10 ^ Z.of_nat digits))).
Proof.
  assert (Hu : read_unsigned (fixed_point grouping digits scaled) =
               Some (Qmake (Z.of_N scaled) (Z.to_pos (10 ^ Z.of_nat digits)))).
  { unfold read_unsigned. rewrite read_fixed_point. reflexivity. }
  destruct negative.
  - change (read_number (sign_text true +:+ fixed_point grouping digits scaled))
      with (option_map Qopp (read_unsigned (fixed_point grouping digits scaled))).
    rewrite Hu. reflexivity.
  - change (sign_text false +:+ fixed_point grouping digits scaled)
      with (fixed_point grouping digits scaled).
    cbn [cond_Zopp]. rewrite <- Hu.
    destruct (fixed_point_head grouping digits scaled) as (c & rest & Heq & Hc).
    rewrite Heq. unfold read_number. rewrite Hc. reflexivity.
Qed.

(** *** Rounding to the nearest integer *)

Lemma round_half_even_close (a b : Z) :
  0 < b -> 2 * Z.abs (round_half_even a b * b - a) <= b.
Proof.
  intros Hb. unfold round_half_even.
  pose proof (Z.div_mod a b ltac:(lia)) as Hdm.
  pose proof (Z.mod_pos_bound a b Hb) as Hr.
  destruct (Z.compare_spec (2 * (a mod b)) b) as [Heq | Hlt | Hgt].
  - destruct (Z.even (a / b)); nia.
  - nia.
  - nia.
Qed.

Lemma round_half_even_exact (a b : Z) :
  0 < b -> a mod b = 0 -> round_half_even a b * b = a.
Proof.
  intros Hb Hm. unfold round_half_even.
  pose proof (Z.div_mod a b ltac:(lia)) as Hdm. rewrite Hm.
  destruct (Z.compare_spec (2 * 0) b) as [Heq | Hlt | Hgt]; nia.
Qed.

Lemma round_half_even_nonneg (a b : Z) :
  0 <= a -> 0 < b -> 0 <= round_half_even a b.
Proof.
  intros Ha Hb. unfold round_half_even.
  pose proof (Z.div_pos a b Ha Hb).
  destruct (2 * (a mod b) ?= b); [destruct (Z.even (a / b)) | |]; lia.
Qed.

(** *** What [format_price] shows *)

Lemma scaled_close_Z (s : bool) (Nz m D B : Z) :
  0 < D -> 0 < B ->
  2 * Z.abs (Nz * B - m * D) <= B ->
  Z.abs (cond_Zopp s Nz * B + - cond_Zopp s m * D) * (2 * D) <= D * B.
Proof.
  intros HD HB Hclose.
  assert (Habs : Z.abs (cond_Zopp s Nz * B + - cond_Zopp s m * D) = Z.abs (Nz * B - m * D)).
  { destruct s; cbn [cond_Zopp]; lia. }
  rewrite Habs. nia.
Qed.

(** *** The shape of what [format_price] writes *)

Lemma is_digit_char (d : N) : (d < 10)%N -> is_digit (pretty_N_char d) = true.
Proof. intros H. unfold is_digit. rewrite (digit_value_char d H). reflexivity. Qed.

Lemma all_digits_cons (c : ascii) (s : string) :
  all_digits (String c s) = true -> is_digit c = true /\ all_digits s = true.
Proof.
  cbn [all_digits]. unfold is_digit. destruct (digit_value c); [| discriminate].
  intros H. split; [reflexivity | exact H].
Qed.

Lemma mod3_of (k j : nat) : (j < 3)%nat -> ((3 * k + j) mod 3 = j)%nat.
Proof.
  intros Hj. rewrite Nat.add_comm, Nat.mul_comm, Nat.Div0.mod_add.
  apply Nat.mod_small. exact Hj.
Qed.

Lemma group_thousands_cons (c : ascii) (rest : string) :
  group_thousands (String c rest) = String c (comma_tail rest).
Proof. reflexivity. Qed.

Lemma comma_tail_inside (k j : nat) (rest : string) :
  String.length rest = (3 * k + j)%nat -> (0 < j < 3)%nat ->
  comma_tail rest = group_thousands rest.
Proof.
  intros Hlen Hj. unfold comma_tail. rewrite Hlen, mod3_of by lia.
  destruct j as [| [| j]]; [lia | | ]; rewrite andb_false_r; reflexivity.
Qed.

Lemma comma_tail_groups (k : nat) :
  forall rest,
    String.length rest = (3 * k)%nat ->
    all_digits rest = true ->
    comma_groups (comma_tail rest) = true.
Proof.
  induction k as [| k IH]; intros rest Hlen Hd.
  - destruct rest; [reflexivity | discriminate Hlen].
  - destruct rest as [| c1 [| c2 [| c3 r3]]]; cbn [String.length] in Hlen; try lia.
    assert (Hr3 : String.length r3 = (3 * k)%nat) by lia.
    apply all_digits_cons in Hd as [H1 Hd]. apply all_digits_cons in Hd as [H2 Hd].
    apply all_digits_cons in Hd as [H3 Hd].
    unfold comma_tail at 1. cbn [String.length].
    replace (S (S (S (String.length r3)))) with (3 * S k + 0)%nat by lia.
    rewrite mod3_of by lia.
    replace (0 <? 3 * S k + 0)%nat with true by (symmetry; apply Nat.ltb_lt; lia).
    cbn [andb Nat.eqb].
    rewrite group_thousands_cons.
    rewrite (comma_tail_inside k 2) by (cbn [String.length]; lia).
    rewrite group_thousands_cons.
    rewrite (comma_tail_inside k 1) by (cbn [String.length]; lia).
    rewrite group_thousands_cons.
    cbn [comma_groups]. rewrite H1, H2, H3, (IH r3 Hr3 Hd). reflexivity.
Qed.

(** The grouped form of a numeral without a leading zero is a grouped
    integer. *)
Lemma grouped_digits (s : string) (c : ascii) (rest : string) :
  s = String c rest ->
  all_digits s = true ->
  (Ascii.eqb c "0" = false \/ rest = EmptyString) ->
  grouped_integer (group_thousands s) = true.
Proof.
  intros -> Hd Hzero.
  apply all_digits_cons in Hd as [H1 Hd].
  pose proof (Nat.div_mod_eq (String.length rest) 3) as Hlen.
  pose proof (Nat.mod_upper_bound (String.length rest) 3 ltac:(lia)) as Hj.
  set (k := (String.length rest / 3)%nat) in *.
  set (j := (String.length rest mod 3)%nat) in *.
  rewrite group_thousands_cons. cbn [grouped_integer]. rewrite H1. cbn [andb].
  assert (Hlead : negb (Ascii.eqb c "0") || String.eqb (comma_tail rest) EmptyString = true).
  { destruct Hzero as [Hc | ->]; [rewrite Hc; reflexivity |].
    apply orb_true_r. }
  rewrite Hlead. cbn [andb].
  destruct j as [| [| [| j]]]; [| | | lia].
  - rewrite (comma_tail_groups k rest) by (try exact Hd; lia). reflexivity.
  - destruct rest as [| c2 rest2]; [cbn [String.length] in Hlen; lia |].
    cbn [String.length] in Hlen.
    apply all_digits_cons in Hd as [H2 Hd].
    rewrite (comma_tail_inside k 1) by (cbn [String.length]; lia).
    rewrite group_thousands_cons, H2.
    rewrite (comma_tail_groups k rest2) by (try exact Hd; lia).
    cbn [andb orb]. apply orb_true_r.
  - destruct rest as [| c2 [| c3 rest3]]; cbn [String.length] in Hlen; try lia.
    apply all_digits_cons in Hd as [H2 Hd]. apply all_digits_cons in Hd as [H3 Hd].
    rewrite (comma_tail_inside k 2) by (cbn [String.length]; lia).
    rewrite group_thousands_cons, H2.
    rewrite (comma_tail_inside k 1) by (cbn [String.length]; lia).
    rewrite group_thousands_cons, H3.
    rewrite (comma_tail_groups k rest3) by (try exact Hd; lia).
    cbn [andb orb]. rewrite !orb_true_r. reflexivity.
Qed.

(** A numeral starts with 0 only when it is "0". *)
Lemma pretty_go_leading (x : N) :
  (0 < x)%N ->
  forall s, exists c rest, pretty_N_go x s = String c rest /\ Ascii.eqb c "0" = false.
Proof.
  induction (N.lt_wf_0 x) as [x _ IH]; intros Hx s.
  rewrite pretty_N_go_step by exact Hx.
  destruct (N.eq_dec (x / 10)%N 0%N) as [Hz | Hnz].
  - rewrite Hz, pretty_N_go_0. eexists; eexists; split; [reflexivity |].
    assert (Hsmall : (x < 10)%N).
    { apply N.div_small_iff in Hz; [exact Hz | discriminate]. }
    rewrite N.mod_small by exact Hsmall.
    destruct x as [| p]; [lia |].
    do 4 (destruct p as [p | p |]; try reflexivity; try lia).
  - apply IH; [apply N.div_lt; lia | apply N.neq_0_lt_0; exact Hnz].
Qed.

Lemma pretty_leading (x : N) :
  exists c rest,
    pretty x = String c rest /\ (Ascii.eqb c "0" = false \/ rest = EmptyString).
Proof.
  rewrite pretty_unfold. destruct (N.eqb x 0%N) eqn:Hx.
  - eexists; eexists; split; [reflexivity | right; reflexivity].
  - apply N.eqb_neq in Hx.
    destruct (pretty_go_leading x ltac:(lia) EmptyString) as (c & rest & Heq & Hc).
    exists c, rest. split; [exact Heq | left; exact Hc].
Qed.

Lemma digits_no_point (s : string) : all_digits s = true -> has_char "." s = false.
Proof.
  induction s as [| c rest IH]; [reflexivity |].
  cbn [all_digits has_char]. destruct (digit_value c) as [d |] eqn:Hd; [| discriminate].
  destruct (digit_not_separator _ _ Hd) as (_ & Hp & _).
  rewrite Ascii.eqb_sym, Hp. exact IH.
Qed.

Lemma group_no_point (s : string) :
  has_char "." (group_thousands s) = has_char "." s.
Proof.
  induction s as [| c rest IH]; [reflexivity |].
  cbn [group_thousands has_char].
  destruct ((0 <? String.length rest)%nat && (String.length rest mod 3 =? 0)%nat);
    cbn [has_char]; rewrite IH; reflexivity.
Qed.

Lemma split_at_first_point (a b : string) :
  has_char "." a = false ->
  split_at_point (a +:+ String "." b) = (a, String "." b).
Proof.
  induction a as [| c a IH]; intros Hno; [reflexivity |].
  cbn [has_char] in Hno. apply orb_false_iff in Hno as [Hc Hno].
  rewrite string_app_cons. cbn [split_at_point].
  rewrite Ascii.eqb_sym, Hc, (IH Hno). reflexivity.
Qed.

(** The text [format_price] writes for a finite amount has the shape of a
    price. *)
Lemma price_text_shape (negative : bool) (scaled : N) :
  price_shape ("$" +:+ sign_text negative +:+ fixed_point true 2 scaled) = true.
Proof.
  assert (Hshape : forall u,
            u = fixed_point true 2 scaled ->
            (let '(whole, decimals) := split_at_point u in
             grouped_integer whole && two_decimals decimals) = true).
  { intros u ->. unfold fixed_point.
    destruct (pretty_leading (scaled / 10 ^ N.of_nat 2)%N) as (c & rest & Heq & Hzero).
    pose proof (pretty_digits (scaled / 10 ^ N.of_nat 2)%N) as Hd.
    rewrite split_at_first_point
      by (rewrite group_no_point; apply digits_no_point; exact Hd).
    rewrite (grouped_digits _ c rest Heq Hd Hzero).
    cbn [last_digits two_decimals andb].
    change (Ascii.eqb "." ".") with true.
    rewrite !is_digit_char by apply mod_10_digit. reflexivity. }
  destruct negative.
  - exact (Hshape _ eq_refl).
  - change ("$" +:+ sign_text false +:+ fixed_point true 2 scaled)
      with (String "$" (fixed_point true 2 scaled)).
    destruct (fixed_point_head true 2 scaled) as (c & rest & Heq & Hc).
    specialize (Hshape _ eq_refl). rewrite Heq in Hshape |- *.
    cbn [price_shape]. change (Ascii.eqb "$" "$") with true. rewrite Hc.
    exact Hshape.
Qed.

Lemma round_half_even_tie (a b : Z) :
  0 < b -> 2 * Z.abs (round_half_even a b * b - a) = b ->
  Z.even (round_half_even a b) = true.
Proof.
  intros Hb. unfold round_half_even.
  pose proof (Z.div_mod a b ltac:(lia)) as Hdm.
  pose proof (Z.mod_pos_bound a b Hb) as Hr.
  destruct (Z.compare_spec (2 * (a mod b)) b) as [Heq | Hlt | Hgt].
  - destruct (Z.even (a / b)) eqn:He; [intros _; exact He |].
    intros _. rewrite Z.even_add, He. reflexivity.
  - intros H. exfalso. nia.
  - intros H. exfalso. nia.
Qed.

(** The digits printed for a finite float stand for a number within half
    a unit of the last digit of the float, for the float itself when it
    has no more decimals than are printed, and for the even neighbour when
    the float lies midway between two. *)
Lemma scaled_magnitude_close (digits : nat) (s : bool) (m : positive) (e : Z) :
  let d := Z.to_pos (10 ^ Z.of_nat digits) in
  let r := Qmake (cond_Zopp s (Z.of_N (scaled_magnitude digits m e))) d in
  (Qabs (r - float_Q s m e) <= 1 # (2 * d))%Q /\
  (forall c : Z, (float_Q s m e == c # d)%Q -> (r == float_Q s m e)%Q) /\
  ((Qabs (r - float_Q s m e) == 1 # (2 * d))%Q -> exists c : Z, (r == 2 * c # d)%Q).
Proof.
  intros d r. subst r.
  assert (HD : 0 < 10 ^ Z.of_nat digits) by (apply Z.pow_pos_nonneg; lia).
  assert (Hd : Zpos d = 10 ^ Z.of_nat digits) by (unfold d; apply Z2Pos.id; exact HD).
  assert (Hsame : forall x y : Q, (x == y)%Q ->
            (Qabs (x - y) <= 1 # (2 * d))%Q /\
            (forall c : Z, (y == c # d)%Q -> (x == y)%Q) /\
            ((Qabs (x - y) == 1 # (2 * d))%Q -> exists c : Z, (x == 2 * c # d)%Q)).
  { intros x y Heq. split; [| split].
    - rewrite Heq. unfold Qminus. rewrite Qplus_opp_r. discriminate.
    - intros c _. exact Heq.
    - rewrite Heq. unfold Qminus. rewrite Qplus_opp_r. intros H. discriminate H. }
  unfold scaled_magnitude, float_Q.
  destruct e as [| p | p].
  - (* an integer *)
    rewrite Z2N.id by lia. rewrite Z.pow_0_r, Z.mul_1_r.
    apply Hsame.
    unfold Qeq, inject_Z; cbn [Qnum Qden]. rewrite Hd. destruct s; cbn [cond_Zopp]; lia.
  - (* an integer *)
    assert (Hp : 0 < 2 ^ Zpos p) by (apply Z.pow_pos_nonneg; lia).
    rewrite Z2N.id by nia.
    apply Hsame.
    unfold Qeq, inject_Z; cbn [Qnum Qden]. rewrite Hd, Pos2Z.inj_pow.
    destruct s; cbn [cond_Zopp]; lia.
  - (* a fraction with denominator 2^p *)
    set (B := Zpos (2 ^ p)).
    set (a := Zpos m * 10 ^ Z.of_nat digits).
    assert (HB : 0 < B) by (unfold B; lia).
    assert (Ha : 0 <= a) by (unfold a; nia).
    pose proof (round_half_even_close a B HB) as Hclose.
    pose proof (round_half_even_nonneg a B Ha HB) as Hnn.
    pose proof (round_half_even_tie a B HB) as Htie.
    rewrite Z2N.id by exact Hnn.
    set (Nz := round_half_even a B) in *.
    split; [| split].
    + unfold Qle, Qabs, Qminus, Qplus, Qopp; cbn [Qnum Qden].
      rewrite !Pos2Z.inj_mul, Hd. fold B. rewrite Z.mul_1_l.
      change (Z.pos 2) with 2.
      apply scaled_close_Z; [exact HD | exact HB |]. exact Hclose.
    + intros c Hc. unfold Qeq in Hc |- *; cbn [Qnum Qden] in Hc |- *.
      rewrite Hd in Hc |- *. fold B in Hc |- *.
      assert (Hmod : a mod B = 0).
      { apply Z.mod_divide; [lia |].
        exists (cond_Zopp s c). unfold a.
        destruct s; cbn [cond_Zopp] in Hc |- *; lia. }
      pose proof (round_half_even_exact a B HB Hmod) as Hex. fold Nz in Hex.
      unfold a in Hex. destruct s; cbn [cond_Zopp]; lia.
    + intros Hhalf.
      unfold Qeq, Qabs, Qminus, Qplus, Qopp in Hhalf; cbn [Qnum Qden] in Hhalf.
      rewrite !Pos2Z.inj_mul, Hd in Hhalf. fold B in Hhalf. rewrite Z.mul_1_l in Hhalf.
      change (Z.pos 2) with 2 in Hhalf.
      assert (Habs : Z.abs (cond_Zopp s Nz * B + - cond_Zopp s (Zpos m) * 10 ^ Z.of_nat digits)
                     = Z.abs (Nz * B - a)).
      { unfold a. destruct s; cbn [cond_Zopp]; lia. }
      rewrite Habs in Hhalf.
      assert (Heven : Z.even Nz = true) by (apply Htie; nia).
      apply Z.even_spec in Heven as [c Hc].
      exists (cond_Zopp s c). unfold Qeq; cbn [Qnum Qden].
      rewrite Hc. destruct s; cbn [cond_Zopp]; lia.
Qed.



(** *** What [format_change] shows *)

Lemma float_of_int_abs (z : Z) (f : float) :
  float_of_int (Z.abs z) = Some f ->
  f = S754_zero false \/ exists m e, f = S754_finite false m e.
Proof.
  unfold float_of_int, binary_normalize.
  destruct (Z.abs z) as [| p | p] eqn:Hz; [| | lia].
  - intros [= <-]. left. reflexivity.
  - pose proof (round_exact false p 0 ltac:(lia)) as H.
    change prec with 53. change emax with 1024.
    destruct (binary_round 53 1024 false p 0) as [s | s | | s m e]; try contradiction.
    + discriminate.
    + destruct H as (-> & _). intros [= <-]. right. exists m, e. reflexivity.
Qed.

Lemma format_abs_no_dash (grouping : bool) (digits : nat) (x : number) (text : string) :
  py_format_f grouping digits (py_abs x) = Ok text -> has_char "-" text = false.
Proof.
  unfold py_format_f. destruct x as [z | f]; cbn [py_abs to_float].
  - destruct (float_of_int (Z.abs z)) as [f |] eqn:Hf; [| discriminate].
    unfold mbind, result_bind. intros [= <-].
    destruct (float_of_int_abs z f Hf) as [-> | (m & e & ->)]; cbn [format_float];
      change (sign_text false +:+ ?X) with X; apply fixed_point_no_dash.
  - unfold mbind, result_bind. intros [= <-].
    destruct f as [s | s | | s m e]; cbn [SFabs format_float];
      try reflexivity; change (sign_text false +:+ ?X) with X; apply fixed_point_no_dash.
Qed.

(** X15. The change line shows magnitudes only: whatever the two numbers
    are, the text [format_change] returns holds no minus sign; the
    direction is told by the icon and the word alone. On two floats
    [format_change] always returns a text. *)
Theorem format_change_shows_magnitudes (change_percent change_amount : number) :
  (forall text,
     format_change change_percent change_amount = Ok text ->
     str_contains "-" text = false) /\
  (forall p a : float, exists text, format_change (NFloat p) (NFloat a) = Ok text).
Proof.
  split.
  - intros text. unfold format_change.
    destruct (py_format_f false 2 (py_abs change_percent)) as [percent | e1] eqn:Hp;
      [| destruct (change_direction change_percent); discriminate].
    destruct (py_format_f false 2 (py_abs change_amount)) as [amount | e2] eqn:Ha;
      [| destruct (change_direction change_percent); discriminate].
    apply format_abs_no_dash in Hp, Ha.
    rewrite str_contains_char.
    destruct (change_direction change_percent); unfold mbind, result_bind;
      intros [= <-]; rewrite !has_char_app, Hp, Ha; reflexivity.
  - intros p a. unfold format_change, py_format_f. cbn [py_abs to_float].
    unfold mbind, result_bind.
    destruct (change_direction (NFloat p)); eexists; reflexivity.
Qed.

Lemma format_change_shows_magnitudes_witness :
  format_change (NFloat (float_lit (-321) 100)) (NFloat (float_lit (-1605) 1)) =
    Ok "🔴 下跌 3.21% ($1605.00)" /\
  str_contains "-" "🔴 下跌 3.21% ($1605.00)" = false.
Proof.
  split; [vm_compute; reflexivity |].
  apply (proj1 (format_change_shows_magnitudes (NFloat (float_lit (-321) 100))
                  (NFloat (float_lit (-1605) 1)))).
  vm_compute. reflexivity.
Defined.

(** *** What the trend block shows *)

Lemma float_Q_negative (m : positive) (e : Z) : (float_Q true m e < 0)%Q.
Proof.
  unfold float_Q, Qlt, inject_Z. destruct e as [| p | p]; cbn [Qnum Qden cond_Zopp]; lia.
Qed.

Lemma format_positive_no_dash (grouping : bool) (digits : nat) (x : number) (text : string) :
  py_gt x (NInt 0) = true ->
  py_format_f grouping digits x = Ok text ->
  has_char "-" text = false.
Proof.
  intros Hpos. destruct x as [z | f].
  - apply (py_gt_fin (NInt z) (inject_Z z) 0 eq_refl) in Hpos.
    rewrite <- Zlt_Qlt in Hpos.
    replace z with (Z.abs z) by lia. apply (format_abs_no_dash grouping digits (NInt z)).
  - unfold py_format_f. cbn [to_float]. unfold mbind, result_bind. intros [= <-].
    destruct f as [s | s | | s m e].
    + discriminate Hpos.
    + destruct s; [discriminate Hpos | reflexivity].
    + discriminate Hpos.
    + destruct s.
      * apply (py_gt_fin (NFloat (S754_finite true m e)) (float_Q true m e) 0 eq_refl) in Hpos.
        pose proof (float_Q_negative m e) as Hneg.
        change (inject_Z 0) with 0%Q in Hpos. lra.
      * cbn [format_float]. change (sign_text false +:+ ?X) with X.
        apply fixed_point_no_dash.
Qed.

(** X16. The trend block shows magnitudes only, like the change line:
    whatever number the change is, the message of the branch taken holds
    no minus sign (the rising branches print the change itself, which is
    positive there; the falling ones its absolute value), and the call is
    the one of the branch. On a float the block always produces its
    message. *)
Theorem trend_message_shows_magnitude (change_percent : number) :
  (forall w text,
     trend_message change_percent = Ok (w, text) ->
     w = trend_widget (trend_analysis change_percent) /\
     str_contains "-" text = false) /\
  (forall f : float, exists w text, trend_message (NFloat f) = Ok (w, text)).
Proof.
  split.
  - intros w text. unfold trend_message.
    pose proof (trend_direction_change change_percent) as Hd.
    assert (Hup : change_direction change_percent = Rising ->
                  py_gt change_percent (NInt 0) = true).
    { unfold change_direction. destruct (py_gt change_percent (NInt 0)); [reflexivity |].
      destruct (py_lt change_percent (NInt 0)); discriminate. }
    destruct (trend_analysis change_percent); cbn [trend_direction trend_widget] in Hd |- *.
    1-3: destruct (py_format_f false 2 change_percent) as [p | e] eqn:Hp; [| discriminate];
         unfold mbind, result_bind; intros [= <- <-]; split; [reflexivity |];
         rewrite str_contains_char, !has_char_app,
           (format_positive_no_dash _ _ _ _ (Hup (eq_sym Hd)) Hp); reflexivity.
    1: intros [= <- <-]; split; reflexivity.
    all: destruct (py_format_f false 2 (py_abs change_percent)) as [p | e] eqn:Hp;
         [| discriminate];
         unfold mbind, result_bind; intros [= <- <-]; split; [reflexivity |];
         rewrite str_contains_char, !has_char_app, (format_abs_no_dash _ _ _ _ Hp);
         reflexivity.
  - intros f. unfold trend_message, py_format_f. cbn [to_float py_abs].
    unfold mbind, result_bind.
    destruct (trend_analysis (NFloat f)); eexists; eexists; reflexivity.
Qed.

Lemma trend_message_shows_magnitude_witness :
  trend_message (NFloat (float_lit (-321) 100)) =
    Ok (StErrorBox, "🔻 明显下跌: 过去24小时下跌 3.21%") /\
  StErrorBox = trend_widget (trend_analysis (NFloat (float_lit (-321) 100))) /\
  str_contains "-" "🔻 明显下跌: 过去24小时下跌 3.21%" = false.
Proof.
  split; [vm_compute; reflexivity |].
  apply (proj1 (trend_message_shows_magnitude (NFloat (float_lit (-321) 100)))).
  vm_compute. reflexivity.
Defined.
